(** * vscode-settings-sync: the archive transfer pipeline

    A shallow embedding of [main.go] (the entry filter, the streaming archive
    encoder, the archive decoder with its ZipSlip guard, the backup manager,
    the /sync handler and the client sequence, the search for the local
    address and the command line) together with the older revision of the
    same program that the repository keeps next to it.

    Conventions of the embedding.
    - Paths are Go strings; the host is a Unix-like one, so
      [os.PathSeparator] is the slash and [filepath.ToSlash] is the identity.
    - The destination file system is a finite map from resolved absolute
      paths (lists of components) to nodes; the operating system calls are
      functions on a [world] and return the new world with the error.  A
      file or directory that a call creates gets the mode asked for less the
      file mode creation mask of the process, which the world carries.
    - A source directory is a [tree] as [os.ReadDir] lists it, each node
      annotated with the I/O errors that reading it meets.
    - A zip archive is the list of its entries; compression is the identity
      on contents.
    - The network interfaces are the list that [net.Interfaces] returns, each
      with its name, its flags and what [Addrs] returns for it. *)

From Stdlib Require Import String Ascii List NArith Lia Bool.
From stdpp Require Import base gmap list strings.

Local Open Scope nat_scope.

(** ** Go's [strings] package, as far as the program uses it *)

Module GoStrings.

(** [strings.HasPrefix(s, prefix)] *)
Definition HasPrefix (s prefix : string) : bool := String.prefix prefix s.

(** [strings.HasSuffix(s, suffix)]:
    [len(s) >= len(suffix) && s[len(s)-len(suffix):] == suffix] *)
Definition HasSuffix (s suffix : string) : bool :=
  (String.length suffix <=? String.length s) &&
  bool_decide
    (String.substring (String.length s - String.length suffix)
                      (String.length suffix) s = suffix).

(** [strings.Split(s, sep)] for a one-byte separator: the substrings
    between the separators, empty ones included; never the empty list. *)
Fixpoint Split (s : string) (sep : ascii) : list string :=
  match s with
  | EmptyString => [EmptyString]
  | String c s' =>
      if decide (c = sep) then EmptyString :: Split s' sep
      else match Split s' sep with
           | x :: xs => String c x :: xs
           | [] => [String c EmptyString]
           end
  end.

(** [strings.Join(elems, sep)] *)
Fixpoint Join (elems : list string) (sep : string) : string :=
  match elems with
  | [] => ""
  | [e] => e
  | e :: rest => e +:+ sep +:+ Join rest sep
  end.

End GoStrings.

(** ** Errors *)

Inductive errno := ENOENT | EACCES | ENOTDIR | EISDIR | ENOTEMPTY | EINVAL | EIO | EEXIST.

Inductive sysop := OpLstat | OpStat | OpReadDir | OpOpen | OpRead | OpMkdir | OpWrite | OpRename.

Inductive error :=
| PathError (op : sysop) (path : string) (e : errno)  (* *fs.PathError, *os.LinkError *)
| ErrInvalidPath (fpath : string)   (* fmt.Errorf of the ZipSlip guard *)
| ErrZipFormat                      (* zip.ErrFormat: not a valid zip file *)
| ErrZipAlgorithm                   (* zip.ErrAlgorithm *)
| ErrZipChecksum                    (* zip.ErrChecksum *)
| ErrZipClosed                      (* write to a closed zip.Writer *)
| ErrRel                            (* filepath.Rel: can't make relative *)
| ErrNoAppData                      (* APPDATA is not set *)
| ErrHomeUndefined                  (* os.UserHomeDir: $HOME is not defined *)
| ErrUnsupportedOS (goos : string).

Global Instance errno_eq_dec : EqDecision errno.
Proof. solve_decision. Defined.
Global Instance sysop_eq_dec : EqDecision sysop.
Proof. solve_decision. Defined.
Global Instance error_eq_dec : EqDecision error.
Proof. solve_decision. Defined.

(** ** Go's [path/filepath] package on a Unix-like host *)

Module Filepath.
Import GoStrings.

Definition Separator : ascii := "/"%char.

(** [filepath.ToSlash]: the separator already is the slash. *)
Definition ToSlash (path : string) : string := path.

Definition IsAbs (path : string) : bool := HasPrefix path "/".

(** The non-empty path elements, in order. *)
Definition elems (path : string) : list string :=
  filter (λ e, e ≠ "") (Split path Separator).

(** One round of the loop of [Clean] on a non-empty element.  [stack] holds
    the elements written so far, last one first.  A [".."] removes the last
    element when there is one to backtrack over; otherwise it is dropped
    on a rooted path and kept on a relative one. *)
Definition clean_step (rooted : bool) (stack : list string) (e : string)
  : list string :=
  if decide (e = ".") then stack
  else if decide (e = "..") then
    match stack with
    | top :: below =>
        if decide (top = "..") then (if rooted then stack else ".." :: stack)
        else below
    | [] => if rooted then [] else [".."]
    end
  else e :: stack.

Definition clean_elems (rooted : bool) (es : list string) : list string :=
  rev (fold_left (clean_step rooted) es []).

Definition render (rooted : bool) (es : list string) : string :=
  if rooted then "/" +:+ Join es "/"
  else match es with [] => "." | _ => Join es "/" end.

(** [filepath.Clean] *)
Definition Clean (path : string) : string :=
  if decide (path = "") then "."
  else render (IsAbs path) (clean_elems (IsAbs path) (elems path)).

(** [filepath.Join]: leading empty elements are ignored, the rest is joined
    with the separator and cleaned. *)
Fixpoint Join (elem : list string) : string :=
  match elem with
  | [] => ""
  | e :: rest =>
      if decide (e = "") then Join rest
      else Clean (GoStrings.Join elem "/")
  end.

Fixpoint contains_sep (s : string) : bool :=
  match s with
  | EmptyString => false
  | String c s' => if decide (c = Separator) then true else contains_sep s'
  end.

(** [path[:i+1]] where [i] is the index of the last separator. *)
Fixpoint dir_prefix (s : string) : string :=
  match s with
  | EmptyString => EmptyString
  | String c s' =>
      if contains_sep s then String c (dir_prefix s') else EmptyString
  end.

(** [filepath.Dir] *)
Definition Dir (path : string) : string := Clean (dir_prefix path).

Fixpoint strip_common (b t : list string) : list string * list string :=
  match b, t with
  | x :: b', y :: t' =>
      if decide (x = y) then strip_common b' t' else (b, t)
  | _, _ => (b, t)
  end.

(** [filepath.Rel]: both paths are cleaned, the common leading elements are
    dropped, and every element left of the base becomes a [".."]. *)
Definition Rel (basepath targpath : string) : string * option error :=
  let base := Clean basepath in
  let targ := Clean targpath in
  if decide (targ = base) then (".", None)
  else
    let base := if decide (base = ".") then "" else base in
    if negb (eqb (IsAbs base) (IsAbs targ)) then ("", Some ErrRel)
    else
      let '(b, t) := strip_common (elems base) (elems targ) in
      match b with
      | [] => (GoStrings.Join t "/", None)
      | x :: _ =>
          if decide (x = "..") then ("", Some ErrRel)
          else (GoStrings.Join (replicate (length b) ".." ++ t) "/", None)
      end.

End Filepath.


(** ** Values shared by both machines *)

Definition bytes := list Byte.byte.

(** A result of a Go function that returns [(T, error)]. *)
Inductive result (A : Type) :=
| Ok (a : A)
| Err (e : error).
Arguments Ok {A} a.
Arguments Err {A} e.

(** A call either returns or panics. *)
Inductive go (A : Type) :=
| Returns (a : A)
| Panics.
Arguments Returns {A} a.
Arguments Panics {A}.

(** Unix permission bits, [0755] being the one the program writes out. *)
Definition perm0755 : N := 493%N.

(** [runtime.GOOS] and the process environment. *)
Record host := Host {
  goos : string;
  env : gmap string string;
}.

(** [os.Getenv]: the empty string when the variable is unset. *)
Definition Getenv (h : host) (key : string) : string := default "" (env h !! key).

(** [os.UserHomeDir] on a Unix-like host. *)
Definition UserHomeDir (h : host) : result string :=
  let home := Getenv h "HOME" in
  if decide (home = "") then Err ErrHomeUndefined else Ok home.

(** ** Wall-clock time and [Time.Format] *)

Record gotime := GoTime {
  year : N; month : N; day : N;
  hour : N; minute : N; second : N;
}.

Module GoTime.

Definition digit (d : N) : ascii := ascii_of_N (48 + d).

(** The decimal digits of [n], most significant first. *)
Fixpoint utod (fuel : nat) (n : N) (acc : string) : string :=
  let acc' := String (digit (n mod 10)) acc in
  match fuel with
  | O => acc'
  | S fuel' => if (n / 10 =? 0)%N then acc' else utod fuel' (n / 10)%N acc'
  end.

Fixpoint zeros (k : nat) : string :=
  match k with O => "" | S k' => String "0"%char (zeros k') end.

(** [appendInt(b, x, width)] of package time, for [x >= 0]: the decimal
    digits, padded with zeros on the left up to [width]. *)
Definition appendInt (x : N) (width : nat) : string :=
  let d := utod (N.to_nat (N.log2 x)) x "" in
  zeros (width - String.length d) +:+ d.

(** [t.Format("20060102-150405")] *)
Definition Format (t : gotime) : string :=
  appendInt (year t) 4 +:+ appendInt (month t) 2 +:+ appendInt (day t) 2
  +:+ "-" +:+
  appendInt (hour t) 2 +:+ appendInt (minute t) 2 +:+ appendInt (second t) 2.

End GoTime.

(** ** The zip archive *)

(** What reading an entry's contents yields: the stored bytes, an error when
    the entry is opened, or an error after part of the bytes. *)
Inductive zbody :=
| Stored (data : bytes)
| BadMethod
| BadData (partial : bytes).

Record zfile := ZFile {
  zname : string;
  zperm : N;
  zdirattr : bool;      (* the external attributes mark a directory *)
  zbody_of : zbody;
}.

(** The bytes on the wire: either they parse as an archive with these
    entries, or they do not (garbage, or a stream cut before the central
    directory). *)
Inductive stream :=
| ZipStream (files : list zfile)
| Garbage.

Module Zip.
Import GoStrings.

(** [f.FileInfo().IsDir()]: [FileHeader.Mode] sets the directory bit from
    the attributes, and also whenever the name ends in a slash. *)
Definition IsDir (f : zfile) : bool := zdirattr f || HasSuffix (zname f) "/".

(** [f.Mode()], the permission bits. *)
Definition Mode (f : zfile) : N := zperm f.

(** [zip.NewReader] *)
Definition NewReader (s : stream) : result (list zfile) :=
  match s with
  | ZipStream files => Ok files
  | Garbage => Err ErrZipFormat
  end.

(** [f.Open()] *)
Definition Open (f : zfile) : result zbody :=
  match zbody_of f with
  | BadMethod => Err ErrZipAlgorithm
  | b => Ok b
  end.

(** A [zip.Writer]: the entries written so far, and whether [Close] wrote
    the central directory. *)
Record Writer := MkWriter {
  zw_files : list zfile;
  zw_closed : bool;
}.

Definition NewWriter : Writer := MkWriter [] false.

(** [w.CreateHeader(header)] for a header made from a regular file. *)
Definition CreateHeader (w : Writer) (name : string) (perm : N) : result Writer :=
  if zw_closed w then Err ErrZipClosed
  else Ok (MkWriter (zw_files w ++ [ZFile name perm false (Stored [])]) false).

(** [w.Create(name)]: a header without attributes, which reads back as
    mode [0666]. *)
Definition Create (w : Writer) (name : string) : result Writer :=
  CreateHeader w name 438%N.

Definition append_body (f : zfile) (data : bytes) : zfile :=
  match zbody_of f with
  | Stored old => ZFile (zname f) (zperm f) (zdirattr f) (Stored (old ++ data))
  | _ => f
  end.

(** Writing to the [io.Writer] that [CreateHeader] returned: the bytes go
    to the entry created last. *)
Definition Write (w : Writer) (data : bytes) : Writer :=
  match reverse (zw_files w) with
  | [] => w
  | f :: before => MkWriter (reverse before ++ [append_body f data]) (zw_closed w)
  end.

(** [w.Close()] *)
Definition Close (w : Writer) : Writer := MkWriter (zw_files w) true.

(** What the sink holds: a readable archive only once the central
    directory is written. *)
Definition sent (w : Writer) : stream :=
  if zw_closed w then ZipStream (zw_files w) else Garbage.

End Zip.

(** ** The source side: a directory tree as the walk reads it *)

Record file_io := FileIO {
  lstat_err : option errno;   (* os.Lstat / DirEntry.Info fails *)
  open_err : option errno;    (* os.Open fails *)
  read_err : option errno;    (* reading the opened file fails *)
}.

Definition healthy : file_io := FileIO None None None.

Inductive tree :=
| TFile (perm : N) (data : bytes) (io : file_io)
| TDir (rd : option errno) (children : forest)   (* rd: os.ReadDir fails *)
with forest :=
| FNil
| FCons (name : string) (t : tree) (rest : forest).

Scheme tree_forest_ind := Induction for tree Sort Prop
  with forest_tree_ind := Induction for forest Sort Prop.
Combined Scheme tree_forest_mutind from tree_forest_ind, forest_tree_ind.

Definition tree_IsDir (d : tree) : bool :=
  match d with TDir _ _ => true | TFile _ _ _ => false end.

(** The entry that [fs.FileInfoToDirEntry] makes of the root of a walk: its
    metadata is the one [os.Lstat] has just read, so [Info] cannot fail. *)
Definition root_entry (d : tree) : tree :=
  match d with
  | TFile perm data io => TFile perm data (FileIO None (open_err io) (read_err io))
  | TDir _ _ => d
  end.

(** The serving machine: its environment and the directories on its disk,
    by the path they are opened under. *)
Record server := Server {
  shost : host;
  disk : gmap string tree;
}.

(** What a walk callback returns: [nil], [filepath.SkipDir], another error;
    or it panics. *)
Inductive walk_result :=
| WNil
| WSkipDir
| WErr (e : error)
| WPanic.

Module Walk.

Section Walker.
Context {S : Type}.
(** [fs.WalkDirFunc] and [filepath.WalkFunc]: the path, the entry ([nil]
    when there is none), the error the walk met. *)
Variable fn : string → option tree → option error → S → S * walk_result.

(** [walkDir] of path/filepath: the callback first; a directory is then
    listed, the callback is told of a failed listing, and the entries
    are walked in order.  [SkipDir] from a directory skips it, from a
    file it ends the listing it is in. *)
Fixpoint walkDir (path : string) (d : tree) (s : S) {struct d} : S * walk_result :=
  match fn path (Some d) None s with
  | (s1, WNil) =>
      match d with
      | TFile _ _ _ => (s1, WNil)
      | TDir rd children =>
          match rd with
          | None => walkDirs path children s1
          | Some e =>
              match fn path (Some d) (Some (PathError OpReadDir path e)) s1 with
              | (s2, WNil) => walkDirs path children s2
              | (s2, WSkipDir) => (s2, WNil)
              | r => r
              end
          end
      end
  | (s1, WSkipDir) => (s1, if tree_IsDir d then WNil else WSkipDir)
  | r => r
  end
with walkDirs (path : string) (ds : forest) (s : S) {struct ds} : S * walk_result :=
  match ds with
  | FNil => (s, WNil)
  | FCons name d1 rest =>
      match walkDir (Filepath.Join [path; name]) d1 s with
      | (s', WNil) => walkDirs path rest s'
      | (s', WSkipDir) => (s', WNil)
      | r => r
      end
  end.

(** [filepath.WalkDir]: the root is [lstat]ed, and the entry made of the
    result is walked. *)
Definition WalkDir (dsk : gmap string tree) (root : string) (s : S) : S * walk_result :=
  let r := match dsk !! root with
           | None => fn root None (Some (PathError OpLstat root ENOENT)) s
           | Some d => walkDir root (root_entry d) s
           end in
  match r with
  | (s', WSkipDir) => (s', WNil)
  | r => r
  end.

(** [walk] of path/filepath (the older API): a file gets the callback; a
    directory is listed first and the callback is given the listing
    error; every entry is [lstat]ed before it is walked. *)
Fixpoint walk (path : string) (info : tree) (s : S) {struct info} : S * walk_result :=
  match info with
  | TFile _ _ _ => fn path (Some info) None s
  | TDir rd names =>
      let err := option_map (PathError OpReadDir path) rd in
      match fn path (Some info) err s, err with
      | (s1, WNil), None => walkNames path names s1
      | r, _ => r
      end
  end
with walkNames (path : string) (names : forest) (s : S) {struct names} : S * walk_result :=
  match names with
  | FNil => (s, WNil)
  | FCons name d1 rest =>
      let filename := Filepath.Join [path; name] in
      let lstat := match d1 with
                   | TFile _ _ io => lstat_err io
                   | TDir _ _ => None
                   end in
      match lstat with
      | Some e =>
          match fn filename None (Some (PathError OpLstat filename e)) s with
          | (s', WNil) | (s', WSkipDir) => walkNames path rest s'
          | r => r
          end
      | None =>
          match walk filename d1 s with
          | (s', WNil) => walkNames path rest s'
          | (s', WSkipDir) =>
              if tree_IsDir d1 then walkNames path rest s' else (s', WSkipDir)
          | r => r
          end
      end
  end.

(** [filepath.Walk] *)
Definition WalkTree (dsk : gmap string tree) (root : string) (s : S) : S * walk_result :=
  let r := match dsk !! root with
           | None => fn root None (Some (PathError OpLstat root ENOENT)) s
           | Some d => walk root d s
           end in
  match r with
  | (s', WSkipDir) => (s', WNil)
  | r => r
  end.

End Walker.

End Walk.


(** ** The receiving machine *)

Inductive node :=
| NFile (perm : N) (data : bytes)
| NDir (perm : N).

(** The lines the program prints. *)
Inductive msg :=
| MsgPathError (e : error)            (* "Ошибка поиска папки VS Code: %v" *)
| MsgConnecting (url : string)        (* "Подключение к серверу: %s" *)
| MsgConnError (e : error)            (* "Ошибка подключения к серверу: %v" *)
| MsgServerStatus (status : nat)      (* "Сервер вернул ошибку: %s" *)
| MsgBackupTo (dest : string)         (* "Создание бэкапа текущих настроек в: %s" *)
| MsgBackupError (e : error)          (* "❌ ОШИБКА БЭКАПА: %v" *)
| MsgSyncCancelled                    (* "⛔  ВАЖНО: Операция синхронизации ОТМЕНЕНА ..." and the advice *)
| MsgBackupWarning (e : error)        (* "Внимание: не удалось создать бэкап: %v" *)
| MsgUnpacking                        (* "... Распаковка ..." *)
| MsgUnzipError (e : error)           (* "Ошибка распаковки: %v" *)
| MsgSyncDone.                        (* "Синхронизация успешно завершена!" *)

Record world := World {
  whost : host;
  cwd : list string;                        (* the working directory, resolved *)
  fs : gmap (list string) node;            (* the root directory is implicit *)
  faults : list (sysop * list string);     (* calls the host refuses: locks, permissions *)
  umask : N;                                (* the process's file mode creation mask *)
  now : gotime;                             (* what time.Now() reads *)
  stdout : list msg;
}.

Definition with_fs (m : gmap (list string) node) (w : world) : world :=
  World (whost w) (cwd w) m (faults w) (umask w) (now w) (stdout w).

Definition print (m : msg) (w : world) : world :=
  World (whost w) (cwd w) (fs w) (faults w) (umask w) (now w) (stdout w ++ [m]).

Module GoOS.
Import Filepath.

(** How the kernel resolves a path: relative ones start at the working
    directory, [.] and [..] are followed (there are no symbolic links). *)
Definition resolve (w : world) (path : string) : list string :=
  if IsAbs path then clean_elems true (elems path)
  else clean_elems true (cwd w ++ elems path).

Definition node_at (m : gmap (list string) node) (p : list string) : option node :=
  match p with
  | [] => Some (NDir perm0755)
  | _ => m !! p
  end.

(** The non-empty prefixes of [p], shortest first, [p] itself last. *)
Definition prefixes (p : list string) : list (list string) :=
  map (λ n, take n p) (seq 1 (length p)).

(** The non-empty proper prefixes of [p]. *)
Definition ancestors (p : list string) : list (list string) :=
  map (λ n, take n p) (seq 1 (length p - 1)).

Definition is_file (m : gmap (list string) node) (p : list string) : bool :=
  match m !! p with Some (NFile _ _) => true | _ => false end.

(** Some directory on the way to [p] is a regular file. *)
Definition under_file (m : gmap (list string) node) (p : list string) : bool :=
  existsb (is_file m) (ancestors p).

Definition faulty (w : world) (op : sysop) (p : list string) : bool :=
  bool_decide ((op, p) ∈ faults w).

(** [os.Stat] *)
Definition Stat (w : world) (path : string) : option error :=
  if decide (path = "") then Some (PathError OpStat path ENOENT)
  else
    let p := resolve w path in
    if faulty w OpStat p then Some (PathError OpStat path EACCES)
    else if under_file (fs w) p then Some (PathError OpStat path ENOTDIR)
    else match node_at (fs w) p with
         | None => Some (PathError OpStat path ENOENT)
         | Some _ => None
         end.

(** [os.Lstat]; there are no symbolic links, so it finds what [os.Stat]
    finds. *)
Definition Lstat (w : world) (path : string) : result node :=
  if decide (path = "") then Err (PathError OpLstat path ENOENT)
  else
    let p := resolve w path in
    if faulty w OpLstat p then Err (PathError OpLstat path EACCES)
    else if under_file (fs w) p then Err (PathError OpLstat path ENOTDIR)
    else match node_at (fs w) p with
         | None => Err (PathError OpLstat path ENOENT)
         | Some nd => Ok nd
         end.

(** The [Err] field of a [*PathError]. *)
Definition errno_of (e : error) : errno :=
  match e with
  | PathError _ _ c => c
  | _ => EIO
  end.

(** [os.IsNotExist] *)
Definition IsNotExist (err : option error) : bool :=
  match err with
  | Some (PathError _ _ ENOENT) => true
  | _ => false
  end.

Fixpoint mkdir_chain (path : string) (perm : N) (ps : list (list string)) (w : world)
  : world * option error :=
  match ps with
  | [] => (w, None)
  | p :: rest =>
      match fs w !! p with
      | Some (NDir _) => mkdir_chain path perm rest w
      | Some (NFile _ _) => (w, Some (PathError OpMkdir path ENOTDIR))
      | None =>
          if faulty w OpMkdir p then (w, Some (PathError OpMkdir path EACCES))
          else mkdir_chain path perm rest
                 (with_fs (<[p := NDir (N.ldiff perm (umask w))]> (fs w)) w)
      end
  end.

(** [os.MkdirAll]: the directory and every missing parent, each made by
    [mkdir] with [perm] less the process's mask.  The parents are those of
    the resolved path, which are the ones [os.MkdirAll] walks when the path
    is a cleaned one ([Filepath.Clean path = path]): every path the program
    hands it is the result of [filepath.Join], [filepath.Dir] or
    [getVSCodePath], hence cleaned.  On a path that still holds [..]
    elements [os.MkdirAll] goes through the textual parents ([/a] for
    [/a/../b]) and this definition does not describe it; the properties
    that speak of every destination assume it cleaned. *)
Definition MkdirAll (path : string) (perm : N) (w : world) : world * option error :=
  if decide (path = "") then (w, Some (PathError OpMkdir path ENOENT))
  else mkdir_chain path perm (prefixes (resolve w path)) w.

(** [os.OpenFile(name, O_WRONLY|O_CREATE|O_TRUNC, perm)]; the handle is the
    resolved path of the file.  A file that exists is truncated and keeps
    its mode; a new one gets [perm] less the process's mask. *)
Definition OpenFile_create_trunc (path : string) (perm : N) (w : world)
  : world * result (list string) :=
  if decide (path = "") then (w, Err (PathError OpOpen path ENOENT))
  else
    let p := resolve w path in
    if faulty w OpOpen p then (w, Err (PathError OpOpen path EACCES))
    else if under_file (fs w) p then (w, Err (PathError OpOpen path ENOTDIR))
    else match p with
         | [] => (w, Err (PathError OpOpen path EISDIR))
         | _ =>
             match node_at (fs w) (removelast p) with
             | None | Some (NFile _ _) => (w, Err (PathError OpOpen path ENOENT))
             | Some (NDir _) =>
                 match fs w !! p with
                 | Some (NDir _) => (w, Err (PathError OpOpen path EISDIR))
                 | Some (NFile m _) => (with_fs (<[p := NFile m []]> (fs w)) w, Ok p)
                 | None =>
                     (with_fs (<[p := NFile (N.ldiff perm (umask w)) []]> (fs w)) w, Ok p)
                 end
             end
         end.

(** Writing to an open file. *)
Definition Write (h : list string) (data : bytes) (w : world) : world * option error :=
  if faulty w OpWrite h then (w, Some (PathError OpWrite "" EIO))
  else match fs w !! h with
       | Some (NFile m old) => (with_fs (<[h := NFile m (old ++ data)]> (fs w)) w, None)
       | _ => (w, Some (PathError OpWrite "" EIO))
       end.

(** [io.Copy(outFile, rc)] for the reader of a zip entry. *)
Definition Copy (h : list string) (rc : zbody) (w : world) : world * option error :=
  match rc with
  | Stored data => Write h data w
  | BadData partial =>
      match Write h partial w with
      | (w', None) => (w', Some ErrZipChecksum)
      | r => r
      end
  | BadMethod => (w, Some ErrZipAlgorithm)
  end.

Definition has_children (m : gmap (list string) node) (p : list string) : bool :=
  existsb (λ k, bool_decide (p `prefix_of` k ∧ k ≠ p)) (map_to_list m).*1.

(** The map with everything under [o] moved under [n]. *)
Definition move_tree (o n : list string) (m : gmap (list string) node)
  : gmap (list string) node :=
  list_to_map
    (omap (λ '(k, v),
            if decide (o `prefix_of` k) then Some (n ++ drop (length o) k, v)
            else if decide (n `prefix_of` k) then None
            else Some (k, v))
          (map_to_list m)).

(** The [rename] system call. *)
Definition sys_rename (oldpath newpath : string) (w : world) : world * option error :=
  if decide (oldpath = "" ∨ newpath = "") then (w, Some (PathError OpRename oldpath ENOENT))
  else
    let o := resolve w oldpath in
    let n := resolve w newpath in
    if faulty w OpRename o then (w, Some (PathError OpRename oldpath EACCES))
    else if under_file (fs w) o || under_file (fs w) n
    then (w, Some (PathError OpRename oldpath ENOTDIR))
    else match o, fs w !! o with
         | [], _ => (w, Some (PathError OpRename oldpath EINVAL))
         | _, None => (w, Some (PathError OpRename oldpath ENOENT))
         | _, Some src =>
             if decide (o = n) then (w, None)
             else if decide (o `prefix_of` n) then (w, Some (PathError OpRename oldpath EINVAL))
             else match node_at (fs w) (removelast n) with
                  | None | Some (NFile _ _) => (w, Some (PathError OpRename oldpath ENOENT))
                  | Some (NDir _) =>
                      match src, node_at (fs w) n with
                      | NDir _, Some (NFile _ _) =>
                          (w, Some (PathError OpRename oldpath ENOTDIR))
                      | NFile _ _, Some (NDir _) =>
                          (w, Some (PathError OpRename oldpath EISDIR))
                      | NDir _, Some (NDir _) =>
                          if has_children (fs w) n
                          then (w, Some (PathError OpRename oldpath ENOTEMPTY))
                          else (with_fs (move_tree o n (fs w)) w, None)
                      | _, _ => (with_fs (move_tree o n (fs w)) w, None)
                      end
                  end
         end.

(** [os.Rename] (Unix): when the new name is an existing directory Go
    answers itself, with the error of [Lstat(oldname)] if there is one and
    with [EEXIST] otherwise, unless the two names are different names of
    the same directory; in every other case the system call decides. *)
Definition Rename (oldpath newpath : string) (w : world) : world * option error :=
  match Lstat w newpath with
  | Ok (NDir _) =>
      match Lstat w oldpath with
      | Err e => (w, Some (PathError OpRename oldpath (errno_of e)))
      | Ok _ =>
          if decide (newpath = oldpath ∨ resolve w oldpath ≠ resolve w newpath)
          then (w, Some (PathError OpRename oldpath EEXIST))
          else sys_rename oldpath newpath w
      end
  | _ => sys_rename oldpath newpath w
  end.

End GoOS.

(** ** Go's [net] package, as far as [getLocalIP] reads it *)

Module Net.

(** [net.Flags], a bit mask. *)
Definition FlagUp : N := 1.              (* 1 << 0 *)
Definition FlagBroadcast : N := 2.
Definition FlagLoopback : N := 4.
Definition FlagPointToPoint : N := 8.
Definition FlagMulticast : N := 16.
Definition FlagRunning : N := 32.

(** [net.IP], a byte slice. *)
Definition IP := list Byte.byte.

(** [ip.To4()]: a four-byte address as it is, the last four bytes of a
    sixteen-byte address that is an IPv4 one mapped into IPv6, [nil]
    otherwise. *)
Definition To4 (ip : IP) : option IP :=
  if length ip =? 4 then Some ip
  else if (length ip =? 16)
          && forallb (Byte.eqb Byte.x00) (take 10 ip)
          && Byte.eqb (nth 10 ip Byte.x00) Byte.xff
          && Byte.eqb (nth 11 ip Byte.x00) Byte.xff
       then Some (drop 12 ip)
       else None.

Definition uitoa (n : N) : string := GoTime.utod (N.to_nat (N.log2 n)) n "".

(** [ip.String()] for an address that [To4] accepts: dotted decimal. *)
Definition dotted (p4 : IP) : string :=
  GoStrings.Join (map (λ b, uitoa (Byte.to_N b)) p4) ".".

(** An element of what [iface.Addrs()] returns. *)
Inductive Addr :=
| IPNet (ip : IP)       (* *net.IPNet *)
| OtherAddr.            (* another implementation of net.Addr *)

Record Interface := MkInterface {
  Name : string;
  Flags : N;
  Addrs : result (list Addr);
}.

End Net.

(** ** main.go *)

(** [getVSCodePath]: the User settings directory of VS Code. *)
Definition getVSCodePath (h : host) : result string :=
  if decide (goos h = "windows") then
    let basePath := Getenv h "APPDATA" in
    if decide (basePath = "") then Err ErrNoAppData
    else Ok (Filepath.Join [basePath; "Code"; "User"])
  else if decide (goos h = "darwin") then
    match UserHomeDir h with
    | Err e => Err e
    | Ok home => Ok (Filepath.Join [home; "Library"; "Application Support"; "Code"; "User"])
    end
  else if decide (goos h = "linux") then
    match UserHomeDir h with
    | Err e => Err e
    | Ok home => Ok (Filepath.Join [home; ".config"; "Code"; "User"])
    end
  else Err (ErrUnsupportedOS (goos h)).

(** The keys of the map [skipDirs] of [shouldSkip]; every one maps to [true]. *)
Definition skipDirs : list string :=
  ["Cache"; "CachedData"; "Code Cache"; "languagepacks"; "logs";
   "workspaceStorage"; "globalStorage"].

(** [shouldSkip]: the elements that are not archived. *)
Definition shouldSkip (path : string) : bool :=
  let parts := GoStrings.Split path Filepath.Separator in
  if existsb (λ part, bool_decide (part ∈ skipDirs)) parts then true
  else if GoStrings.HasSuffix path ".sock" || GoStrings.HasSuffix path "-journal" then true
  else false.

(** The callback that [addFolderToZip] hands to [filepath.WalkDir]. *)
Definition addFolderToZip_fn (folderPath zipPath : string)
    (path : string) (d : option tree) (err : option error) (archive : Zip.Writer)
  : Zip.Writer * walk_result :=
  match err with
  | Some e => (archive, WErr e)
  | None =>
      let relPath := fst (Filepath.Rel folderPath path) in
      let entryName := Filepath.Join [zipPath; relPath] in
      match d with
      | None => (archive, WPanic)
      | Some d =>
          if shouldSkip relPath then
            if tree_IsDir d then (archive, WSkipDir) else (archive, WNil)
          else
            match d with
            | TDir _ _ => (archive, WNil)
            | TFile perm data io =>
                (* info, _ := d.Info(); header, _ := zip.FileInfoHeader(info) *)
                match lstat_err io with
                | Some _ => (archive, WPanic)   (* info is nil and is dereferenced *)
                | None =>
                    match Zip.CreateHeader archive (Filepath.ToSlash entryName) perm with
                    | Err e => (archive, WErr e)
                    | Ok archive1 =>
                        match open_err io with
                        | Some e => (archive1, WErr (PathError OpOpen path e))
                        | None =>
                            match read_err io with
                            | Some e => (archive1, WErr (PathError OpRead path e))
                            | None => (Zip.Write archive1 data, WNil)
                            end
                        end
                    end
                end
            end
      end
  end.

(** [addFolderToZip] *)
Definition addFolderToZip (dsk : gmap string tree) (folderPath zipPath : string)
    (archive : Zip.Writer) : Zip.Writer * walk_result :=
  Walk.WalkDir (addFolderToZip_fn folderPath zipPath) dsk folderPath archive.

(** One round of the loop of [unzipDest]; [None] lets the loop go on. *)
Definition unzip_entry (dest : string) (f : zfile) (w : world) : world * option error :=
  let fpath := Filepath.Join [dest; zname f] in
  if negb (GoStrings.HasPrefix fpath (Filepath.Clean dest +:+ "/")) then
    (w, Some (ErrInvalidPath fpath))
  else if Zip.IsDir f then
    (fst (GoOS.MkdirAll fpath (Zip.Mode f) w), None)
  else
    let parentDir := Filepath.Dir fpath in
    match GoOS.MkdirAll parentDir perm0755 w with
    | (w1, Some e) => (w1, Some e)
    | (w1, None) =>
        match GoOS.OpenFile_create_trunc fpath (Zip.Mode f) w1 with
        | (w2, Err e) => (w2, Some e)
        | (w2, Ok outFile) =>
            match Zip.Open f with
            | Err e => (w2, Some e)
            | Ok rc => GoOS.Copy outFile rc w2
            end
        end
    end.

Fixpoint unzip_loop (entry : string → zfile → world → world * option error)
    (dest : string) (files : list zfile) (w : world) : world * option error :=
  match files with
  | [] => (w, None)
  | f :: rest =>
      match entry dest f w with
      | (w', Some e) => (w', Some e)
      | (w', None) => unzip_loop entry dest rest w'
      end
  end.

(** [unzipDest]: the archive read from [reader] is unpacked into [dest]. *)
Definition unzipDest (reader : stream) (dest : string) (w : world) : world * option error :=
  let w := fst (GoOS.MkdirAll dest perm0755 w) in
  match Zip.NewReader reader with
  | Err e => (w, Some e)
  | Ok files => unzip_loop unzip_entry dest files w
  end.

(** [backupDir] *)
Definition backupDir (path : string) (w : world) : world * option error :=
  if GoOS.IsNotExist (GoOS.Stat w path) then (w, None)
  else
    let timestamp := GoTime.Format (now w) in
    let dest := path +:+ "_backup_" +:+ timestamp in
    GoOS.Rename path dest (print (MsgBackupTo dest) w).

(** What [http.Get] comes back with. *)
Inductive http_reply :=
| ConnFailed (e : error)
| Reply (status : nat) (body : stream).

Definition StatusOK : nat := 200.
Definition StatusMethodNotAllowed : nat := 405.
Definition StatusInternalServerError : nat := 500.

(** [runClient], over the decoder it calls. *)
Definition runClient_with (unzip : stream → string → world → world * option error)
    (get : string → http_reply) (serverIP port : string) (w : world) : world :=
  match getVSCodePath (whost w) with
  | Err e => print (MsgPathError e) w
  | Ok vscodePath =>
      let url := "http://" +:+ serverIP +:+ ":" +:+ port +:+ "/sync" in
      let w := print (MsgConnecting url) w in
      match get url with
      | ConnFailed e => print (MsgConnError e) w
      | Reply status body =>
          if negb (status =? StatusOK) then print (MsgServerStatus status) w
          else
            match backupDir vscodePath w with
            | (w, Some e) => print MsgSyncCancelled (print (MsgBackupError e) w)
            | (w, None) =>
                let w := print MsgUnpacking w in
                match unzip body vscodePath w with
                | (w, Some e) => print (MsgUnzipError e) w
                | (w, None) => print MsgSyncDone w
                end
            end
      end
  end.

Definition runClient := runClient_with unzipDest.

(** The reply of the /sync handler. *)
Inductive payload :=
| Text (s : string)
| ErrorText (e : error)       (* err.Error() *)
| Archive (s : stream).

Record response := Response {
  status : nat;
  header : list (string * string);
  body : payload;
}.

Inductive served :=
| Responded (r : response)
| Aborted.          (* the handler panicked; net/http drops the connection *)

(** [http.Error] *)
Definition http_Error (text : payload) (code : nat) : response :=
  Response code
    [("Content-Type", "text/plain; charset=utf-8"); ("X-Content-Type-Options", "nosniff")]
    text.

Definition zip_headers : list (string * string) :=
  [("Content-Type", "application/zip");
   ("Content-Disposition", "attachment; filename=vscode_settings.zip")].

(** The handler that [runServer] registers for /sync.  The archive writes
    into the response; the deferred [archive.Close()] runs when the handler
    returns, and the first byte written commits the status 200. *)
Definition syncHandler (srv : server) (method : string) : served :=
  if negb (bool_decide (method = "GET")) then
    Responded (http_Error (Text "GET only") StatusMethodNotAllowed)
  else
    let hdr := zip_headers ++ [("Cache-Control", "no-cache, no-store, must-revalidate")] in
    let archive := Zip.NewWriter in
    let userDir := Filepath.Join [Getenv (shost srv) "APPDATA"; "Code"; "User"] in
    match addFolderToZip (disk srv) userDir "User" archive with
    | (_, WPanic) => Aborted
    | (archive, _) =>
        let extDir := Filepath.Join [Getenv (shost srv) "USERPROFILE"; ".vscode"; "extensions"] in
        match addFolderToZip (disk srv) extDir "extensions" archive with
        | (_, WPanic) => Aborted
        | (archive, _) =>
            Responded (Response StatusOK hdr (Archive (Zip.sent (Zip.Close archive))))
        end
    end.

(** ** Start-up: the local address, the announcement and the command line *)

(** The inner loop of [getLocalIP]: the first address that is an IPv4
    network address ends the function. *)
Fixpoint first_ipv4 (addrs : list Net.Addr) : option string :=
  match addrs with
  | [] => None
  | Net.IPNet ip :: rest =>
      match Net.To4 ip with
      | Some p4 => Some (Net.dotted p4)
      | None => first_ipv4 rest
      end
  | Net.OtherAddr :: rest => first_ipv4 rest
  end.

(** The names that virtual interfaces start with. *)
Definition excludedPrefixes : list string := ["docker"; "br-"; "veth"; "virbr"; "vboxnet"].

(** The loop over the interfaces: one that is down, a loopback or a
    point-to-point link is passed over, then one with an excluded name, then
    one whose addresses cannot be read or hold no IPv4 network address. *)
Fixpoint getLocalIP_loop (interfaces : list Net.Interface) : string :=
  match interfaces with
  | [] => ""
  | iface :: rest =>
      if (N.land (Net.Flags iface) Net.FlagUp =? 0)%N
         || negb (N.land (Net.Flags iface) Net.FlagLoopback =? 0)%N
         || negb (N.land (Net.Flags iface) Net.FlagPointToPoint =? 0)%N
      then getLocalIP_loop rest
      else if existsb (GoStrings.HasPrefix (Net.Name iface)) excludedPrefixes
      then getLocalIP_loop rest
      else
        match Net.Addrs iface with
        | Err _ => getLocalIP_loop rest
        | Ok addrs =>
            match first_ipv4 addrs with
            | Some s => s
            | None => getLocalIP_loop rest
            end
        end
  end.

(** [getLocalIP], over what [net.Interfaces()] returns. *)
Definition getLocalIP (interfaces : result (list Net.Interface)) : string :=
  match interfaces with
  | Err _ => ""
  | Ok l => getLocalIP_loop l
  end.

(** [runServer] up to the point where it registers the handler: without a
    local address it prints an error and returns; otherwise it prints the
    command for the client, with [displayAddr], and goes on to listen on
    [Addr]. *)
Inductive startup :=
| NoAddress
| Announced (displayAddr Addr : string).

Definition runServer_startup (interfaces : result (list Net.Interface)) (port : string)
  : startup :=
  let localIP := getLocalIP interfaces in
  if decide (localIP = "") then NoAddress
  else Announced (localIP +:+ ":" +:+ port) (":" +:+ port).

(** ** The command line *)

Definition DEFAULT_PORT : string := "8080".

Module Flag.

Inductive parsed :=
| Parsed (port : string) (rest : list string)
| Help            (* -h or -help: the usage is printed, exit status 0 *)
| Failed.         (* any other parse error: exit status 2 *)

(** [name] cut at its first [=] that is not its first byte. *)
Fixpoint cut_eq (s : string) : option (string * string) :=
  match s with
  | EmptyString => None
  | String c s' =>
      if decide (c = "="%char) then Some (EmptyString, s')
      else match cut_eq s' with
           | Some (n, v) => Some (String c n, v)
           | None => None
           end
  end.

Definition split_value (name : string) : string * option string :=
  match name with
  | EmptyString => (name, None)
  | String c s' =>
      match cut_eq s' with
      | Some (n, v) => (String c n, Some v)
      | None => (name, None)
      end
  end.

(** [FlagSet.Parse] for the flag set of [main]: one string flag, [port].
    Each round is [parseOne]: an argument that is not a flag, or [--], ends
    the parse; a flag takes its value from behind [=] or from the next
    argument. *)
Fixpoint Parse (port : string) (args : list string) : parsed :=
  match args with
  | [] => Parsed port []
  | s :: rest =>
      match s with
      | String "-" (String c1 s2 as s1) =>
          if decide (s = "--") then Parsed port rest
          else
            let name := if decide (c1 = "-"%char) then s2 else s1 in
            if bool_decide (name = "") || GoStrings.HasPrefix name "-"
               || GoStrings.HasPrefix name "="
            then Failed
            else
              let '(name, value) := split_value name in
              if decide (name = "port") then
                match value with
                | Some v => Parse v rest
                | None =>
                    match rest with
                    | v :: rest' => Parse v rest'
                    | [] => Failed
                    end
                end
              else if bool_decide (name = "help") || bool_decide (name = "h") then Help
              else Failed
      | _ => Parsed port args
      end
  end.

End Flag.

(** What [main] goes on to do. *)
Inductive action :=
| Exit (code : nat)            (* flag.Parse ended the process *)
| Usage
| MissingIP
| UnknownCommand
| RunServer (port : string)
| RunClient (ip port : string).

(** [main], over [os.Args].  The flag set exits on error; the command is
    read from [os.Args], not from what the parse left over. *)
Definition main (Args : list string) : go action :=
  match Args with
  | [] => Panics                 (* os.Args[1:] *)
  | _ :: args =>
      match Flag.Parse DEFAULT_PORT args with
      | Flag.Help => Returns (Exit 0)
      | Flag.Failed => Returns (Exit 2)
      | Flag.Parsed port _ =>
          if length Args <? 2 then Returns Usage
          else
            let command := nth 1 Args "" in
            if decide (command = "server") then Returns (RunServer port)
            else if decide (command = "client") then
              if length Args <? 3 then Returns MissingIP
              else Returns (RunClient (nth 2 Args "") port)
            else Returns UnknownCommand
      end
  end.

(** ** The older revision kept in the repository (main.go after the
    separator; the unnamed file is the same on these functions) *)

Module Rev1.

(** The callback of [zipSource]. *)
Definition zipSource_fn (source : string)
    (path : string) (info : option tree) (err : option error) (w : Zip.Writer)
  : Zip.Writer * walk_result :=
  match err with
  | Some e => (w, WErr e)
  | None =>
      match info with
      | None => (w, WPanic)
      | Some (TDir _ _) => (w, WNil)
      | Some (TFile _ data io) =>
          match open_err io with
          | Some e => (w, WErr (PathError OpOpen path e))
          | None =>
              (* path[len(source):] *)
              if String.length path <? String.length source then (w, WPanic)
              else
                let name := String.substring (String.length source)
                              (String.length path - String.length source) path in
                match Zip.Create w name with
                | Err e => (w, WErr e)
                | Ok w1 =>
                    match read_err io with
                    | Some e => (w1, WErr (PathError OpRead path e))
                    | None => (Zip.Write w1 data, WNil)
                    end
                end
          end
      end
  end.

(** [zipSource]: the folder archived into a buffer. *)
Definition zipSource (dsk : gmap string tree) (source : string) : go (result stream) :=
  match Walk.WalkTree (zipSource_fn source) dsk source Zip.NewWriter with
  | (_, WPanic) => Panics
  | (_, WErr e) => Returns (Err e)
  | (w, _) => Returns (Ok (Zip.sent (Zip.Close w)))
  end.

(** [unzipDest] of this revision: the parent directory of a file is not
    created. *)
Definition unzip_entry (dest : string) (f : zfile) (w : world) : world * option error :=
  let fpath := Filepath.Join [dest; zname f] in
  if negb (GoStrings.HasPrefix fpath (Filepath.Clean dest +:+ "/")) then
    (w, Some (ErrInvalidPath fpath))
  else if Zip.IsDir f then
    (fst (GoOS.MkdirAll fpath (Zip.Mode f) w), None)
  else
    match GoOS.OpenFile_create_trunc fpath (Zip.Mode f) w with
    | (w2, Err e) => (w2, Some e)
    | (w2, Ok outFile) =>
        match Zip.Open f with
        | Err e => (w2, Some e)
        | Ok rc => GoOS.Copy outFile rc w2
        end
    end.

Definition unzipDest (reader : stream) (dest : string) (w : world) : world * option error :=
  let w := fst (GoOS.MkdirAll dest perm0755 w) in
  match Zip.NewReader reader with
  | Err e => (w, Some e)
  | Ok files => unzip_loop unzip_entry dest files w
  end.

(** [runClient] of this revision: a failed backup is only reported. *)
Definition runClient (get : string → http_reply) (serverIP port : string) (w : world) : world :=
  match getVSCodePath (whost w) with
  | Err e => print (MsgPathError e) w
  | Ok vscodePath =>
      let url := "http://" +:+ serverIP +:+ ":" +:+ port +:+ "/sync" in
      let w := print (MsgConnecting url) w in
      match get url with
      | ConnFailed e => print (MsgConnError e) w
      | Reply status body =>
          if negb (status =? StatusOK) then print (MsgServerStatus status) w
          else
            let w := match backupDir vscodePath w with
                     | (w, Some e) => print (MsgBackupWarning e) w
                     | (w, None) => w
                     end in
            let w := print MsgUnpacking w in
            match unzipDest body vscodePath w with
            | (w, Some e) => print (MsgUnzipError e) w
            | (w, None) => print MsgSyncDone w
            end
      end
  end.

(** The /sync handler of this revision: the archive is built in memory
    before anything is sent. *)
Definition syncHandler (srv : server) (vscodePath : string) (method : string) : served :=
  if negb (bool_decide (method = "GET")) then
    Responded (http_Error (Text "GET only") StatusMethodNotAllowed)
  else
    match zipSource (disk srv) vscodePath with
    | Panics => Aborted
    | Returns (Err e) => Responded (http_Error (ErrorText e) StatusInternalServerError)
    | Returns (Ok zipData) => Responded (Response StatusOK zip_headers (Archive zipData))
    end.

End Rev1.

(** * The vocabulary of the properties *)

(** [part] is a path component of [path]: a separator-free piece that is
    bounded on each side by a separator or by the end of the path. *)
Definition is_component (part path : string) : Prop :=
  Filepath.contains_sep part = false ∧
  ∃ pre post, path = pre +:+ part +:+ post ∧
    (pre = "" ∨ ∃ pre', pre = pre' +:+ "/") ∧
    (post = "" ∨ ∃ post', post = "/" +:+ post').

(** The names the specification lists: cache directories, per-session logs
    and the language packs. *)
Definition exclusion_set : list string :=
  ["Cache"; "CachedData"; "Code Cache"; "logs"; "languagepacks"].


(** The scenario of the specification: a root with [settings.json],
    [Cache/tmp.bin] and [workspaceStorage/ws1/state.json]. *)
Definition scenario_root : tree :=
  TDir None
    (FCons "Cache"
       (TDir None (FCons "tmp.bin" (TFile 420%N (replicate 1000 Byte.x00) healthy) FNil))
    (FCons "settings.json" (TFile 420%N (replicate 10 Byte.x7b) healthy)
    (FCons "workspaceStorage"
       (TDir None
          (FCons "ws1"
             (TDir None (FCons "state.json" (TFile 420%N (replicate 20 Byte.x7d) healthy) FNil))
             FNil))
     FNil))).

Definition scenario_disk : gmap string tree := {[ "/srv/User" := scenario_root ]}.


Definition sample_host : host := Host "linux" {[ "HOME" := "/home/u" ]}.
Definition sample_clock : gotime := GoTime 2024 3 9 7 5 1.
Definition sample_umask : N := 18%N.     (* 0022 *)
Definition empty_world : world := World sample_host [] ∅ [] sample_umask sample_clock [].

(** The path does not exist: the lookup ends in a directory that has no
    such entry (or the path is empty). *)
Definition absent (w : world) (path : string) : Prop :=
  path = "" ∨
  (GoOS.faulty w OpStat (GoOS.resolve w path) = false
   ∧ GoOS.under_file (fs w) (GoOS.resolve w path) = false
   ∧ GoOS.node_at (fs w) (GoOS.resolve w path) = None).






(** A machine whose settings directory exists and is locked by another
    process, and a server that answers with a new [settings.json]. *)
Definition config_dir : list string := ["home"; "u"; ".config"; "Code"; "User"].

Definition old_settings : bytes := [Byte.x6f; Byte.x6c; Byte.x64].
Definition new_settings : bytes := [Byte.x6e; Byte.x65; Byte.x77].

Definition locked_world : world :=
  World sample_host []
    (list_to_map
       [(["home"], NDir perm0755); (["home"; "u"], NDir perm0755);
        (["home"; "u"; ".config"], NDir perm0755);
        (["home"; "u"; ".config"; "Code"], NDir perm0755);
        (config_dir, NDir perm0755);
        (config_dir ++ ["settings.json"], NFile 420%N old_settings)])
    [(OpRename, config_dir)]
    sample_umask sample_clock [].

Definition new_archive : stream :=
  ZipStream [ZFile "settings.json" 420%N false (Stored new_settings)].

Definition answering (s : stream) : string → http_reply := λ _, Reply StatusOK s.

(** A server whose settings directory does not exist. *)
Definition bare_server : server :=
  Server (Host "windows" {[ "APPDATA" := "/srv/AppData"; "USERPROFILE" := "/srv" ]}) ∅.

(** What an encoder does to the archive, and what can stop it. *)
Inductive step :=
| SHeader (name : string) (perm : N)    (* a header is created *)
| SData (data : bytes)                  (* the contents are copied *)
| SFail (e : error)                     (* an I/O call returns an error *)
| SCrash.                               (* a nil value is dereferenced *)

Definition is_write (st : step) : Prop :=
  match st with
  | SHeader _ _ | SData _ => True
  | SFail _ | SCrash => False
  end.

Definition run_step (st : step) (a : Zip.Writer) : Zip.Writer * walk_result :=
  match st with
  | SHeader name perm =>
      match Zip.CreateHeader a name perm with
      | Err e => (a, WErr e)
      | Ok a' => (a', WNil)
      end
  | SData data => (Zip.Write a data, WNil)
  | SFail e => (a, WErr e)
  | SCrash => (a, WPanic)
  end.

(** The steps are taken in order, up to the first one that does not
    return [nil]. *)
Fixpoint run (steps : list step) (a : Zip.Writer) : Zip.Writer * walk_result :=
  match steps with
  | [] => (a, WNil)
  | st :: rest =>
      match run_step st a with
      | (a', WNil) => run rest a'
      | r => r
      end
  end.

(** The steps that visiting one file takes in [addFolderToZip]. *)
Definition file_plan (path entryName : string) (perm : N) (data : bytes) (io : file_io)
  : list step :=
  match lstat_err io with
  | Some _ => [SCrash]
  | None =>
      SHeader entryName perm ::
      match open_err io, read_err io with
      | Some e, _ => [SFail (PathError OpOpen path e)]
      | None, Some e => [SFail (PathError OpRead path e)]
      | None, None => [SData data]
      end
  end.

(** Every step of a walk of [d] by [addFolderToZip], in the order of the
    walk: nothing for a filtered entry and what lies below it; a directory
    that cannot be listed is a failing step. *)
Fixpoint plan (folderPath zipPath path : string) (d : tree) {struct d} : list step :=
  let relPath := fst (Filepath.Rel folderPath path) in
  if shouldSkip relPath then []
  else
    match d with
    | TFile perm data io =>
        file_plan path (Filepath.ToSlash (Filepath.Join [zipPath; relPath])) perm data io
    | TDir rd children =>
        match rd with
        | Some e => [SFail (PathError OpReadDir path e)]
        | None => []
        end ++ plans folderPath zipPath path children
    end
with plans (folderPath zipPath path : string) (ds : forest) {struct ds} : list step :=
  match ds with
  | FNil => []
  | FCons name d rest =>
      plan folderPath zipPath (Filepath.Join [path; name]) d
      ++ plans folderPath zipPath path rest
  end.

Definition encoder_plan (dsk : gmap string tree) (folderPath zipPath : string) : list step :=
  match dsk !! folderPath with
  | None => [SFail (PathError OpLstat folderPath ENOENT)]
  | Some d => plan folderPath zipPath folderPath (root_entry d)
  end.

(** The same for [zipSource] of the older revision. *)
Definition source_file_plan (source path : string) (data : bytes) (io : file_io) : list step :=
  match open_err io with
  | Some e => [SFail (PathError OpOpen path e)]
  | None =>
      if String.length path <? String.length source then [SCrash]
      else
        SHeader (String.substring (String.length source)
                   (String.length path - String.length source) path) 438%N ::
        match read_err io with
        | Some e => [SFail (PathError OpRead path e)]
        | None => [SData data]
        end
  end.

Fixpoint source_plan (source path : string) (d : tree) {struct d} : list step :=
  match d with
  | TFile _ data io => source_file_plan source path data io
  | TDir rd names =>
      match rd with
      | Some e => [SFail (PathError OpReadDir path e)]
      | None => names_plan source path names
      end
  end
with names_plan (source path : string) (names : forest) {struct names} : list step :=
  match names with
  | FNil => []
  | FCons name d rest =>
      let filename := Filepath.Join [path; name] in
      match d with
      | TFile _ _ (FileIO (Some e) _ _) => [SFail (PathError OpLstat filename e)]
      | _ => source_plan source filename d
      end ++ names_plan source path rest
  end.

Definition zipSource_plan (dsk : gmap string tree) (source : string) : list step :=
  match dsk !! source with
  | None => [SFail (PathError OpLstat source ENOENT)]
  | Some d => source_plan source source d
  end.

(** A settings directory whose second file cannot be opened. *)
Definition unreadable_disk : gmap string tree :=
  {[ "/srv/User" :=
       TDir None
         (FCons "keybindings.json" (TFile 420%N [Byte.x5b; Byte.x5d] healthy)
         (FCons "settings.json" (TFile 384%N [Byte.x7b; Byte.x7d] (FileIO None (Some EACCES) None))
         (FCons "tasks.json" (TFile 420%N [Byte.x7b; Byte.x7d] healthy) FNil))) ]}.

(** A settings directory one of whose files vanished after it was listed. *)
Definition vanished_disk : gmap string tree :=
  {[ "/srv/User" :=
       TDir None
         (FCons "settings.json"
            (TFile 420%N [] (FileIO (Some ENOENT) (Some ENOENT) None)) FNil) ]}.

(** A settings directory whose second file vanished after it was listed,
    between two files that are still there. *)
Definition shrinking_root : tree :=
  TDir None
    (FCons "keybindings.json" (TFile 420%N [Byte.x5b; Byte.x5d] healthy)
    (FCons "settings.json"
       (TFile 420%N [Byte.x7b; Byte.x7d] (FileIO (Some ENOENT) (Some ENOENT) None))
    (FCons "tasks.json" (TFile 420%N [Byte.x7b; Byte.x7d] healthy) FNil))).

Definition shrinking_disk : gmap string tree := {[ "/srv/User" := shrinking_root ]}.

(** A server whose settings directory is that one. *)
Definition shrinking_server : server :=
  Server (Host "windows" {[ "APPDATA" := "/srv/AppData"; "USERPROFILE" := "/srv" ]})
         {[ "/srv/AppData/Code/User" := shrinking_root ]}.

(** A path element: not empty, no separator in it. *)
Definition good (e : string) : Prop := e ≠ "" ∧ Filepath.contains_sep e = false.

(** A name that a directory listing can hold: an element other than [.]
    and [..]. *)
Definition plain (e : string) : Prop :=
  e ≠ "" ∧ e ≠ "." ∧ e ≠ ".." ∧ Filepath.contains_sep e = false.

(** The path a walk hands to its callback for the entry reached from the
    root by the names [here]. *)
Definition walk_path (root : string) (here : list string) : string :=
  fold_left (λ p name, Filepath.Join [p; name]) here root.

(** The path relative to the root, as the callback computes it. *)
Definition rel_of (here : list string) : string :=
  match here with
  | [] => "."
  | _ => GoStrings.Join here "/"
  end.

(** The directories [os.MkdirAll] adds: every listed path that is absent. *)
Fixpoint add_dirs (perm : N) (ps : list (list string)) (m : gmap (list string) node)
  : gmap (list string) node :=
  match ps with
  | [] => m
  | p :: rest =>
      add_dirs perm rest (match m !! p with Some _ => m | None => <[p := NDir perm]> m end)
  end.

(** An archive entry together with the bytes it stores and the place in
    the file system where the decoder puts it. *)
Record landing := Landing {
  l_file : zfile;
  l_data : bytes;
  l_target : list string;
}.

Definition lands_ok (dest : string) (l : landing) : Prop :=
  Filepath.Join [dest; zname (l_file l)] = Filepath.render true (l_target l)
  ∧ GoStrings.HasPrefix (Filepath.render true (l_target l)) (Filepath.Clean dest +:+ "/") = true
  ∧ Zip.IsDir (l_file l) = false
  ∧ zbody_of (l_file l) = Stored (l_data l)
  ∧ l_target l ≠ []
  ∧ Forall plain (l_target l).

(** No target is a proper prefix of another and no two are equal. *)
Definition antichain (ts : list (list string)) : Prop :=
  NoDup ts ∧ ∀ t1 t2, t1 ∈ ts → t2 ∈ ts → t1 `prefix_of` t2 → t1 = t2.

Fixpoint names_of (ds : forest) : list string :=
  match ds with
  | FNil => []
  | FCons name _ rest => name :: names_of rest
  end.

(** A listing as the file system gives it: plain names, no name twice. *)
Fixpoint wf_tree (d : tree) : Prop :=
  match d with
  | TFile _ _ _ => True
  | TDir _ children => wf_forest children
  end
with wf_forest (ds : forest) : Prop :=
  match ds with
  | FNil => True
  | FCons name d rest =>
      plain name ∧ (name ∉ names_of rest) ∧ wf_tree d ∧ wf_forest rest
  end.

(** No read of the tree meets an I/O error. *)
Fixpoint readable (d : tree) : Prop :=
  match d with
  | TFile _ _ io => io = healthy
  | TDir rd children => rd = None ∧ readable_all children
  end
with readable_all (ds : forest) : Prop :=
  match ds with
  | FNil => True
  | FCons _ d rest => readable d ∧ readable_all rest
  end.

(** The files that the walk reaches when it starts in [d] at the names
    [here] and leaves out what the filter names, in the order of the walk. *)
Fixpoint files_of (here : list string) (d : tree) {struct d}
  : list (list string * N * bytes) :=
  if shouldSkip (rel_of here) then []
  else
    match d with
    | TFile perm data _ => [(here, perm, data)]
    | TDir _ children => files_in here children
    end
with files_in (here : list string) (ds : forest) {struct ds}
  : list (list string * N * bytes) :=
  match ds with
  | FNil => []
  | FCons name d rest => files_of (here ++ [name]) d ++ files_in here rest
  end.

(** The node that the names [ext] lead to. *)
Fixpoint tree_at (d : tree) (ext : list string) {struct d} : option tree :=
  match ext with
  | [] => Some d
  | name :: ext' =>
      match d with
      | TFile _ _ _ => None
      | TDir _ children => forest_at children name ext'
      end
  end
with forest_at (ds : forest) (name : string) (ext : list string) {struct ds} : option tree :=
  match ds with
  | FNil => None
  | FCons name' d rest =>
      if decide (name' = name) then tree_at d ext else forest_at rest name ext
  end.

(** A file of the tree that the filter lets through: neither the file nor a
    directory above it is excluded. *)
Definition retained_file (t : tree) (here : list string) (perm : N) (data : bytes) : Prop :=
  (∃ io, tree_at t here = Some (TFile perm data io))
  ∧ ∀ k, k ≤ length here → shouldSkip (rel_of (take k here)) = false.

(** The archive entry that the encoder writes for a file. *)
Definition entry_of (zipPath : string) (item : list string * N * bytes) : zfile :=
  ZFile (Filepath.ToSlash (Filepath.Join [zipPath; rel_of item.1.1])) item.1.2 false
        (Stored item.2).

Definition entry_steps (zipPath : string) (item : list string * N * bytes) : list step :=
  [SHeader (zname (entry_of zipPath item)) item.1.2; SData item.2].

(** The place that [dest/name] names lies strictly below the directory
    that [dest] names. *)
Definition strictly_inside (w : world) (dest name : string) : Prop :=
  ∃ rest, rest ≠ [] ∧ GoOS.resolve w (dest +:+ "/" +:+ name) = GoOS.resolve w dest ++ rest.

(** The destination root is empty: nothing exists below it, and the root
    and the directories above it are directories or do not exist yet. *)
Definition empty_destination (w : world) (dest : string) : Prop :=
  (∀ q, q `prefix_of` GoOS.resolve w dest → GoOS.is_file (fs w) q = false)
  ∧ (∀ q, GoOS.resolve w dest `prefix_of` q → q ≠ GoOS.resolve w dest → fs w !! q = None).

(** Encode the directory at [folderPath], close the archive, decode the
    stream into [dest]. *)
Definition roundtrip (dsk : gmap string tree) (folderPath zipPath dest : string) (w : world)
  : world * option error :=
  let archive := fst (addFolderToZip dsk folderPath zipPath Zip.NewWriter) in
  unzipDest (Zip.sent (Zip.Close archive)) dest w.

Definition landing_of (root : list string) (zipPath : string)
    (item : list string * N * bytes) : landing :=
  Landing (entry_of zipPath item) item.2 (root ++ Filepath.elems zipPath ++ item.1.1).

(** ** Vocabulary of the further properties *)

(** No read of what the filter lets through meets an I/O error; what lies
    at or below an excluded name may fail in any way. *)
Fixpoint readable_kept (here : list string) (d : tree) {struct d} : Prop :=
  if shouldSkip (rel_of here) then True
  else
    match d with
    | TFile _ _ io => io = healthy
    | TDir rd children => rd = None ∧ readable_kept_in here children
    end
with readable_kept_in (here : list string) (ds : forest) {struct ds} : Prop :=
  match ds with
  | FNil => True
  | FCons name d rest => readable_kept (here ++ [name]) d ∧ readable_kept_in here rest
  end.

(** A settings directory whose cache cannot be listed and holds a file
    that cannot be read. *)
Definition locked_cache_root : tree :=
  TDir None
    (FCons "Cache"
       (TDir (Some EACCES)
          (FCons "data_0" (TFile 384%N [] (FileIO (Some EACCES) (Some EACCES) (Some EIO))) FNil))
    (FCons "settings.json" (TFile 420%N (replicate 10 Byte.x7b) healthy) FNil)).

Definition locked_cache_disk : gmap string tree := {[ "/srv/User" := locked_cache_root ]}.

(** The interface is up, is neither a loopback nor a point-to-point link,
    and its name starts with none of the prefixes of virtual interfaces. *)
Definition lan_interface (i : Net.Interface) : Prop :=
  N.testbit (Net.Flags i) 0 = true
  ∧ N.testbit (Net.Flags i) 2 = false
  ∧ N.testbit (Net.Flags i) 3 = false
  ∧ ∀ p, p ∈ excludedPrefixes → ∀ rest, Net.Name i ≠ p +:+ rest.

(** [p4] is the IPv4 form of a network address of the interface. *)
Definition ipv4_of (i : Net.Interface) (p4 : Net.IP) : Prop :=
  ∃ addrs ip, Net.Addrs i = Ok addrs ∧ Net.IPNet ip ∈ addrs ∧ Net.To4 ip = Some p4.

Definition sample_interfaces : list Net.Interface :=
  [Net.MkInterface "lo" 37 (Ok [Net.IPNet [Byte.x7f; Byte.x00; Byte.x00; Byte.x01]]);
   Net.MkInterface "docker0" 19 (Ok [Net.IPNet [Byte.xac; Byte.x11; Byte.x00; Byte.x01]]);
   Net.MkInterface "tun0" 57 (Ok [Net.IPNet [Byte.x0a; Byte.x08; Byte.x00; Byte.x02]]);
   Net.MkInterface "wlan0" 18 (Ok [Net.IPNet [Byte.xc0; Byte.xa8; Byte.x01; Byte.x09]]);
   Net.MkInterface "eth0" 51
     (Ok [Net.OtherAddr;
          Net.IPNet [Byte.xfe; Byte.x80; Byte.x00; Byte.x00; Byte.x00; Byte.x00; Byte.x00;
                     Byte.x00; Byte.x00; Byte.x00; Byte.x00; Byte.x00; Byte.x00; Byte.x00;
                     Byte.x00; Byte.x01];
          Net.IPNet [Byte.xc0; Byte.xa8; Byte.x01; Byte.x07];
          Net.IPNet [Byte.x0a; Byte.x00; Byte.x00; Byte.x05]])].

(** [q] lies strictly below [root]. *)
Definition below (root q : list string) : Prop := ∃ rest, rest ≠ [] ∧ q = root ++ rest.

(** What a call may do to the file system outside the subtree of [root]:
    nothing that exists there is changed or removed, and the only thing
    that appears is a directory on the way down to the root. *)
Definition confined (root : list string) (m m' : gmap (list string) node) : Prop :=
  ∀ q, ¬ below root q →
    match m !! q with
    | Some x => m' !! q = Some x
    | None => m' !! q = None ∨ (q `prefix_of` root ∧ ∃ perm, m' !! q = Some (NDir perm))
    end.

(** The bytes that reading an entry delivers before it ends, and the error
    it ends with. *)
Definition body_bytes (b : zbody) : bytes :=
  match b with
  | Stored data => data
  | BadMethod => []
  | BadData partial => partial
  end.

Definition body_error (b : zbody) : option error :=
  match b with
  | Stored _ => None
  | BadMethod => Some ErrZipAlgorithm
  | BadData _ => Some ErrZipChecksum
  end.

(** Every file of the tree, in the order of the walk, with the names that
    lead to it. *)
Fixpoint all_files (here : list string) (d : tree) {struct d}
  : list (list string * N * bytes) :=
  match d with
  | TFile perm data _ => [(here, perm, data)]
  | TDir _ children => all_files_in here children
  end
with all_files_in (here : list string) (ds : forest) {struct ds}
  : list (list string * N * bytes) :=
  match ds with
  | FNil => []
  | FCons name d rest => all_files (here ++ [name]) d ++ all_files_in here rest
  end.

(** The archive entry that [zipSource] writes for a file: the name is the
    path with the source cut off its front, the header is the one of
    [Create]. *)
Definition source_entry (item : list string * N * bytes) : zfile :=
  ZFile (match item.1.1 with
         | [] => ""
         | here => "/" +:+ GoStrings.Join here "/"
         end) 438%N false (Stored item.2).

Definition source_steps (item : list string * N * bytes) : list step :=
  [SHeader (zname (source_entry item)) 438%N; SData item.2].



(** Where [move_tree] puts an entry of the map. *)
Definition moved (o n : list string) (kv : list string * node) : option (list string * node) :=
  let '(k, v) := kv in
  if decide (o `prefix_of` k) then Some (n ++ drop (length o) k, v)
  else if decide (n `prefix_of` k) then None
  else Some (k, v).

(** The path of the backup of [path] at the time [t]. *)
Definition backup_path (path : string) (t : gotime) : string :=
  path +:+ "_backup_" +:+ GoTime.Format t.

(** The directories between the home directory and the settings directory
    [User], by operating system. *)
Definition config_dirs (h : host) : list string :=
  if decide (goos h = "darwin") then ["Library"; "Application Support"; "Code"]
  else [".config"; "Code"].

(** The directory that holds the settings directory, resolved. *)
Definition settings_parent (h : host) : list string :=
  Filepath.clean_elems true (Filepath.elems (Getenv h "HOME")) ++ config_dirs h.

(** The two directories that the /sync handler sends. *)
Definition userDir (srv : server) : string :=
  Filepath.Join [Getenv (shost srv) "APPDATA"; "Code"; "User"].

Definition extDir (srv : server) : string :=
  Filepath.Join [Getenv (shost srv) "USERPROFILE"; ".vscode"; "extensions"].

(** The entries of the archive that the handler sends when both directories
    are readable. *)
Definition sync_entries (tu te : tree) : list zfile :=
  map (entry_of "User") (files_of [] tu) ++ map (entry_of "extensions") (files_of [] te).

(** What the calls of the decoder leave alone: the host, the working
    directory, the faults, the mask, the clock and what was printed. *)
Definition frame (w : world)
  : host * list string * list (sysop * list string) * N * gotime * list msg :=
  (whost w, cwd w, faults w, umask w, now w, stdout w).

(** The command line that the server tells the user to run on the client:
    ["> vscode-settings-sync client %s"]. *)
Definition announced_command (displayAddr : string) : list string :=
  ["vscode-settings-sync"; "client"; displayAddr].

(** A client whose settings directory exists and that refuses no call. *)
Definition settled_world : world :=
  World sample_host [] (fs locked_world) [] sample_umask sample_clock [].

(** An archive with an entry that points out of the root, between two that
    do not. *)
Definition hostile_archive : stream :=
  ZipStream [ZFile "settings.json" 420%N false (Stored new_settings);
             ZFile "../../../../../etc/passwd" 420%N false (Stored new_settings);
             ZFile "keybindings.json" 420%N false (Stored new_settings)].

(** An extensions directory with one extension. *)
Definition scenario_extensions : tree :=
  TDir None
    (FCons "ms-python.python"
       (TDir None (FCons "package.json" (TFile 420%N [Byte.x7b; Byte.x7d] healthy) FNil))
     FNil).

Definition sample_server : server :=
  Server (Host "linux" {[ "APPDATA" := "/srv/AppData"; "USERPROFILE" := "/srv" ]})
         {[ "/srv/AppData/Code/User" := scenario_root;
            "/srv/.vscode/extensions" := scenario_extensions ]}.

(** A settings directory that holds two files and no directory. *)
Definition flat_root : tree :=
  TDir None
    (FCons "keybindings.json" (TFile 384%N [Byte.x5b; Byte.x5d] healthy)
    (FCons "settings.json" (TFile 420%N [Byte.x7b; Byte.x7d] healthy) FNil)).

Definition flat_disk : gmap string tree := {[ "/srv/User" := flat_root ]}.

(** * Properties *)

Local Arguments String.append !_ _ / : simpl nomatch.
Local Arguments ascii_dec : simpl never.

Example clean_examples :
  map Filepath.Clean ["/a/../../b/./c//"; "a/../.."; ""; "/"; "../a/../../b"; "a/b/../.."]
  = ["/b/c"; ".."; "."; "/"; "../../b"; "."].
Proof. reflexivity. Qed.

Example join_examples :
  map Filepath.Join [["/home/u"; "../../evil"]; [""; "a"]; ["x"; ""]; ["/"; "a"]; [""; ""]]
  = ["/evil"; "a"; "x"; "/a"; ""].
Proof. reflexivity. Qed.

Example rel_examples :
  map (λ '(b, t), Filepath.Rel b t) [("/r", "/r/a/b"); ("/r", "/r"); (".", "a/b"); ("/a/b", "/a/c")]
  = [("a/b", None); (".", None); ("a/b", None); ("../c", None)].
Proof. reflexivity. Qed.

Example dir_examples :
  map Filepath.Dir ["/a/b/c"; "/a"; "a"; "a/b/"] = ["/a/b"; "/"; "."; "a/b"].
Proof. reflexivity. Qed.

(** ** Strings *)

Section StringFacts.
Import GoStrings.

Lemma string_app_assoc (a b c : string) : (a +:+ b) +:+ c = a +:+ (b +:+ c).
Proof. induction a as [|x a IH]; simpl; [done | by rewrite IH]. Qed.

Lemma string_app_nil_r (a : string) : a +:+ "" = a.
Proof. induction a as [|x a IH]; simpl; [done | by rewrite IH]. Qed.

Lemma string_length_app (a b : string) :
  String.length (a +:+ b) = String.length a + String.length b.
Proof. induction a as [|x a IH]; simpl; [done | by rewrite IH]. Qed.

Lemma prefix_app (a b : string) : String.prefix a (a +:+ b) = true.
Proof.
  induction a as [|x a IH]; simpl; [by destruct b |].
  destruct (ascii_dec x x); [done | congruence].
Qed.

Lemma prefix_inv (a s : string) :
  String.prefix a s = true → ∃ b, s = a +:+ b.
Proof.
  revert s. induction a as [|x a IH]; intros s H.
  - by exists s.
  - destruct s as [|y s]; simpl in H; [done |].
    destruct (ascii_dec x y) as [->|]; [| done].
    destruct (IH _ H) as [b ->]. by exists b.
Qed.

Lemma substring_app_tail (p s : string) :
  String.substring (String.length p) (String.length s) (p +:+ s) = s.
Proof.
  induction p as [|x p IH]; simpl; [| done].
  induction s as [|y s IH]; simpl; [done | by rewrite IH].
Qed.

Lemma substring_tail_inv (n : nat) (s : string) :
  n ≤ String.length s →
  ∃ p, s = p +:+ String.substring n (String.length s - n) s.
Proof.
  revert s. induction n as [|n IH]; intros s Hn.
  - exists "". simpl. rewrite Nat.sub_0_r.
    clear Hn. induction s as [|y s IHs]; simpl; [done | by rewrite <- IHs].
  - destruct s as [|y s]; simpl in *; [lia |].
    destruct (IH s ltac:(lia)) as [p Hp]. exists (String y p). simpl. by rewrite <- Hp.
Qed.

Lemma HasSuffix_app (p suffix : string) : HasSuffix (p +:+ suffix) suffix = true.
Proof.
  unfold HasSuffix. rewrite string_length_app.
  apply andb_true_intro; split; [apply Nat.leb_le; lia |].
  apply bool_decide_eq_true.
  replace (String.length p + String.length suffix - String.length suffix)
    with (String.length p) by lia.
  apply substring_app_tail.
Qed.

Lemma HasSuffix_inv (s suffix : string) :
  HasSuffix s suffix = true → ∃ p, s = p +:+ suffix.
Proof.
  unfold HasSuffix. intros [Hle Heq]%andb_prop.
  apply Nat.leb_le in Hle. apply bool_decide_eq_true in Heq.
  destruct (substring_tail_inv (String.length s - String.length suffix) s ltac:(lia))
    as [p Hp].
  replace (String.length s - (String.length s - String.length suffix))
    with (String.length suffix) in Hp by lia.
  rewrite Heq in Hp. by exists p.
Qed.

Lemma Split_nonempty (s : string) (c : ascii) : Split s c ≠ [].
Proof.
  destruct s as [|x s]; simpl; [done |].
  destruct (decide (x = c)); [done |]. by destruct (Split s c).
Qed.

Lemma Split_app_sep (a b : string) (c : ascii) :
  Split (a +:+ String c b) c = Split a c ++ Split b c.
Proof.
  induction a as [|x a IH]; simpl.
  - by destruct (decide (c = c)).
  - destruct (decide (x = c)); [by rewrite IH |].
    rewrite IH. pose proof (Split_nonempty a c). by destruct (Split a c).
Qed.

End StringFacts.

(** ** The entry filter *)

Section SplitFacts.
Import GoStrings Filepath.

Lemma Split_cons_inv (s x : string) (xs : list string) :
  Split s Separator = x :: xs →
  contains_sep x = false ∧
  ∃ rest, s = x +:+ rest ∧
    ((xs = [] ∧ rest = "") ∨ (∃ r, rest = "/" +:+ r ∧ Split r Separator = xs)).
Proof.
  revert x xs. induction s as [|c s IH]; intros x xs H; simpl in H.
  - inversion H; subst. split; [done |]. exists "". split; [done | by left].
  - destruct (decide (c = Separator)) as [->|Hc].
    + inversion H; subst. split; [done |]. exists (String Separator s).
      split; [done |]. right. by exists s.
    + destruct (Split s Separator) as [|x' xs'] eqn:Hs.
      { by apply Split_nonempty in Hs. }
      inversion H; subst. destruct (IH _ _ eq_refl) as [Hx [rest [-> Hrest]]].
      split.
      * simpl. by destruct (decide (c = Separator)).
      * exists rest. split; [done | exact Hrest].
Qed.

Lemma Split_nosep (s : string) : contains_sep s = false → Split s Separator = [s].
Proof.
  induction s as [|c s IH]; simpl; [done |].
  destruct (decide (c = Separator)); [done |]. intros H. by rewrite IH.
Qed.

Lemma is_component_behind (a part r : string) :
  is_component part r → is_component part (a +:+ "/" +:+ r).
Proof.
  intros [Hp (pre & post & -> & Hpre & Hpost)]. split; [done |].
  exists (a +:+ "/" +:+ pre), post. split; [| split; [| done]].
  - by rewrite !string_app_assoc.
  - right. destruct Hpre as [->|[pre' ->]].
    + exists a. by rewrite string_app_nil_r.
    + exists (a +:+ "/" +:+ pre'). by rewrite !string_app_assoc.
Qed.

Lemma elem_of_Split_component (part path : string) :
  part ∈ Split path Separator → is_component part path.
Proof.
  remember (Split path Separator) as l eqn:Hl. revert path Hl.
  induction l as [|x xs IH]; intros path Hl Hin; [by apply elem_of_nil in Hin |].
  symmetry in Hl. destruct (Split_cons_inv _ _ _ Hl) as [Hx [rest [-> Hrest]]].
  apply elem_of_cons in Hin as [->|Hin].
  - split; [done |]. exists "", rest. split; [done |]. split; [by left |].
    destruct Hrest as [[_ ->]|[r [-> _]]]; [by left | right; by exists r].
  - destruct Hrest as [[-> _]|[r [-> Hr]]]; [by apply elem_of_nil in Hin |].
    apply is_component_behind. apply (IH r); [done | done].
Qed.

Lemma component_elem_of_Split (part path : string) :
  is_component part path → part ∈ Split path Separator.
Proof.
  intros [Hp (pre & post & -> & Hpre & Hpost)].
  assert (part ∈ Split (part +:+ post) Separator) as Hin.
  { destruct Hpost as [->|[post' ->]].
    - rewrite string_app_nil_r, Split_nosep by done. apply list_elem_of_here.
    - change ("/" +:+ post') with (String Separator post').
      rewrite Split_app_sep, Split_nosep by done. apply list_elem_of_here. }
  destruct Hpre as [->|[pre' ->]]; [done |].
  rewrite string_app_assoc.
  change ("/" +:+ part +:+ post) with (String Separator (part +:+ post)).
  rewrite Split_app_sep. apply elem_of_app. by right.
Qed.

Lemma shouldSkip_true_iff (path : string) :
  shouldSkip path = true ↔
  (∃ part, is_component part path ∧ part ∈ skipDirs)
  ∨ (∃ p, path = p +:+ ".sock") ∨ (∃ p, path = p +:+ "-journal").
Proof.
  unfold shouldSkip. split.
  - destruct (existsb _ _) eqn:Hex.
    + intros _. left. apply existsb_exists in Hex as [part [Hin Hset]].
      exists part. split.
      * apply elem_of_Split_component. by apply list_elem_of_In.
      * by apply bool_decide_eq_true in Hset.
    + destruct (HasSuffix path ".sock") eqn:H1.
      { intros _. right. left. by apply HasSuffix_inv. }
      destruct (HasSuffix path "-journal") eqn:H2; [| done].
      intros _. right. right. by apply HasSuffix_inv.
  - intros [[part [Hc Hset]]|[[p ->]|[p ->]]].
    + assert (existsb (λ part, bool_decide (part ∈ skipDirs)) (Split path Separator) = true)
        as ->; [| done].
      apply existsb_exists. exists part. split.
      * apply list_elem_of_In. by apply component_elem_of_Split.
      * by apply bool_decide_eq_true.
    + rewrite HasSuffix_app. by destruct (existsb _ _).
    + rewrite HasSuffix_app, orb_true_r. by destruct (existsb _ _).
Qed.

End SplitFacts.

(** C6. The entry filter returns [true] exactly when some component of the
    path is a key of the exclusion map or the path ends in [.sock] or in
    [-journal]; every name of the specification's exclusion set (cache
    directories, logs, language packs) is such a key.  The filter is a
    function of the path string alone. *)
Theorem shouldSkip_exclusion_rules :
  (∀ name, name ∈ exclusion_set → name ∈ skipDirs) ∧
  (∀ path,
      shouldSkip path = true ↔
      (∃ part, is_component part path ∧ part ∈ skipDirs)
      ∨ (∃ p, path = p +:+ ".sock") ∨ (∃ p, path = p +:+ "-journal")).
Proof.
  split; [| exact shouldSkip_true_iff].
  intros name Hin. unfold exclusion_set in Hin. unfold skipDirs.
  repeat (apply elem_of_cons in Hin as [->|Hin]; [set_solver |]).
  by apply elem_of_nil in Hin.
Qed.




(** ** The decoder creates its root before it reads the archive *)

Section MkdirFacts.
Import GoOS.

Lemma mkdir_chain_keeps (path : string) (perm : N) (ps : list (list string)) (w : world)
    (q : list string) (x : node) :
  fs w !! q = Some x → fs (fst (mkdir_chain path perm ps w)) !! q = Some x.
Proof.
  revert w. induction ps as [|p ps IH]; intros w Hq; simpl; [done |].
  destruct (fs w !! p) as [[m d|m]|] eqn:Hp; simpl; [done | by apply IH |].
  destruct (faulty w OpMkdir p); simpl; [done |].
  apply IH. simpl. rewrite lookup_insert_ne; [done |]. congruence.
Qed.

Lemma mkdir_chain_makes (path : string) (perm : N) (ps : list (list string)) (w : world)
    (p : list string) :
  snd (mkdir_chain path perm ps w) = None → p ∈ ps →
  ∃ m, fs (fst (mkdir_chain path perm ps w)) !! p = Some (NDir m).
Proof.
  revert w. induction ps as [|p0 ps IH]; intros w Hok Hin; [by apply elem_of_nil in Hin |].
  simpl in *. apply elem_of_cons in Hin as [->|Hin].
  - destruct (fs w !! p0) as [[m d|m]|] eqn:Hp; simpl in *; [done | |].
    + exists m. by apply mkdir_chain_keeps.
    + destruct (faulty w OpMkdir p0); simpl in *; [done |].
      eexists. apply mkdir_chain_keeps. simpl. apply lookup_insert_eq.
  - destruct (fs w !! p0) as [[m d|m]|] eqn:Hp; simpl in *; [done | by apply IH |].
    destruct (faulty w OpMkdir p0); simpl in *; [done | by apply IH].
Qed.

Lemma prefixes_last (p : list string) : p ≠ [] → p ∈ prefixes p.
Proof.
  intros Hp. unfold prefixes. apply list_elem_of_In, in_map_iff.
  exists (length p). split; [apply firstn_all |].
  apply in_seq. destruct p; simpl in *; [done | lia].
Qed.

Lemma MkdirAll_makes (path : string) (perm : N) (w : world) :
  snd (MkdirAll path perm w) = None →
  ∃ m, node_at (fs (fst (MkdirAll path perm w))) (resolve w path) = Some (NDir m).
Proof.
  unfold MkdirAll. destruct (decide (path = "")); [done |]. intros Hok.
  destruct (resolve w path) as [|a p] eqn:Hr; [by eexists |].
  unfold node_at. apply mkdir_chain_makes; [done |]. by apply prefixes_last.
Qed.

End MkdirFacts.

(** C10. [unzipDest] creates the destination root, with its missing
    parents, before it looks at the stream, and drops the error of that
    call.  On a stream that is no archive it returns the parse error from
    the world that [os.MkdirAll] left; when the creation worked the root is a
    directory there, so the file system is not the one before the call. *)
Theorem unzipDest_garbage_leaves_root :
  (∀ dest w,
      unzipDest Garbage dest w = (fst (GoOS.MkdirAll dest perm0755 w), Some ErrZipFormat)
      ∧ (snd (GoOS.MkdirAll dest perm0755 w) = None →
         ∃ m, GoOS.node_at (fs (fst (unzipDest Garbage dest w))) (GoOS.resolve w dest)
              = Some (NDir m)))
  ∧ (fs empty_world !! ["home"; "u"; "cfg"] = None
     ∧ snd (unzipDest Garbage "/home/u/cfg" empty_world) = Some ErrZipFormat
     ∧ fs (fst (unzipDest Garbage "/home/u/cfg" empty_world)) !! ["home"; "u"; "cfg"]
       = Some (NDir perm0755)).
Proof.
  split.
  - intros dest w. split; [reflexivity |]. intros Hok. by apply MkdirAll_makes.
  - split; [reflexivity |]. split; reflexivity.
Qed.

(** ** The backup manager *)

Section BackupFacts.
Import GoOS.

(** A rename that fails changes nothing. *)
Lemma sys_rename_error_same (oldpath newpath : string) (w w' : world) (e : error) :
  sys_rename oldpath newpath w = (w', Some e) → w' = w.
Proof.
  unfold sys_rename. intros H.
  repeat (case_match; try (inversion H; subst; reflexivity)); simplify_eq.
Qed.

Lemma Rename_error_same (oldpath newpath : string) (w w' : world) (e : error) :
  Rename oldpath newpath w = (w', Some e) → w' = w.
Proof.
  unfold Rename. intros H.
  repeat case_match; simplify_eq; try done; by eapply sys_rename_error_same.
Qed.

Lemma backupDir_error_fs (path : string) (w w' : world) (e : error) :
  backupDir path w = (w', Some e) → fs w' = fs w.
Proof.
  unfold backupDir. destruct (IsNotExist (Stat w path)); [done |].
  intros H%Rename_error_same. by subst.
Qed.

Lemma IsNotExist_Stat (w : world) (path : string) :
  IsNotExist (Stat w path) = true ↔ absent w path.
Proof.
  unfold Stat, absent. destruct (decide (path = "")) as [->|Hne].
  { split; [by left | done]. }
  destruct (faulty w OpStat (resolve w path)); simpl.
  { split; [done | intros [?|[? _]]; done]. }
  destruct (under_file (fs w) (resolve w path)); simpl.
  { split; [done | intros [?|[_ [? _]]]; done]. }
  destruct (node_at (fs w) (resolve w path)); simpl.
  - split; [done | intros [?|[_ [_ ?]]]; done].
  - split; [by right | done].
Qed.

End BackupFacts.

Section FormatFacts.
Import GoTime.


Lemma below_in_range (n : N) (k : nat) :
  (n < N.of_nat k)%N → In n (map N.of_nat (seq 0 k)).
Proof.
  intros Hn. apply in_map_iff. exists (N.to_nat n).
  split; [apply N2Nat.id |]. apply in_seq. lia.
Qed.



End FormatFacts.

Example format_example : GoTime.Format sample_clock = "20240309-070501".
Proof. reflexivity. Qed.

(** ** The client sequence *)

(** In [main.go] as it stands the decoder is reached only after a backup
    that succeeded: when [backupDir] fails the run ends with the two
    messages of the cancelled sync, whatever the decoder would do, and the
    file system is the one the run started with. *)
Lemma runClient_backup_failure_aborts
    (unzip : stream → string → world → world * option error)
    (get : string → http_reply) (serverIP port vscodePath : string)
    (body : stream) (w w1 : world) (e : error) :
  let url := "http://" +:+ serverIP +:+ ":" +:+ port +:+ "/sync" in
  getVSCodePath (whost w) = Ok vscodePath →
  get url = Reply StatusOK body →
  backupDir vscodePath (print (MsgConnecting url) w) = (w1, Some e) →
  runClient_with unzip get serverIP port w
    = print MsgSyncCancelled (print (MsgBackupError e) w1)
  ∧ fs (runClient_with unzip get serverIP port w) = fs w.
Proof.
  intros url Hpath Hget Hbackup. unfold runClient_with.
  rewrite Hpath. fold url. rewrite Hget. simpl. rewrite Hbackup.
  split; [done |]. simpl. by apply backupDir_error_fs in Hbackup.
Qed.

(** C1 on the older revision: the backup fails, the run reports it and
    unpacks all the same, and the old [settings.json] is overwritten with no
    copy of it kept.  On the same input the current [runClient] leaves the
    file as it was. *)
Theorem old_runClient_unpacks_after_failed_backup :
  let w := Rev1.runClient (answering new_archive) "10.0.0.2" "8080" locked_world in
  snd (backupDir "/home/u/.config/Code/User" locked_world)
    = Some (PathError OpRename "/home/u/.config/Code/User" EACCES)
  ∧ stdout w
    = [MsgConnecting "http://10.0.0.2:8080/sync";
       MsgBackupTo "/home/u/.config/Code/User_backup_20240309-070501";
       MsgBackupWarning (PathError OpRename "/home/u/.config/Code/User" EACCES);
       MsgUnpacking; MsgSyncDone]
  ∧ fs locked_world !! (config_dir ++ ["settings.json"]) = Some (NFile 420%N old_settings)
  ∧ fs w !! (config_dir ++ ["settings.json"]) = Some (NFile 420%N new_settings)
  ∧ fs (runClient (answering new_archive) "10.0.0.2" "8080" locked_world)
      !! (config_dir ++ ["settings.json"]) = Some (NFile 420%N old_settings).
Proof. vm_compute. repeat split. Qed.

(** ** The /sync handler *)

(** The handler of [main.go] as it stands never answers with an error
    status: whatever the two encoder calls return, it sends 200 and the
    closed archive, unless an encoder call panics. *)
Lemma syncHandler_always_200 (srv : server) :
  syncHandler srv "GET" = Aborted
  ∨ ∃ hdr files,
      syncHandler srv "GET" = Responded (Response StatusOK hdr (Archive (ZipStream files))).
Proof.
  unfold syncHandler. simpl.
  destruct (addFolderToZip _ _ "User" _) as [a1 r1].
  destruct (addFolderToZip _ _ "extensions" a1) as [a2 r2].
  destruct r1; try (by left); destruct r2; try (by left); right; by eexists _, _.
Qed.

(** C8 on [main.go] as it stands: the first encoder call fails at once (the
    directory is missing, nothing was written), yet the reply is a 200 with
    an empty archive.  The older handler answers 500 with the error. *)
Theorem syncHandler_hides_encoding_failure :
  addFolderToZip (disk bare_server) "/srv/AppData/Code/User" "User" Zip.NewWriter
    = (Zip.NewWriter, WErr (PathError OpLstat "/srv/AppData/Code/User" ENOENT))
  ∧ syncHandler bare_server "GET"
    = Responded
        (Response StatusOK
           (zip_headers ++ [("Cache-Control", "no-cache, no-store, must-revalidate")])
           (Archive (ZipStream [])))
  ∧ Rev1.syncHandler bare_server "/srv/AppData/Code/User" "GET"
    = Responded
        (http_Error (ErrorText (PathError OpLstat "/srv/AppData/Code/User" ENOENT))
           StatusInternalServerError).
Proof. vm_compute. repeat split. Qed.

(** ** The encoders as a sequence of I/O steps *)

Section PlanFacts.

Lemma run_app (xs ys : list step) (a : Zip.Writer) :
  run (xs ++ ys) a
  = match run xs a with
    | (a', WNil) => run ys a'
    | r => r
    end.
Proof.
  revert a. induction xs as [|x xs IH]; intros a; simpl; [done |].
  destruct (run_step x a) as [a' []]; simpl; auto.
Qed.

Lemma run_step_no_skip (st : step) (a : Zip.Writer) : snd (run_step st a) ≠ WSkipDir.
Proof. destruct st; simpl; try done. by destruct (Zip.CreateHeader a name perm). Qed.

Lemma run_no_skip (steps : list step) (a : Zip.Writer) : snd (run steps a) ≠ WSkipDir.
Proof.
  revert a. induction steps as [|x xs IH]; intros a; simpl; [done |].
  pose proof (run_step_no_skip x a) as Hx.
  destruct (run_step x a) as [a' []]; simpl in *; auto.
Qed.

Lemma run_writes (pre : list step) (a : Zip.Writer) :
  Zip.zw_closed a = false → Forall is_write pre →
  snd (run pre a) = WNil ∧ Zip.zw_closed (fst (run pre a)) = false.
Proof.
  revert a. induction pre as [|x xs IH]; intros a Ha Hpre; simpl; [done |].
  inversion Hpre as [|? ? Hx Hxs]; subst. destruct x; simpl in *; try done.
  - unfold Zip.CreateHeader. rewrite Ha. by apply IH.
  - apply IH; [| done]. unfold Zip.Write.
    by destruct (reverse (Zip.zw_files a)).
Qed.

(** The first failing step ends the run with its error, after the
    writes that come before it and nothing else. *)
Lemma run_first_failure (pre post : list step) (e : error) (a : Zip.Writer) :
  Zip.zw_closed a = false → Forall is_write pre →
  run (pre ++ SFail e :: post) a = (fst (run pre a), WErr e).
Proof.
  intros Ha Hpre. rewrite run_app. destruct (run_writes pre a Ha Hpre) as [Hr _].
  destruct (run pre a) as [a' r]; simpl in *. by subst.
Qed.

Lemma run_first_crash (pre post : list step) (a : Zip.Writer) :
  Zip.zw_closed a = false → Forall is_write pre →
  run (pre ++ SCrash :: post) a = (fst (run pre a), WPanic).
Proof.
  intros Ha Hpre. rewrite run_app. destruct (run_writes pre a Ha Hpre) as [Hr _].
  destruct (run pre a) as [a' r]; simpl in *. by subst.
Qed.

(** A run that returns [nil] took every step, and every step was a write. *)
Lemma run_nil_all_writes (steps : list step) (a : Zip.Writer) :
  snd (run steps a) = WNil → Forall is_write steps.
Proof.
  revert a. induction steps as [|x xs IH]; intros a H; [constructor |].
  simpl in H. destruct x; simpl in H; try done.
  - destruct (Zip.CreateHeader a name perm); [| done]. constructor; [done | eauto].
  - constructor; [done | eauto].
Qed.

Lemma walkDir_run (folderPath zipPath : string) :
  (∀ d path a,
      Walk.walkDir (addFolderToZip_fn folderPath zipPath) path d a
      = run (plan folderPath zipPath path d) a)
  ∧ (∀ ds path a,
      Walk.walkDirs (addFolderToZip_fn folderPath zipPath) path ds a
      = run (plans folderPath zipPath path ds) a).
Proof.
  apply tree_forest_mutind.
  - intros perm data io path a. simpl. unfold addFolderToZip_fn.
    destruct (shouldSkip _); [done |]. unfold file_plan.
    destruct (lstat_err io); [done |]. simpl.
    destruct (Zip.CreateHeader a _ perm) as [a1|e]; [| done].
    destruct (open_err io); [done |]. by destruct (read_err io).
  - intros rd children IH path a. simpl. unfold addFolderToZip_fn at 1.
    destruct (shouldSkip _) eqn:Hskip; [done |].
    destruct rd as [e|]; [done | apply IH].
  - done.
  - intros name d IHd rest IHrest path a. simpl. rewrite run_app, IHd.
    pose proof (run_no_skip (plan folderPath zipPath (Filepath.Join [path; name]) d) a).
    destruct (run _ a) as [a' []]; simpl in *; auto. done.
Qed.

Lemma addFolderToZip_run (dsk : gmap string tree) (folderPath zipPath : string)
    (a : Zip.Writer) :
  addFolderToZip dsk folderPath zipPath a = run (encoder_plan dsk folderPath zipPath) a.
Proof.
  unfold addFolderToZip, Walk.WalkDir, encoder_plan.
  destruct (dsk !! folderPath) as [d|]; [| done].
  rewrite (proj1 (walkDir_run folderPath zipPath)).
  pose proof (run_no_skip (plan folderPath zipPath folderPath (root_entry d)) a).
  by destruct (run _ a) as [a' []].
Qed.

Lemma walkNames_cons {S : Type}
    (fn : string → option tree → option error → S → S * walk_result)
    (path name : string) (d : tree) (rest : forest) (s : S) :
  Walk.walkNames fn path (FCons name d rest) s
  = let filename := Filepath.Join [path; name] in
    match match d with TFile _ _ io => lstat_err io | TDir _ _ => None end with
    | Some e =>
        match fn filename None (Some (PathError OpLstat filename e)) s with
        | (s', WNil) | (s', WSkipDir) => Walk.walkNames fn path rest s'
        | r => r
        end
    | None =>
        match Walk.walk fn filename d s with
        | (s', WNil) => Walk.walkNames fn path rest s'
        | (s', WSkipDir) =>
            if tree_IsDir d then Walk.walkNames fn path rest s' else (s', WSkipDir)
        | r => r
        end
    end.
Proof. by destruct d. Qed.

Lemma walk_run (source : string) :
  (∀ d path a,
      Walk.walk (Rev1.zipSource_fn source) path d a = run (source_plan source path d) a)
  ∧ (∀ ds path a,
      Walk.walkNames (Rev1.zipSource_fn source) path ds a
      = run (names_plan source path ds) a).
Proof.
  apply tree_forest_mutind.
  - intros perm data io path a. simpl. unfold source_file_plan.
    destruct (open_err io); [done |].
    destruct (String.length path <? String.length source); [done |]. simpl.
    unfold Zip.Create. destruct (Zip.CreateHeader a _ _) as [a1|e]; [| done].
    by destruct (read_err io).
  - intros rd children IH path a. simpl. destruct rd as [e|]; [done | apply IH].
  - done.
  - intros name d IHd rest IHrest path a. rewrite walkNames_cons. cbv zeta.
    assert (snd (run (source_plan source (Filepath.Join [path; name]) d) a) ≠ WSkipDir)
      as Hskip by apply run_no_skip.
    rewrite IHd.
    destruct d as [perm data [[e|] oe re]|rd children];
      cbn [names_plan lstat_err tree_IsDir]; rewrite run_app; [done | |];
      destruct (run _ a) as [a' []]; simpl in *; auto; done.
Qed.

Lemma zipSource_run (dsk : gmap string tree) (source : string) :
  Walk.WalkTree (Rev1.zipSource_fn source) dsk source Zip.NewWriter
  = run (zipSource_plan dsk source) Zip.NewWriter.
Proof.
  unfold Walk.WalkTree, zipSource_plan.
  destruct (dsk !! source) as [d|]; [| done].
  rewrite (proj1 (walk_run source)).
  pose proof (run_no_skip (source_plan source source d) Zip.NewWriter).
  by destruct (run _ _) as [a' []].
Qed.

End PlanFacts.

(** Errors that the callbacks do check.  Both encoders stop at the first
    step of the walk that returns an error, and return it: when the steps of
    the walk are writes [pre], then a failing step with error [e] (a
    directory that cannot be listed, a missing root, a failed [os.Open] or
    read, and in [zipSource] a failed [lstat]), the encoder returns [e] with
    the archive as [pre] left it, and takes no step after it.  An encoder
    that returns [nil] has taken every step of the walk and none of them
    failed, so no failed file was passed over.  A failed [d.Info()] in
    [addFolderToZip] is not such a step: its error is dropped and the walk
    ends in a panic, which the next theorem shows on a directory that lost
    a file. *)
Theorem encoders_abort_on_first_error
    (dsk : gmap string tree) (folderPath zipPath source : string)
    (pre post : list step) (e : error) (a : Zip.Writer) :
  Zip.zw_closed a = false →
  Forall is_write pre →
  (encoder_plan dsk folderPath zipPath = pre ++ SFail e :: post →
     addFolderToZip dsk folderPath zipPath a = (fst (run pre a), WErr e))
  ∧ (zipSource_plan dsk source = pre ++ SFail e :: post →
     Rev1.zipSource dsk source = Returns (Err e))
  ∧ (snd (addFolderToZip dsk folderPath zipPath a) = WNil →
     Forall is_write (encoder_plan dsk folderPath zipPath))
  ∧ (∀ s, Rev1.zipSource dsk source = Returns (Ok s) →
     Forall is_write (zipSource_plan dsk source)).
Proof.
  intros Ha Hpre. split_and!.
  - intros Hplan. rewrite addFolderToZip_run, Hplan. by apply run_first_failure.
  - intros Hplan. unfold Rev1.zipSource. rewrite zipSource_run, Hplan.
    by rewrite run_first_failure.
  - rewrite addFolderToZip_run. apply run_nil_all_writes.
  - intros s. unfold Rev1.zipSource. rewrite zipSource_run.
    pose proof (run_no_skip (zipSource_plan dsk source) Zip.NewWriter) as Hskip.
    destruct (run _ _) as [a' r] eqn:Hrun. intros Hs.
    apply (run_nil_all_writes _ Zip.NewWriter). rewrite Hrun.
    destruct r; simpl in *; done.
Qed.

Lemma encoders_abort_on_first_error_witness :
  addFolderToZip unreadable_disk "/srv/User" "User" Zip.NewWriter
  = (Zip.MkWriter
       [ZFile "User/keybindings.json" 420%N false (Stored [Byte.x5b; Byte.x5d]);
        ZFile "User/settings.json" 384%N false (Stored [])] false,
     WErr (PathError OpOpen "/srv/User/settings.json" EACCES))
  ∧ Rev1.zipSource unreadable_disk "/srv/User"
    = Returns (Err (PathError OpOpen "/srv/User/settings.json" EACCES)).
Proof.
  pose proof (encoders_abort_on_first_error unreadable_disk "/srv/User" "User" "/srv/User") as H.
  split.
  - refine (proj1 (H [SHeader "User/keybindings.json" 420%N; SData [Byte.x5b; Byte.x5d];
                      SHeader "User/settings.json" 384%N]
                     [SHeader "User/tasks.json" 420%N; SData [Byte.x7b; Byte.x7d]]
                     _ Zip.NewWriter eq_refl _) _).
    + repeat constructor.
    + reflexivity.
  - refine (proj1 (proj2 (H [SHeader "/keybindings.json" 438%N; SData [Byte.x5b; Byte.x5d]]
                     [SHeader "/tasks.json" 438%N; SData [Byte.x7b; Byte.x7d]]
                     _ Zip.NewWriter eq_refl _)) _).
    + repeat constructor.
    + reflexivity.
Defined.

(** C5 on [main.go] as it stands.  A file that was removed after its
    directory was listed is one of the unreadable entries: [d.Info()] fails
    for it.  [addFolderToZip] drops that error (the defect of C9), so the walk
    does not end with it: the call of [zip.FileInfoHeader] on the [nil] info
    panics, no error is returned to the caller, and the handler is aborted
    with the files before it written and the files after it missing.
    [zipSource] of the older revision returns the error of the failed
    [lstat] on the same directory. *)
Theorem addFolderToZip_loses_error_of_vanished_file :
  addFolderToZip shrinking_disk "/srv/User" "User" Zip.NewWriter
  = (Zip.MkWriter
       [ZFile "User/keybindings.json" 420%N false (Stored [Byte.x5b; Byte.x5d])] false,
     WPanic)
  ∧ (∀ e, snd (addFolderToZip shrinking_disk "/srv/User" "User" Zip.NewWriter) ≠ WErr e)
  ∧ syncHandler shrinking_server "GET" = Aborted
  ∧ Rev1.zipSource shrinking_disk "/srv/User"
    = Returns (Err (PathError OpLstat "/srv/User/settings.json" ENOENT)).
Proof.
  split_and!.
  - vm_compute. reflexivity.
  - intros e. vm_compute. discriminate.
  - vm_compute. reflexivity.
  - vm_compute. reflexivity.
Qed.

(** C9. For a file entry that is not filtered and whose [d.Info()] fails,
    the callback of [addFolderToZip] does not return that error, nor any
    error: the [nil] info reaches [zip.FileInfoHeader], the call panics, and
    nothing is written; a walk whose first step that is not a write is such
    an entry ends in that panic.  The older [zipSource] returns the error of
    the same failed [lstat]. *)
Theorem addFolderToZip_drops_info_error
    (folderPath zipPath path : string) (perm : N) (data : bytes) (io : file_io)
    (e : errno) (archive : Zip.Writer) :
  lstat_err io = Some e →
  shouldSkip (fst (Filepath.Rel folderPath path)) = false →
  addFolderToZip_fn folderPath zipPath path (Some (TFile perm data io)) None archive
    = (archive, WPanic)
  ∧ plan folderPath zipPath path (TFile perm data io) = [SCrash]
  ∧ (∀ dsk pre post a,
        Zip.zw_closed a = false → Forall is_write pre →
        encoder_plan dsk folderPath zipPath = pre ++ SCrash :: post →
        addFolderToZip dsk folderPath zipPath a = (fst (run pre a), WPanic))
  ∧ ∀ rest name,
      names_plan folderPath path (FCons name (TFile perm data io) rest)
      = SFail (PathError OpLstat (Filepath.Join [path; name]) e)
        :: names_plan folderPath path rest.
Proof.
  intros Hio Hskip. split_and!.
  - unfold addFolderToZip_fn. by rewrite Hskip, Hio.
  - simpl. unfold file_plan. by rewrite Hskip, Hio.
  - intros dsk pre post a Ha Hpre Hplan. rewrite addFolderToZip_run, Hplan.
    by apply run_first_crash.
  - intros rest name. destruct io as [l o r]. simpl in *. by subst.
Qed.

Lemma addFolderToZip_drops_info_error_witness :
  addFolderToZip_fn "/srv/User" "User" "/srv/User/settings.json"
    (Some (TFile 420%N [] (FileIO (Some ENOENT) (Some ENOENT) None))) None Zip.NewWriter
  = (Zip.NewWriter, WPanic).
Proof.
  apply (addFolderToZip_drops_info_error "/srv/User" "User" "/srv/User/settings.json"
           420%N [] (FileIO (Some ENOENT) (Some ENOENT) None) ENOENT Zip.NewWriter);
    reflexivity.
Defined.

Example vanished_file_panics :
  addFolderToZip vanished_disk "/srv/User" "User" Zip.NewWriter = (Zip.NewWriter, WPanic)
  ∧ syncHandler (Server (Host "windows" {[ "APPDATA" := "/srv" ]}) {[ "/srv/Code/User" :=
       TDir None (FCons "settings.json"
                    (TFile 420%N [] (FileIO (Some ENOENT) (Some ENOENT) None)) FNil) ]}) "GET"
    = Aborted
  ∧ Rev1.zipSource vanished_disk "/srv/User"
    = Returns (Err (PathError OpLstat "/srv/User/settings.json" ENOENT)).
Proof. vm_compute. repeat split. Qed.

(** ** Paths as lists of elements *)

Section PathFacts.
Import GoStrings Filepath.

Lemma plain_good (e : string) : plain e → good e.
Proof. intros (? & _ & _ & ?). by split. Qed.

Lemma Forall_plain_good (es : list string) : Forall plain es → Forall good es.
Proof. intros H. eapply Forall_impl; [exact H | apply plain_good]. Qed.

Lemma Split_sepfree (s : string) :
  Forall (λ e, contains_sep e = false) (Split s Separator).
Proof.
  remember (Split s Separator) as l eqn:Hl. revert s Hl.
  induction l as [|x xs IH]; intros s Hl; [constructor |].
  symmetry in Hl. destruct (Split_cons_inv _ _ _ Hl) as [Hx [rest [-> Hrest]]].
  constructor; [done |].
  destruct Hrest as [[-> _]|[r [_ Hr]]]; [constructor | by apply (IH r)].
Qed.

Lemma elems_good (s : string) : Forall good (elems s).
Proof.
  unfold elems. apply Forall_forall. intros e [Hne Hin]%list_elem_of_filter.
  split; [done |]. by apply (proj1 (Forall_forall _ _) (Split_sepfree s)).
Qed.

Lemma Join_cons2 (e e' : string) (rest : list string) :
  GoStrings.Join (e :: e' :: rest) "/" = e +:+ String Separator (GoStrings.Join (e' :: rest) "/").
Proof. reflexivity. Qed.

Lemma Split_Join (es : list string) :
  es ≠ [] → Forall (λ e, contains_sep e = false) es →
  Split (GoStrings.Join es "/") Separator = es.
Proof.
  induction es as [|e [|e' rest] IH]; intros Hne Hall; [done | |].
  - inversion Hall; subst. by apply Split_nosep.
  - inversion Hall; subst. rewrite Join_cons2, Split_app_sep, Split_nosep by done.
    simpl. f_equal. by apply IH.
Qed.

Lemma filter_good (es : list string) :
  Forall good es → filter (λ e : string, e ≠ "") es = es.
Proof.
  induction 1 as [|e es [He _] _ IH]; [done |].
  rewrite filter_cons_True by done. by rewrite IH.
Qed.

Lemma good_sepfree (es : list string) :
  Forall good es → Forall (λ e, contains_sep e = false) es.
Proof. intros H. eapply Forall_impl; [exact H | by intros e [_ ?]]. Qed.

Lemma elems_Join (es : list string) : Forall good es → elems (GoStrings.Join es "/") = es.
Proof.
  intros Hall. destruct es as [|e es]; [done |].
  unfold elems. rewrite Split_Join; [by apply filter_good | done | by apply good_sepfree].
Qed.

Lemma elems_app_sep (a b : string) : elems (a +:+ "/" +:+ b) = elems a ++ elems b.
Proof.
  unfold elems. change ("/" +:+ b) with (String Separator b).
  by rewrite Split_app_sep, filter_app.
Qed.

Lemma elems_render_rooted (es : list string) : Forall good es → elems (render true es) = es.
Proof.
  intros Hall. unfold render.
  change ("/" +:+ GoStrings.Join es "/") with ("" +:+ "/" +:+ GoStrings.Join es "/").
  rewrite elems_app_sep, elems_Join by done. done.
Qed.

Lemma elems_render_unrooted (es : list string) :
  es ≠ [] → Forall good es → elems (render false es) = es.
Proof. intros Hne Hall. destruct es; [done |]. by apply elems_Join. Qed.

Lemma clean_step_plain (r : bool) (stack : list string) (e : string) :
  plain e → clean_step r stack e = e :: stack.
Proof.
  intros (_ & H1 & H2 & _). unfold clean_step.
  destruct (decide (e = ".")); [done |]. by destruct (decide (e = "..")).
Qed.

Lemma fold_clean_plain (r : bool) (ys stack : list string) :
  Forall plain ys → fold_left (clean_step r) ys stack = rev ys ++ stack.
Proof.
  revert stack. induction ys as [|y ys IH]; intros stack Hall; [done |].
  inversion Hall; subst. simpl. rewrite clean_step_plain by done.
  rewrite IH by done. by rewrite <- app_assoc.
Qed.

Lemma clean_elems_app_plain (r : bool) (xs ys : list string) :
  Forall plain ys → clean_elems r (xs ++ ys) = clean_elems r xs ++ ys.
Proof.
  intros Hall. unfold clean_elems.
  rewrite fold_left_app, fold_clean_plain by done.
  by rewrite rev_app_distr, rev_involutive.
Qed.

Lemma clean_elems_plain (r : bool) (ys : list string) :
  Forall plain ys → clean_elems r ys = ys.
Proof. intros Hall. by rewrite <- (app_nil_l ys), clean_elems_app_plain. Qed.

Lemma fold_clean_rooted_plain (es stack : list string) :
  Forall good es → Forall plain stack →
  Forall plain (fold_left (clean_step true) es stack).
Proof.
  revert stack. induction es as [|e es IH]; intros stack Hes Hst; [done |].
  inversion Hes as [|? ? [He1 He2] Hes']; subst. simpl. apply IH; [done |].
  unfold clean_step. destruct (decide (e = ".")); [done |].
  destruct (decide (e = "..")).
  - destruct stack as [|top below]; [constructor |].
    inversion Hst as [|? ? (_ & _ & Htop & _) Hbelow]; subst.
    by destruct (decide (top = "..")).
  - constructor; [by repeat split | done].
Qed.

(** On a rooted path [Clean] leaves plain names only: no [..] survives. *)
Lemma clean_elems_rooted_plain (es : list string) :
  Forall good es → Forall plain (clean_elems true es).
Proof.
  intros Hes. unfold clean_elems. apply Forall_rev.
  apply fold_clean_rooted_plain; [done | constructor].
Qed.

Lemma IsAbs_app (a b : string) : a ≠ "" → IsAbs (a +:+ b) = IsAbs a.
Proof.
  destruct a as [|c a]; [done |]. intros _. unfold IsAbs, HasPrefix. simpl.
  destruct (ascii_dec "/" c); [| done].
  by destruct (a +:+ b), a.
Qed.

Lemma IsAbs_render_rooted (es : list string) : IsAbs (render true es) = true.
Proof.
  unfold IsAbs, HasPrefix, render.
  change ("/" +:+ GoStrings.Join es "/") with (String "/" (GoStrings.Join es "/")).
  by destruct (GoStrings.Join es "/").
Qed.

Lemma good_not_abs (e : string) : good e → IsAbs e = false.
Proof.
  intros [Hne Hsep]. destruct e as [|c e]; [done |]. unfold IsAbs, HasPrefix. simpl in *.
  destruct (decide (c = Separator)) as [->|Hc]; [done |].
  destruct (ascii_dec "/" c) as [<-|]; [done | done].
Qed.

Lemma IsAbs_render_unrooted (es : list string) :
  es ≠ [] → Forall good es → IsAbs (render false es) = false.
Proof.
  intros Hne Hall. destruct es as [|e [|e' rest]]; [done | |]; inversion Hall; subst.
  - by apply good_not_abs.
  - change (render false (e :: e' :: rest)) with (GoStrings.Join (e :: e' :: rest) "/").
    rewrite Join_cons2. rewrite IsAbs_app; [by apply good_not_abs |].
    by destruct H1.
Qed.

Lemma render_rooted_nonempty (es : list string) : render true es ≠ "".
Proof. done. Qed.

(** [Clean] on a path that is another path, a separator and a plain name. *)
Lemma Clean_extend (p : string) (ns : list string) :
  p ≠ "" → Forall plain ns →
  Clean (p +:+ "/" +:+ GoStrings.Join ns "/")
  = render (IsAbs p) (clean_elems (IsAbs p) (elems p) ++ ns).
Proof.
  intros Hp Hns. unfold Clean.
  destruct (decide (p +:+ "/" +:+ GoStrings.Join ns "/" = "")) as [He|_].
  { by destruct p. }
  rewrite IsAbs_app by done. rewrite elems_app_sep.
  rewrite elems_Join by by apply Forall_plain_good.
  by rewrite clean_elems_app_plain.
Qed.

Lemma Clean_rooted (es : list string) :
  Forall plain es → Clean (render true es) = render true es.
Proof.
  intros Hes. unfold Clean.
  destruct (decide (render true es = "")); [done |].
  rewrite IsAbs_render_rooted, elems_render_rooted by by apply Forall_plain_good.
  by rewrite clean_elems_plain.
Qed.

End PathFacts.

Section JoinFacts.
Import GoStrings Filepath.

Lemma GoJoin_app (xs ys : list string) :
  xs ≠ [] → ys ≠ [] →
  GoStrings.Join (xs ++ ys) "/" = GoStrings.Join xs "/" +:+ "/" +:+ GoStrings.Join ys "/".
Proof.
  intros Hx Hy. induction xs as [|x [|x' xs] IH]; [done | |].
  - destruct ys; [done |]. reflexivity.
  - change ((x :: x' :: xs) ++ ys) with (x :: (x' :: xs) ++ ys).
    change ((x' :: xs) ++ ys) with (x' :: xs ++ ys) at 1.
    rewrite !Join_cons2. change ((x' :: xs ++ ys)) with ((x' :: xs) ++ ys).
    rewrite IH by done. by rewrite string_app_assoc.
Qed.

Lemma walk_path_snoc (root : string) (here : list string) (name : string) :
  walk_path root (here ++ [name]) = Filepath.Join [walk_path root here; name].
Proof. unfold walk_path. by rewrite fold_left_app. Qed.

Lemma Join_two (p name : string) :
  p ≠ "" → plain name →
  Filepath.Join [p; name]
  = render (IsAbs p) (clean_elems (IsAbs p) (elems p) ++ [name]).
Proof.
  intros Hp Hn. unfold Filepath.Join. destruct (decide (p = "")); [done |].
  change (GoStrings.Join [p; name] "/") with (p +:+ "/" +:+ GoStrings.Join [name] "/").
  apply Clean_extend; [done | by constructor].
Qed.

Lemma walk_path_rooted (root : string) (here : list string) :
  IsAbs root = true → here ≠ [] → Forall plain here →
  walk_path root here = render true (clean_elems true (elems root) ++ here).
Proof.
  intros Habs. induction here as [|name here IH] using rev_ind; [done |].
  intros _ Hall. apply Forall_app in Hall as [Hhere Hname].
  inversion Hname; subst.
  rewrite walk_path_snoc. destruct here as [|n0 here'].
  - change (walk_path root []) with root.
    rewrite Join_two; [by rewrite Habs | by destruct root | done].
  - rewrite IH by done. rewrite Join_two; [| done | done].
    rewrite IsAbs_render_rooted.
    assert (Forall plain (clean_elems true (elems root) ++ n0 :: here')) as Hpl.
    { apply Forall_app. split; [apply clean_elems_rooted_plain, elems_good | done]. }
    rewrite elems_render_rooted by by apply Forall_plain_good.
    rewrite clean_elems_plain by done. by rewrite <- app_assoc.
Qed.

Lemma strip_common_app (b t : list string) : strip_common b (b ++ t) = ([], t).
Proof.
  induction b as [|x b IH]; simpl; [by destruct t |].
  destruct (decide (x = x)); [done | congruence].
Qed.

Lemma render_rooted_inj (xs ys : list string) :
  Forall good xs → Forall good ys → render true xs = render true ys → xs = ys.
Proof.
  intros Hx Hy Heq.
  by rewrite <- (elems_render_rooted xs), <- (elems_render_rooted ys), Heq.
Qed.

Lemma Rel_walk_path (root : string) (here : list string) :
  IsAbs root = true → Forall plain here →
  Filepath.Rel root (walk_path root here) = (rel_of here, None).
Proof.
  intros Habs Hall.
  assert (root ≠ "") as Hroot by (by destruct root).
  pose proof (clean_elems_rooted_plain (elems root) (elems_good root)) as HB.
  assert (Clean root = render true (clean_elems true (elems root))) as Hbase.
  { unfold Clean. destruct (decide (root = "")); [done |]. by rewrite Habs. }
  destruct here as [|n0 here'].
  - unfold Rel. simpl. by destruct (decide (Clean root = Clean root)).
  - unfold Rel. rewrite walk_path_rooted by done.
    assert (Forall plain (clean_elems true (elems root) ++ n0 :: here')) as Hpl.
    { apply Forall_app. by split. }
    rewrite Clean_rooted by done. rewrite Hbase.
    destruct (decide (render true _ = render true _)) as [Heq|_].
    { apply render_rooted_inj in Heq; [| by apply Forall_plain_good..].
      apply (f_equal length) in Heq. rewrite length_app in Heq. simpl in Heq. lia. }
    destruct (decide (render true (clean_elems true (elems root)) = ".")) as [Hdot|_].
    { by apply (f_equal IsAbs) in Hdot; rewrite IsAbs_render_rooted in Hdot. }
    rewrite !IsAbs_render_rooted. cbn [negb Bool.eqb].
    rewrite !elems_render_rooted by by apply Forall_plain_good.
    by rewrite strip_common_app.
Qed.

(** The name of the archive entry for the file at [here]. *)
Lemma entry_name_plain (zipPath : string) (here : list string) :
  here ≠ [] → Forall plain (elems zipPath) → Forall plain here →
  Filepath.Join [zipPath; rel_of here] = render (IsAbs zipPath) (elems zipPath ++ here).
Proof.
  intros Hne Hzip Hall.
  assert (rel_of here = GoStrings.Join here "/") as -> by (by destruct here).
  assert (GoStrings.Join here "/" ≠ "") as Hrel.
  { intros Heq. apply (f_equal elems) in Heq.
    rewrite elems_Join in Heq by by apply Forall_plain_good. by subst. }
  unfold Filepath.Join. destruct (decide (zipPath = "")) as [->|Hz].
  - destruct (decide (GoStrings.Join here "/" = "")); [done |].
    change (GoStrings.Join [GoStrings.Join here "/"] "/") with (GoStrings.Join here "/").
    unfold Clean. destruct (decide (GoStrings.Join here "/" = "")); [done |].
    assert (IsAbs (GoStrings.Join here "/") = false) as ->.
    { destruct here as [|h0 here']; [done |].
      apply (IsAbs_render_unrooted (h0 :: here')); [done | by apply Forall_plain_good]. }
    rewrite elems_Join by by apply Forall_plain_good.
    by rewrite clean_elems_plain.
  - change (GoStrings.Join [zipPath; GoStrings.Join here "/"] "/")
      with (zipPath +:+ "/" +:+ GoStrings.Join here "/").
    rewrite Clean_extend by done. by rewrite clean_elems_plain.
Qed.

End JoinFacts.

Section DecoderPathFacts.
Import GoStrings Filepath.

(** The path the decoder writes for an entry name, on an absolute root. *)
Lemma Join_dest_name (dest name : string) :
  IsAbs dest = true →
  Filepath.Join [dest; name] = render true (clean_elems true (elems dest ++ elems name)).
Proof.
  intros Habs. assert (dest ≠ "") as Hd by (by destruct dest).
  unfold Filepath.Join. destruct (decide (dest = "")); [done |].
  change (GoStrings.Join [dest; name] "/") with (dest +:+ "/" +:+ name).
  unfold Clean. destruct (decide (dest +:+ "/" +:+ name = "")) as [He|_].
  { by destruct dest. }
  by rewrite IsAbs_app, Habs, elems_app_sep.
Qed.

Lemma Clean_dest (dest : string) :
  IsAbs dest = true → Clean dest = render true (clean_elems true (elems dest)).
Proof.
  intros Habs. unfold Clean. destruct (decide (dest = "")) as [->|_]; [done |].
  by rewrite Habs.
Qed.

Lemma elems_render (r : bool) (es : list string) :
  es ≠ [] → Forall good es → elems (render r es) = es.
Proof.
  destruct r; intros; [by apply elems_render_rooted | by apply elems_render_unrooted].
Qed.

Lemma render_rooted_app (xs ys : list string) :
  xs ≠ [] → ys ≠ [] →
  render true (xs ++ ys) = (render true xs +:+ "/") +:+ GoStrings.Join ys "/".
Proof.
  intros Hx Hy. unfold render. rewrite GoJoin_app by done.
  by rewrite !string_app_assoc.
Qed.

Lemma HasPrefix_render (xs ys : list string) :
  xs ≠ [] → ys ≠ [] →
  HasPrefix (render true (xs ++ ys)) (render true xs +:+ "/") = true.
Proof.
  intros Hx Hy. unfold HasPrefix. rewrite render_rooted_app by done. apply prefix_app.
Qed.

(** The ZipSlip guard, read on path elements: a cleaned rooted path that
    starts with the cleaned root and a separator lies strictly below the
    root. *)
Lemma HasPrefix_render_inv (root target : list string) :
  Forall good root → Forall good target →
  HasPrefix (render true target) (render true root +:+ "/") = true →
  ∃ rest, rest ≠ [] ∧ target = root ++ rest.
Proof.
  intros Hr Ht [t Heq]%prefix_inv. rewrite string_app_assoc in Heq.
  pose proof (f_equal elems Heq) as Hel.
  rewrite elems_app_sep, !elems_render_rooted in Hel by done.
  exists (elems t). split; [| done].
  intros Hnil. rewrite Hnil, app_nil_r in Hel. subst target.
  apply (f_equal String.length) in Heq. rewrite !string_length_app in Heq.
  simpl in Heq. lia.
Qed.

Lemma last_Split_sep (p : string) : last (Split (p +:+ "/") Separator) = Some "".
Proof.
  change (p +:+ "/") with (p +:+ String Separator "").
  rewrite Split_app_sep. simpl. by rewrite last_snoc.
Qed.

Lemma render_no_trailing_sep (r : bool) (es : list string) :
  es ≠ [] → Forall good es → HasSuffix (render r es) "/" = false.
Proof.
  intros Hne Hall. destruct (HasSuffix (render r es) "/") eqn:Hs; [| done].
  apply HasSuffix_inv in Hs as [p Hp].
  pose proof (last_Split_sep p) as Hlast. rewrite <- Hp in Hlast.
  assert (last (Split (render r es) Separator) = last es) as Hes.
  { destruct r.
    - unfold render.
      change ("/" +:+ GoStrings.Join es "/") with ("" +:+ String Separator (GoStrings.Join es "/")).
      rewrite Split_app_sep, Split_Join by (done || by apply good_sepfree).
      simpl. destruct es; [done |]. done.
    - destruct es as [|e es]; [done |].
      change (render false (e :: es)) with (GoStrings.Join (e :: es) "/").
      by rewrite Split_Join by (done || by apply good_sepfree). }
  rewrite Hes in Hlast.
  destruct (proj1 (Forall_forall _ _) Hall "") as [Hbad _]; [| done].
  by apply last_Some_elem_of.
Qed.

Lemma contains_sep_app_sep (a b : string) : contains_sep (a +:+ "/" +:+ b) = true.
Proof.
  induction a as [|c a IH]; simpl.
  - change ("/" +:+ b) with (String Separator b). simpl.
    by destruct (decide (Separator = Separator)).
  - by destruct (decide (c = Separator)).
Qed.

Lemma dir_prefix_sepfree (y : string) : contains_sep y = false → dir_prefix y = "".
Proof.
  destruct y as [|c y]; [done |]. intros H.
  change (dir_prefix (String c y))
    with (if contains_sep (String c y) then String c (dir_prefix y) else "").
  by rewrite H.
Qed.

Lemma dir_prefix_app_sep (a y : string) :
  contains_sep y = false → dir_prefix (a +:+ "/" +:+ y) = a +:+ "/".
Proof.
  intros Hy. induction a as [|c a IH].
  - change ("" +:+ "/" +:+ y) with (String Separator y).
    change (dir_prefix (String Separator y))
      with (if contains_sep (String Separator y) then String Separator (dir_prefix y) else "").
    pose proof (contains_sep_app_sep "" y) as Hc.
    change ("" +:+ "/" +:+ y) with (String Separator y) in Hc. rewrite Hc.
    by rewrite dir_prefix_sepfree.
  - change (String c a +:+ "/" +:+ y) with (String c (a +:+ "/" +:+ y)).
    change (dir_prefix (String c (a +:+ "/" +:+ y)))
      with (if contains_sep (String c (a +:+ "/" +:+ y))
            then String c (dir_prefix (a +:+ "/" +:+ y)) else "").
    pose proof (contains_sep_app_sep (String c a) y) as Hc.
    change (String c a +:+ "/" +:+ y) with (String c (a +:+ "/" +:+ y)) in Hc.
    by rewrite Hc, IH.
Qed.

(** [filepath.Dir] of a cleaned rooted path drops the last element. *)
Lemma Dir_render (es : list string) (e : string) :
  Forall plain es → plain e → Dir (render true (es ++ [e])) = render true es.
Proof.
  intros Hes He. unfold Dir.
  assert (contains_sep e = false) as Hsep by (by destruct He as (_ & _ & _ & ?)).
  destruct es as [|e0 es'].
  - change (render true ([] ++ [e])) with ("" +:+ "/" +:+ e).
    rewrite dir_prefix_app_sep by done. reflexivity.
  - rewrite render_rooted_app by done.
    change (GoStrings.Join [e] "/") with e. rewrite string_app_assoc.
    rewrite dir_prefix_app_sep by done.
    pose proof (Clean_extend (render true (e0 :: es')) [] (render_rooted_nonempty _)
                  (Forall_nil_2 _)) as Hc.
    change (GoStrings.Join [] "/") with "" in Hc.
    change ("/" +:+ "") with "/" in Hc. rewrite Hc.
    rewrite IsAbs_render_rooted, elems_render_rooted by by apply Forall_plain_good.
    by rewrite clean_elems_plain, app_nil_r.
Qed.

Lemma resolve_render (w : world) (es : list string) :
  Forall plain es → GoOS.resolve w (render true es) = es.
Proof.
  intros Hes. unfold GoOS.resolve.
  rewrite IsAbs_render_rooted, elems_render_rooted by by apply Forall_plain_good.
  by apply clean_elems_plain.
Qed.

Lemma resolve_abs (w : world) (path : string) :
  IsAbs path = true → GoOS.resolve w path = clean_elems true (elems path).
Proof. intros H. unfold GoOS.resolve. by rewrite H. Qed.

End DecoderPathFacts.

(** ** The decoder on a quiet file system *)

Section DecoderFacts.
Import GoOS.

Lemma lookup_add_dirs (perm : N) (ps : list (list string)) (m : gmap (list string) node)
    (q : list string) :
  add_dirs perm ps m !! q
  = match m !! q with
    | Some x => Some x
    | None => if decide (q ∈ ps) then Some (NDir perm) else None
    end.
Proof.
  revert m. induction ps as [|p ps IH]; intros m; cbn [add_dirs].
  - destruct (m !! q); [done |]. by destruct (decide (q ∈ [])) as [?%elem_of_nil|].
  - rewrite IH. destruct (m !! p) eqn:Hp.
    + destruct (m !! q) eqn:Hq; [done |].
      destruct (decide (q ∈ ps)) as [Hin|Hin], (decide (q ∈ p :: ps)) as [Hin'|Hin'];
        try done.
      * exfalso. apply Hin'. by apply elem_of_cons; right.
      * apply elem_of_cons in Hin' as [->|?]; [congruence | done].
    + destruct (decide (p = q)) as [->|Hne].
      * rewrite lookup_insert_eq, Hp.
        destruct (decide (q ∈ q :: ps)) as [|Hin']; [done |].
        exfalso. apply Hin'. by apply elem_of_cons; left.
      * rewrite lookup_insert_ne by done. destruct (m !! q); [done |].
        destruct (decide (q ∈ ps)) as [Hin|Hin], (decide (q ∈ p :: ps)) as [Hin'|Hin'];
          try done.
        -- exfalso. apply Hin'. by apply elem_of_cons; right.
        -- apply elem_of_cons in Hin' as [->|?]; done.
Qed.

Lemma faulty_quiet (w : world) (op : sysop) (p : list string) :
  faults w = [] → faulty w op p = false.
Proof.
  intros H. unfold faulty. rewrite H. apply bool_decide_eq_false, not_elem_of_nil.
Qed.

Lemma is_file_add_dirs (perm : N) (ps : list (list string)) (m : gmap (list string) node)
    (q : list string) :
  is_file m q = false → is_file (add_dirs perm ps m) q = false.
Proof.
  unfold is_file. rewrite lookup_add_dirs. destruct (m !! q) as [[]|]; try done.
  intros _. by destruct (decide (q ∈ ps)).
Qed.

Lemma mkdir_chain_quiet (path : string) (perm : N) (ps : list (list string)) (w : world) :
  faults w = [] →
  (∀ p, p ∈ ps → is_file (fs w) p = false) →
  mkdir_chain path perm ps w
  = (with_fs (add_dirs (N.ldiff perm (umask w)) ps (fs w)) w, None).
Proof.
  revert w. induction ps as [|p ps IH]; intros w Hq Hps; simpl.
  - by destruct w.
  - pose proof (Hps p ltac:(by apply elem_of_cons; left)) as Hp. unfold is_file in Hp.
    destruct (fs w !! p) as [[m d|m]|] eqn:Hlook; [done | |].
    + apply IH; [done |]. intros q Hin. apply Hps. by apply elem_of_cons; right.
    + rewrite faulty_quiet by done. rewrite IH; [done | done |].
      intros q Hin. simpl. unfold is_file.
      destruct (decide (p = q)) as [->|Hne];
        [by rewrite lookup_insert_eq | rewrite lookup_insert_ne by done].
      apply Hps. by apply elem_of_cons; right.
Qed.

Lemma ancestors_snoc (p : list string) (e : string) : ancestors (p ++ [e]) = prefixes p.
Proof.
  unfold ancestors, prefixes. rewrite length_app. simpl.
  replace (length p + 1 - 1) with (length p) by lia.
  apply map_ext_in. intros n [_ Hn]%in_seq. rewrite take_app_le; [done | lia].
Qed.

Lemma elem_of_prefixes (p q : list string) :
  q ∈ prefixes p ↔ q ≠ [] ∧ q `prefix_of` p.
Proof.
  unfold prefixes. rewrite list_elem_of_In, in_map_iff. split.
  - intros (n & <- & [Hn1 Hn2]%in_seq). split.
    + destruct p; simpl in *; [lia |]. destruct n; [lia | done].
    + apply prefix_take.
  - intros [Hne [k ->]]. exists (length q). split.
    + by rewrite take_app_length.
    + apply in_seq. rewrite length_app. destruct q; simpl in *; [done | lia].
Qed.

Lemma removelast_snoc (p : list string) (e : string) : removelast (p ++ [e]) = p.
Proof. apply removelast_last. Qed.

Lemma OpenFile_quiet (path : string) (perm : N) (w : world) (p : list string) (mp : N) :
  path ≠ "" → resolve w path = p → p ≠ [] → faults w = [] →
  under_file (fs w) p = false →
  node_at (fs w) (removelast p) = Some (NDir mp) →
  fs w !! p = None →
  OpenFile_create_trunc path perm w
  = (with_fs (<[p := NFile (N.ldiff perm (umask w)) []]> (fs w)) w, Ok p).
Proof.
  intros Hpath Hres Hne Hq Hunder Hparent Hfree. unfold OpenFile_create_trunc.
  destruct (decide (path = "")); [done |]. rewrite Hres, faulty_quiet, Hunder by done.
  destruct p as [|a p']; [done |]. by rewrite Hparent, Hfree.
Qed.

Lemma Write_quiet (h : list string) (data old : bytes) (m : N) (w : world) :
  faults w = [] → fs w !! h = Some (NFile m old) →
  Write h data w = (with_fs (<[h := NFile m (old ++ data)]> (fs w)) w, None).
Proof. intros Hq Hh. unfold Write. by rewrite faulty_quiet, Hh. Qed.

(** The write of one file entry whose target is free. *)
Lemma unzip_entry_writes (dest : string) (f : zfile) (data : bytes) (w : world)
    (T : list string) :
  faults w = [] →
  Filepath.Join [dest; zname f] = Filepath.render true T →
  GoStrings.HasPrefix (Filepath.render true T) (Filepath.Clean dest +:+ "/") = true →
  Zip.IsDir f = false →
  zbody_of f = Stored data →
  T ≠ [] → Forall plain T →
  (∀ q, q ∈ ancestors T → is_file (fs w) q = false) →
  fs w !! T = None →
  unzip_entry dest f w
  = (with_fs (<[T := NFile (N.ldiff (zperm f) (umask w)) data]>
                (add_dirs (N.ldiff perm0755 (umask w)) (ancestors T) (fs w))) w, None).
Proof.
  intros Hq Hpath Hguard Hdir Hbody Hne Hplain Hanc Hfree.
  destruct (exists_last Hne) as (T' & t & ->).
  pose proof Hplain as Hplain'.
  apply Forall_app in Hplain as [HT' Ht]. inversion Ht as [|? ? Hpt _]; subst.
  unfold unzip_entry. rewrite Hpath, Hguard, Hdir. cbn [negb].
  rewrite Dir_render by done. unfold MkdirAll.
  destruct (decide (Filepath.render true T' = "")) as [He|_];
    [by apply render_rooted_nonempty in He |].
  rewrite resolve_render by done. rewrite ancestors_snoc in *.
  rewrite mkdir_chain_quiet by done.
  set (m1 := add_dirs (N.ldiff perm0755 (umask w)) (prefixes T') (fs w)).
  assert (under_file m1 (T' ++ [t]) = false) as Hunder.
  { unfold under_file. rewrite ancestors_snoc.
    apply not_true_is_false. intros (q & Hin & Hfile)%existsb_exists.
    apply list_elem_of_In in Hin. unfold m1 in Hfile.
    by rewrite (is_file_add_dirs _ _ _ _ (Hanc q Hin)) in Hfile. }
  assert (∃ m, node_at m1 (removelast (T' ++ [t])) = Some (NDir m)) as [mp Hparent].
  { rewrite removelast_snoc.
    destruct T' as [|a T'']; [by eexists |]. unfold node_at, m1.
    rewrite lookup_add_dirs.
    assert (a :: T'' ∈ prefixes (a :: T'')) as Hin by (by apply elem_of_prefixes).
    pose proof (Hanc _ Hin) as Hnf. unfold is_file in Hnf.
    destruct (fs w !! (a :: T'')) as [[]|]; [done | by eexists |].
    rewrite decide_True by done. by eexists. }
  assert (m1 !! (T' ++ [t]) = None) as Hfree1.
  { unfold m1. rewrite lookup_add_dirs, Hfree. rewrite decide_False; [done |].
    intros [_ [k Hk]]%elem_of_prefixes. apply (f_equal length) in Hk.
    rewrite !length_app in Hk. simpl in Hk. lia. }
  rewrite (OpenFile_quiet _ _ _ (T' ++ [t]) mp);
    [| apply render_rooted_nonempty | by apply resolve_render | done..].
  unfold Zip.Open. rewrite Hbody. unfold Copy.
  rewrite (Write_quiet _ _ [] (N.ldiff (zperm f) (umask w)));
    [| done | apply lookup_insert_eq].
  cbn [fs with_fs app]. unfold with_fs. cbn. by rewrite insert_insert_eq.
Qed.

End DecoderFacts.

Section LoopFacts.
Import GoOS.

Lemma elem_of_ancestors (p q : list string) :
  q ∈ ancestors p ↔ q ≠ [] ∧ q `prefix_of` p ∧ q ≠ p.
Proof.
  unfold ancestors. rewrite list_elem_of_In, in_map_iff. split.
  - intros (n & <- & [Hn1 Hn2]%in_seq). split_and!.
    + destruct p; simpl in *; [lia |]. destruct n; [lia | done].
    + apply prefix_take.
    + intros Heq. apply (f_equal length) in Heq. rewrite length_take in Heq. lia.
  - intros (Hne & [k ->] & Hneq). exists (length q). split.
    + by rewrite take_app_length.
    + apply in_seq. rewrite length_app.
      destruct q; [done |]. destruct k; [by rewrite app_nil_r in Hneq |]. simpl. lia.
Qed.

Lemma antichain_cons (t : list string) (ts : list (list string)) :
  antichain (t :: ts) →
  antichain ts ∧ (t ∉ ts)
  ∧ ∀ t', t' ∈ ts → ¬ (t `prefix_of` t') ∧ ¬ (t' `prefix_of` t).
Proof.
  intros [Hnd Hpre]. apply NoDup_cons in Hnd as [Hnotin Hnd]. split_and!.
  - split; [done |]. intros t1 t2 H1 H2. apply Hpre; by apply elem_of_cons; right.
  - done.
  - intros t' Hin. split; intros Hp.
    + apply Hpre in Hp; [by subst | by apply elem_of_cons; left | by apply elem_of_cons; right].
    + apply Hpre in Hp; [by subst | by apply elem_of_cons; right | by apply elem_of_cons; left].
Qed.

(** The loop of [unzipDest] over entries with free, pairwise unrelated
    targets: every entry is written, and what was there stays. *)
Lemma unzip_loop_writes (dest : string) (items : list landing) (w : world) :
  faults w = [] →
  Forall (lands_ok dest) items →
  antichain (map l_target items) →
  (∀ l, l ∈ items →
     fs w !! l_target l = None ∧ ∀ q, q ∈ ancestors (l_target l) → is_file (fs w) q = false) →
  ∃ w', unzip_loop unzip_entry dest (map l_file items) w = (w', None)
        ∧ (∀ l, l ∈ items →
             fs w' !! l_target l
             = Some (NFile (N.ldiff (zperm (l_file l)) (umask w)) (l_data l)))
        ∧ (∀ q x, fs w !! q = Some x → fs w' !! q = Some x).
Proof.
  revert w. induction items as [|l items IH]; intros w Hq Hok Hanti Hfree.
  { exists w. split; [done |]. split; [| done]. by intros l ?%elem_of_nil. }
  inversion Hok as [|? ? (Hpath & Hguard & Hdir & Hbody & Hne & Hplain) Hok']; subst.
  cbn [map] in Hanti. apply antichain_cons in Hanti as (Hanti' & Hnotin & Hcross).
  destruct (Hfree l ltac:(by apply elem_of_cons; left)) as [Hlfree Hlanc].
  cbn [map unzip_loop].
  rewrite (unzip_entry_writes dest (l_file l) (l_data l) w (l_target l)) by done.
  set (w1 := with_fs _ w).
  destruct (IH w1) as (w' & Hloop & Hall & Hmono); [done | done | done | |].
  { intros l' Hin'.
    assert (l_target l' ∈ map l_target items) as Hint.
    { apply list_elem_of_fmap. by exists l'. }
    destruct (Hfree l' ltac:(by apply elem_of_cons; right)) as [Hfree' Hanc'].
    destruct (Hcross _ Hint) as [Hc1 Hc2].
    assert (l_target l ≠ l_target l') as Hneq by (intros Heq; by rewrite Heq in Hnotin).
    split.
    - unfold w1. cbn [fs with_fs]. rewrite lookup_insert_ne by done.
      rewrite lookup_add_dirs, Hfree'. rewrite decide_False; [done |].
      intros (_ & Hp & _)%elem_of_ancestors. done.
    - intros q Hqin. unfold w1. cbn [fs with_fs]. unfold is_file.
      destruct (decide (l_target l = q)) as [<-|Hnq].
      + apply elem_of_ancestors in Hqin as (_ & Hp & _). done.
      + rewrite lookup_insert_ne by done. apply is_file_add_dirs. by apply Hanc'. }
  exists w'. split; [done |]. split.
  - intros l' [->|Hin']%elem_of_cons; [| by apply Hall].
    apply Hmono. unfold w1. cbn [fs with_fs]. apply lookup_insert_eq.
  - intros q x Hqx. apply Hmono. unfold w1. cbn [fs with_fs].
    rewrite lookup_insert_ne by (intros <-; congruence).
    by rewrite lookup_add_dirs, Hqx.
Qed.

End LoopFacts.

(** ** Directory trees and the files the filter lets through *)

Section TreeFacts.

Lemma retained_file_listed (perm : N) (data : bytes) (io : file_io) :
  (∀ d base ext,
      tree_at d ext = Some (TFile perm data io) →
      (∀ k, k ≤ length ext → shouldSkip (rel_of (base ++ take k ext)) = false) →
      (base ++ ext, perm, data) ∈ files_of base d)
  ∧ (∀ ds base name ext,
      forest_at ds name ext = Some (TFile perm data io) →
      (∀ k, k ≤ length ext → shouldSkip (rel_of (base ++ name :: take k ext)) = false) →
      (base ++ name :: ext, perm, data) ∈ files_in base ds).
Proof.
  apply tree_forest_mutind.
  - intros p dt i base ext Hat Hskip. destruct ext as [|n ext]; [| done].
    simpl in Hat. inversion Hat; subst.
    specialize (Hskip 0 ltac:(simpl; lia)). simpl in Hskip. rewrite app_nil_r in *.
    simpl. rewrite Hskip. apply list_elem_of_here.
  - intros rd children IH base ext Hat Hskip. destruct ext as [|n ext]; [done |].
    pose proof (Hskip 0 ltac:(simpl; lia)) as H0. simpl in H0. rewrite app_nil_r in H0.
    simpl. rewrite H0. apply IH; [done |]. intros k Hk.
    apply (Hskip (S k)). simpl. lia.
  - done.
  - intros name' d IHd rest IHrest base name ext Hat Hskip. simpl in Hat. simpl.
    apply elem_of_app. destruct (decide (name' = name)) as [->|Hne].
    + left. replace (base ++ name :: ext) with ((base ++ [name]) ++ ext)
        by by rewrite <- app_assoc.
      apply IHd; [done |]. intros k Hk. rewrite <- app_assoc. by apply Hskip.
    + right. by apply IHrest.
Qed.

Lemma retained_file_in (t : tree) (here : list string) (perm : N) (data : bytes) :
  retained_file t here perm data → (here, perm, data) ∈ files_of [] t.
Proof.
  intros [[io Hat] Hskip].
  by apply (proj1 (retained_file_listed perm data io) t [] here).
Qed.

Lemma forest_at_name (ds : forest) (name : string) (ext : list string) (d : tree) :
  forest_at ds name ext = Some d → name ∈ names_of ds.
Proof.
  induction ds as [|name' d' rest IH]; simpl; [done |].
  destruct (decide (name' = name)) as [->|Hne]; intros H.
  - apply list_elem_of_here.
  - apply elem_of_cons. right. by apply IH.
Qed.

Lemma listed_file_retained :
  (∀ d base, wf_tree d → ∀ item, item ∈ files_of base d →
      ∃ ext io, item.1.1 = base ++ ext
        ∧ tree_at d ext = Some (TFile item.1.2 item.2 io)
        ∧ ∀ k, k ≤ length ext → shouldSkip (rel_of (base ++ take k ext)) = false)
  ∧ (∀ ds base, wf_forest ds → ∀ item, item ∈ files_in base ds →
      ∃ name ext io, item.1.1 = base ++ name :: ext
        ∧ forest_at ds name ext = Some (TFile item.1.2 item.2 io)
        ∧ ∀ k, k ≤ length ext → shouldSkip (rel_of (base ++ name :: take k ext)) = false).
Proof.
  apply tree_forest_mutind.
  - intros perm data io base _ item. simpl.
    destruct (shouldSkip (rel_of base)) eqn:Hskip; [by intros ?%elem_of_nil |].
    intros ->%list_elem_of_singleton. exists [], io. simpl. rewrite app_nil_r.
    split_and!; [done | done |]. intros k Hk. assert (k = 0) as -> by lia.
    simpl. by rewrite app_nil_r.
  - intros rd children IH base Hwf item. simpl.
    destruct (shouldSkip (rel_of base)) eqn:Hskip; [by intros ?%elem_of_nil |].
    intros Hin. destruct (IH base Hwf item Hin) as (name & ext & io & Hpath & Hat & Hok).
    exists (name :: ext), io. split_and!; [done | done |].
    intros [|k] Hk; simpl; [by rewrite app_nil_r | apply Hok; simpl in Hk; lia].
  - intros base _ item. by intros ?%elem_of_nil.
  - intros name d IHd rest IHrest base (Hname & Hfresh & Hwd & Hwrest) item. simpl.
    intros [Hin|Hin]%elem_of_app.
    + destruct (IHd (base ++ [name]) Hwd item Hin) as (ext & io & Hpath & Hat & Hok).
      exists name, ext, io. rewrite decide_True by done.
      split_and!; [by rewrite Hpath, <- app_assoc | done |].
      intros k Hk. specialize (Hok k Hk). by rewrite <- app_assoc in Hok.
    + destruct (IHrest base Hwrest item Hin) as (n & ext & io & Hpath & Hat & Hok).
      exists n, ext, io. rewrite decide_False; [done |].
      intros ->. apply Hfresh. by apply forest_at_name in Hat.
Qed.

Lemma listed_file_is_retained (t : tree) (here : list string) (perm : N) (data : bytes) :
  wf_tree t → (here, perm, data) ∈ files_of [] t → retained_file t here perm data.
Proof.
  intros Hwf Hin.
  destruct (proj1 listed_file_retained t [] Hwf _ Hin) as (ext & io & Hpath & Hat & Hok).
  simpl in *. subst ext. split; [by exists io | done].
Qed.

Lemma antichain_app (xs ys : list (list string)) :
  antichain xs → antichain ys →
  (∀ x y, x ∈ xs → y ∈ ys → ¬ (x `prefix_of` y) ∧ ¬ (y `prefix_of` x)) →
  antichain (xs ++ ys).
Proof.
  intros [Hx1 Hx2] [Hy1 Hy2] Hcross. split.
  - apply NoDup_app. split_and!; [done | | done].
    intros x Hx Hy. by destruct (Hcross x x Hx Hy) as [[] _].
  - intros t1 t2 [H1|H1]%elem_of_app [H2|H2]%elem_of_app Hp; eauto.
    + by destruct (Hcross _ _ H1 H2) as [[] _].
    + by destruct (Hcross _ _ H2 H1) as [_ []].
Qed.

Lemma antichain_below (pre : list string) (ts : list (list string)) :
  antichain ts → antichain (map (app pre) ts).
Proof.
  intros [Hnd Hpre]. split.
  - apply NoDup_fmap_2; [apply _ | done].
  - intros t1 t2 (a & -> & Ha)%list_elem_of_fmap (b & -> & Hb)%list_elem_of_fmap Hp.
    apply prefix_app_inv in Hp. f_equal. by apply Hpre.
Qed.

(** Where the listed files are: below the place the walk started from,
    under plain names, no one above another. *)
Lemma files_of_shape :
  (∀ d here, wf_tree d →
      (∀ item, item ∈ files_of here d →
         ∃ ext, item.1.1 = here ++ ext ∧ Forall plain ext ∧ (tree_IsDir d = true → ext ≠ []))
      ∧ antichain (map (λ item, item.1.1) (files_of here d)))
  ∧ (∀ ds here, wf_forest ds →
      (∀ item, item ∈ files_in here ds →
         ∃ name ext, name ∈ names_of ds ∧ item.1.1 = here ++ name :: ext
                     ∧ Forall plain (name :: ext))
      ∧ antichain (map (λ item, item.1.1) (files_in here ds))).
Proof.
  apply tree_forest_mutind.
  - intros perm data io here _. simpl. destruct (shouldSkip _).
    + split; [by intros item ?%elem_of_nil |]. split; [constructor | by intros ? ? ?%elem_of_nil].
    + split.
      * intros item ->%list_elem_of_singleton. exists []. simpl.
        rewrite app_nil_r. split_and!; [done | constructor | done].
      * split; [apply NoDup_singleton |].
        by intros t1 t2 ->%list_elem_of_singleton ->%list_elem_of_singleton.
  - intros rd children IH here Hwf. simpl in *. destruct (shouldSkip _).
    + split; [by intros item ?%elem_of_nil |]. split; [constructor | by intros ? ? ?%elem_of_nil].
    + destruct (IH here Hwf) as [Hshape Hanti]. split; [| done].
      intros item Hin. destruct (Hshape item Hin) as (name & ext & _ & -> & Hpl).
      by exists (name :: ext).
  - intros here _. simpl. split; [by intros item ?%elem_of_nil |].
    split; [constructor | by intros ? ? ?%elem_of_nil].
  - intros name d IHd rest IHrest here (Hname & Hfresh & Hwd & Hwrest).
    destruct (IHd (here ++ [name]) Hwd) as [Hshape1 Hanti1].
    destruct (IHrest here Hwrest) as [Hshape2 Hanti2]. simpl. split.
    + intros item [Hin|Hin]%elem_of_app.
      * destruct (Hshape1 item Hin) as (ext & -> & Hpl & _).
        exists name, ext. split_and!; [apply list_elem_of_here | by rewrite <- app_assoc |].
        by constructor.
      * destruct (Hshape2 item Hin) as (n & ext & Hn & -> & Hpl).
        exists n, ext. split_and!; [by apply elem_of_cons; right | done | done].
    + rewrite map_app. apply antichain_app; [done | done |].
      intros x y (i1 & -> & Hi1)%list_elem_of_fmap (i2 & -> & Hi2)%list_elem_of_fmap.
      destruct (Hshape1 i1 Hi1) as (ext1 & -> & _).
      destruct (Hshape2 i2 Hi2) as (n & ext2 & Hn & -> & _).
      rewrite <- app_assoc. simpl.
      split; intros Hp%prefix_app_inv; apply prefix_cons_inv_1 in Hp; by subst.
Qed.

End TreeFacts.

Section EncoderFacts.

Lemma plan_readable (folderPath zipPath : string) :
  Filepath.IsAbs folderPath = true →
  (∀ d here, Forall plain here → wf_tree d → readable d →
      plan folderPath zipPath (walk_path folderPath here) d
      = flat_map (entry_steps zipPath) (files_of here d))
  ∧ (∀ ds here, Forall plain here → wf_forest ds → readable_all ds →
      plans folderPath zipPath (walk_path folderPath here) ds
      = flat_map (entry_steps zipPath) (files_in here ds)).
Proof.
  intros Habs. apply tree_forest_mutind.
  - intros perm data io here Hhere _ Hio. simpl in Hio. subst io.
    cbn [plan files_of]. rewrite Rel_walk_path by done. cbn [fst].
    by destruct (shouldSkip (rel_of here)).
  - intros rd children IH here Hhere Hwf [-> Hread].
    cbn [plan files_of]. rewrite Rel_walk_path by done. cbn [fst].
    destruct (shouldSkip (rel_of here)); [done |]. by apply IH.
  - done.
  - intros name d IHd rest IHrest here Hhere (Hname & _ & Hwd & Hwrest) [Hrd Hrrest].
    cbn [plans files_in]. rewrite flat_map_app, <- walk_path_snoc.
    rewrite IHrest by done. rewrite IHd; [done | | done | done].
    apply Forall_app. split; [done | by constructor].
Qed.

Lemma root_entry_readable (t : tree) : readable t → root_entry t = t.
Proof. destruct t as [perm data io|rd children]; [| done]. simpl. by intros ->. Qed.

Lemma run_entries (zipPath : string) (items : list (list string * N * bytes))
    (a : Zip.Writer) :
  Zip.zw_closed a = false →
  run (flat_map (entry_steps zipPath) items) a
  = (Zip.MkWriter (Zip.zw_files a ++ map (entry_of zipPath) items) false, WNil).
Proof.
  revert a. induction items as [|item items IH]; intros [files closed] Ha; simpl in Ha; subst.
  { simpl. by rewrite app_nil_r. }
  cbn [flat_map entry_steps app run run_step]. unfold Zip.CreateHeader.
  cbn [Zip.zw_closed Zip.zw_files]. unfold Zip.Write. cbn [Zip.zw_files Zip.zw_closed].
  rewrite reverse_snoc, reverse_involutive. unfold Zip.append_body. cbn.
  rewrite IH by done. cbn [Zip.zw_files map]. by rewrite <- app_assoc.
Qed.

(** What the encoder writes for a readable directory: one entry for each
    file that the filter lets through, in the order of the walk. *)
Lemma addFolderToZip_readable (dsk : gmap string tree) (folderPath zipPath : string)
    (t : tree) :
  Filepath.IsAbs folderPath = true → dsk !! folderPath = Some t →
  wf_tree t → readable t →
  addFolderToZip dsk folderPath zipPath Zip.NewWriter
  = (Zip.MkWriter (map (entry_of zipPath) (files_of [] t)) false, WNil).
Proof.
  intros Habs Ht Hwf Hread. rewrite addFolderToZip_run. unfold encoder_plan. rewrite Ht.
  rewrite root_entry_readable by done.
  change folderPath with (walk_path folderPath []) at 2.
  rewrite (proj1 (plan_readable folderPath zipPath Habs)) by done.
  by rewrite run_entries.
Qed.

End EncoderFacts.

(** For a readable directory under an absolute path the encoder returns
    [nil], and the archive holds exactly the files that the filter lets
    through: an entry is in it if and only if it is the entry of such a
    file, named by the archive prefix and the relative path, with the
    file's bytes and mode. *)
Theorem addFolderToZip_archives_retained_files
    (dsk : gmap string tree) (folderPath zipPath : string) (t : tree) :
  Filepath.IsAbs folderPath = true → dsk !! folderPath = Some t →
  wf_tree t → readable t →
  snd (addFolderToZip dsk folderPath zipPath Zip.NewWriter) = WNil
  ∧ ∀ f, f ∈ Zip.zw_files (fst (addFolderToZip dsk folderPath zipPath Zip.NewWriter))
         ↔ ∃ here perm data,
             retained_file t here perm data ∧ f = entry_of zipPath (here, perm, data).
Proof.
  intros Habs Ht Hwf Hread.
  rewrite (addFolderToZip_readable dsk folderPath zipPath t) by done.
  split; [done |]. intros f. cbn [fst Zip.zw_files]. split.
  - intros ([[here perm] data] & -> & Hin)%list_elem_of_fmap.
    exists here, perm, data. split; [by apply listed_file_is_retained | done].
  - intros (here & perm & data & Hret & ->).
    apply list_elem_of_fmap. exists (here, perm, data).
    split; [done | by apply retained_file_in].
Qed.

(** ** The ZipSlip guard *)

Section GuardFacts.
Import GoStrings Filepath.

Lemma resolve_dest_name (w : world) (dest name : string) :
  IsAbs dest = true →
  GoOS.resolve w (dest +:+ "/" +:+ name) = clean_elems true (elems dest ++ elems name).
Proof.
  intros Habs. unfold GoOS.resolve. rewrite IsAbs_app by (by destruct dest).
  by rewrite Habs, elems_app_sep.
Qed.

(** An entry that passes the guard is strictly inside the root. *)
Lemma guard_sound (w : world) (dest name : string) :
  IsAbs dest = true →
  HasPrefix (Filepath.Join [dest; name]) (Clean dest +:+ "/") = true →
  strictly_inside w dest name.
Proof.
  intros Habs Hguard. rewrite Join_dest_name, Clean_dest in Hguard by done.
  apply HasPrefix_render_inv in Hguard as (rest & Hne & Heq).
  - exists rest. split; [done |]. by rewrite resolve_dest_name, resolve_abs.
  - apply Forall_plain_good, clean_elems_rooted_plain, elems_good.
  - apply Forall_plain_good, clean_elems_rooted_plain.
    apply Forall_app. split; apply elems_good.
Qed.

Lemma unzip_loop_app (entry : string → zfile → world → world * option error)
    (dest : string) (pre post : list zfile) (w : world) :
  unzip_loop entry dest (pre ++ post) w
  = match unzip_loop entry dest pre w with
    | (w', None) => unzip_loop entry dest post w'
    | r => r
    end.
Proof.
  revert w. induction pre as [|f pre IH]; intros w; simpl; [done |].
  destruct (entry dest f w) as [w' [e|]]; [done | apply IH].
Qed.

Lemma strictly_inside_any_world (w w' : world) (dest name : string) :
  IsAbs dest = true → strictly_inside w' dest name → strictly_inside w dest name.
Proof.
  intros Habs (rest & Hne & Heq). exists rest. split; [done |].
  rewrite resolve_dest_name, resolve_abs in * by done. done.
Qed.

End GuardFacts.

(** C2. On an absolute destination root, an entry whose name joined to the
    root does not lie strictly inside the root makes [unzipDest] return the
    error of the guard at once: the result is the one of the entries before
    it, with that error, so neither this entry nor any entry after it writes
    a file or a directory. *)
Theorem unzipDest_rejects_escaping_entry
    (dest : string) (pre post : list zfile) (bad : zfile) (w : world) :
  Filepath.IsAbs dest = true →
  ¬ strictly_inside w dest (zname bad) →
  unzipDest (ZipStream (pre ++ bad :: post)) dest w
  = match unzipDest (ZipStream pre) dest w with
    | (w', None) => (w', Some (ErrInvalidPath (Filepath.Join [dest; zname bad])))
    | r => r
    end.
Proof.
  intros Habs Hout. unfold unzipDest. cbn [Zip.NewReader].
  rewrite unzip_loop_app.
  destruct (unzip_loop unzip_entry dest pre _) as [w' [e|]]; [done |].
  cbn [unzip_loop]. unfold unzip_entry at 1.
  destruct (GoStrings.HasPrefix _ _) eqn:Hguard; [| done].
  apply (guard_sound w') in Hguard; [| done].
  by apply (strictly_inside_any_world w) in Hguard.
Qed.

(** ** Round trip *)

Section RoundTripFacts.
Import GoStrings Filepath GoOS.

Lemma landing_ok (dest zipPath : string) (item : list string * N * bytes) :
  IsAbs dest = true → clean_elems true (elems dest) ≠ [] →
  Forall plain (elems zipPath) →
  item.1.1 ≠ [] → Forall plain item.1.1 →
  lands_ok dest (landing_of (clean_elems true (elems dest)) zipPath item).
Proof.
  intros Habs HD Hzip Hne Hpl. destruct item as [[here perm] data]. simpl in *.
  set (D := clean_elems true (elems dest)) in *.
  assert (Forall plain D) as HDpl by apply clean_elems_rooted_plain, elems_good.
  assert (Forall plain (elems zipPath ++ here)) as HX by (apply Forall_app; by split).
  assert (elems zipPath ++ here ≠ []) as HXne by (by destruct (elems zipPath), here).
  unfold lands_ok, landing_of, entry_of, ToSlash. cbn [l_file l_data l_target zname zbody_of fst snd].
  rewrite entry_name_plain by done. split_and!.
  - rewrite Join_dest_name by done.
    rewrite elems_render by (done || by apply Forall_plain_good).
    by rewrite clean_elems_app_plain.
  - rewrite Clean_dest by done. fold D. by apply HasPrefix_render.
  - unfold Zip.IsDir. cbn [zdirattr zname orb].
    apply render_no_trailing_sep; [done | by apply Forall_plain_good].
  - done.
  - by destruct D.
  - apply Forall_app. by split.
Qed.

Lemma prefix_of_app_cases (q D X : list string) :
  q `prefix_of` D ++ X → q `prefix_of` D ∨ ∃ X', X' ≠ [] ∧ q = D ++ X'.
Proof.
  intros Hq. destruct (prefix_weak_total q D (D ++ X) Hq) as [Hle|[k Hk]];
    [by apply prefix_app_r | by left |].
  destruct k as [|a k]; [left; rewrite app_nil_r in Hk; by subst | right].
  by exists (a :: k).
Qed.

Lemma MkdirAll_root_quiet (dest : string) (w : world) :
  IsAbs dest = true → faults w = [] → empty_destination w dest →
  MkdirAll dest perm0755 w
  = (with_fs (add_dirs (N.ldiff perm0755 (umask w)) (prefixes (resolve w dest)) (fs w)) w,
     None).
Proof.
  intros Habs Hq [Hup _]. unfold MkdirAll.
  destruct (decide (dest = "")) as [->|_]; [done |].
  apply mkdir_chain_quiet; [done |]. intros p [_ Hp]%elem_of_prefixes. by apply Hup.
Qed.

End RoundTripFacts.

(** What a round trip through the streaming encoder does deliver.  For a
    readable directory tree on the serving side, an archive prefix made of
    plain names, an absolute destination root other than the root
    directory, and an empty destination on a machine that refuses no call:
    encoding with [addFolderToZip], closing the archive and decoding with
    [unzipDest] succeeds, and every file that the filter lets through is
    found with the same bytes, and its mode less the client's mask, below the
    destination root at the archive prefix followed by its relative path.
    The decoder does not strip the prefix; the relative path is the same
    only when the prefix is empty. *)
Theorem roundtrip_reproduces_files
    (dsk : gmap string tree) (folderPath zipPath dest : string) (t : tree) (w : world) :
  Filepath.IsAbs folderPath = true → dsk !! folderPath = Some t →
  tree_IsDir t = true → wf_tree t → readable t →
  Forall plain (Filepath.elems zipPath) →
  Filepath.IsAbs dest = true → GoOS.resolve w dest ≠ [] →
  faults w = [] → empty_destination w dest →
  snd (addFolderToZip dsk folderPath zipPath Zip.NewWriter) = WNil
  ∧ snd (roundtrip dsk folderPath zipPath dest w) = None
  ∧ ∀ here perm data,
      retained_file t here perm data →
      fs (fst (roundtrip dsk folderPath zipPath dest w))
        !! (GoOS.resolve w dest ++ Filepath.elems zipPath ++ here)
      = Some (NFile (N.ldiff perm (umask w)) data).
Proof.
  intros Habs Ht Hdir Hwf Hread Hzip Hdabs HD Hq Hempty.
  unfold roundtrip. rewrite (addFolderToZip_readable dsk folderPath zipPath t) by done.
  split; [done |]. cbn [fst snd Zip.Close Zip.sent Zip.zw_files Zip.zw_closed].
  unfold unzipDest. cbn [Zip.NewReader].
  rewrite MkdirAll_root_quiet by done. cbn [fst].
  unfold empty_destination in Hempty. rewrite !(resolve_abs w dest Hdabs) in *.
  set (D := Filepath.clean_elems true (Filepath.elems dest)) in *.
  set (w1 := with_fs _ w).
  destruct (files_of_shape) as [Hshape _]. destruct (Hshape t [] Hwf) as [Hitems Hanti].
  destruct Hempty as [Hup Hbelow].
  destruct (unzip_loop_writes dest (map (landing_of D zipPath) (files_of [] t)) w1)
    as (w' & Hloop & Hall & _).
  - done.
  - apply Forall_forall. intros l (item & -> & Hin)%list_elem_of_fmap.
    destruct (Hitems item Hin) as (ext & Hext & Hpl & Hne). simpl in Hext.
    apply landing_ok; try done; rewrite Hext; [by apply Hne | done].
  - rewrite map_map. cbn [landing_of l_target].
    rewrite (map_ext _ (λ item, (D ++ Filepath.elems zipPath) ++ item.1.1))
      by (intros; by rewrite app_assoc).
    rewrite <- (map_map (λ item, item.1.1) (app (D ++ Filepath.elems zipPath))).
    by apply antichain_below.
  - intros l (item & -> & Hin)%list_elem_of_fmap. cbn [landing_of l_target].
    destruct (Hitems item Hin) as (ext & Hext & Hpl & Hne). simpl in Hext.
    specialize (Hne Hdir).
    assert (Filepath.elems zipPath ++ item.1.1 ≠ []) as HXne.
    { rewrite Hext. by destruct (Filepath.elems zipPath), ext. }
    split.
    + unfold w1. cbn [fs with_fs]. rewrite lookup_add_dirs.
      rewrite Hbelow.
      * rewrite decide_False; [done |]. intros [_ Hp]%elem_of_prefixes.
        apply prefix_length in Hp. rewrite length_app in Hp.
        destruct (Filepath.elems zipPath ++ item.1.1); [done |]. simpl in Hp. lia.
      * by apply prefix_app_r.
      * intros Heq. apply (f_equal length) in Heq. rewrite length_app in Heq.
        destruct (Filepath.elems zipPath ++ item.1.1); [done |]. simpl in Heq. lia.
    + intros q (Hqne & Hqp & Hqneq)%elem_of_ancestors.
      unfold w1. cbn [fs with_fs]. apply is_file_add_dirs.
      apply prefix_of_app_cases in Hqp as [Hqp|(X' & HX' & ->)]; [by apply Hup |].
      unfold GoOS.is_file. rewrite Hbelow; [done | by apply prefix_app_r |].
      intros Heq. apply (f_equal length) in Heq. rewrite length_app in Heq.
      destruct X'; [done |]. simpl in Heq. lia.
  - assert (map l_file (map (landing_of D zipPath) (files_of [] t))
            = map (entry_of zipPath) (files_of [] t)) as Hfiles by (by rewrite map_map).
    rewrite Hfiles in Hloop. rewrite Hloop. split; [done |]. intros here perm data Hret%retained_file_in.
    cbn [fst].
    apply (Hall (landing_of D zipPath (here, perm, data))).
    apply list_elem_of_fmap. by exists (here, perm, data).
Qed.

Lemma unzipDest_rejects_escaping_entry_witness :
  let good1 := ZFile "settings.json" 420%N false (Stored new_settings) in
  let evil := ZFile "../../evil" 420%N false (Stored old_settings) in
  let good2 := ZFile "keybindings.json" 420%N false (Stored new_settings) in
  let r := unzipDest (ZipStream [good1; evil; good2]) "/home/u/cfg" empty_world in
  snd r = Some (ErrInvalidPath "/home/evil")
  ∧ fs (fst r) !! ["home"; "u"; "cfg"; "settings.json"] = Some (NFile 420%N new_settings)
  ∧ fs (fst r) !! ["home"; "evil"] = None
  ∧ fs (fst r) !! ["home"; "u"; "cfg"; "keybindings.json"] = None.
Proof.
  intros good1 evil good2 r. unfold r.
  change [good1; evil; good2] with ([good1] ++ evil :: [good2]).
  rewrite (unzipDest_rejects_escaping_entry "/home/u/cfg" [good1] [good2] evil empty_world).
  - vm_compute. repeat split.
  - reflexivity.
  - intros (rest & Hne & Heq). vm_compute in Heq. discriminate Heq.
Defined.

(** The guard compares strings, so it needs a root that pins the path
    down: with the relative root [..] the entry [../x] passes, and the file
    is written next to the root, not inside it. *)
Example guard_on_relative_dotdot_root :
  let w := World sample_host ["srv"; "a"; "b"] ∅ [] sample_umask sample_clock [] in
  let r := unzipDest (ZipStream [ZFile "../x" 420%N false (Stored new_settings)]) ".." w in
  GoOS.resolve w ".." = ["srv"; "a"]
  ∧ snd r = None
  ∧ fs (fst r) !! ["srv"; "x"] = Some (NFile 420%N new_settings).
Proof. vm_compute. repeat split. Qed.

(** A file that the decoder creates gets the mode of its entry less the
    mask of the process (here [0777] under the mask [022], which gives
    [0755]); a file that is already there keeps the mode it has ([0644]). *)
Example unzipDest_creates_under_mask :
  let f := ZFile "settings.json" 511%N false (Stored new_settings) in
  umask empty_world = 18%N
  ∧ fs (fst (unzipDest (ZipStream [f]) "/home/u/cfg" empty_world))
      !! ["home"; "u"; "cfg"; "settings.json"]
    = Some (NFile 493%N new_settings)
  ∧ fs (fst (unzipDest (ZipStream [f]) "/home/u/.config/Code/User" settled_world))
      !! (config_dir ++ ["settings.json"])
    = Some (NFile 420%N new_settings).
Proof. vm_compute. repeat split. Qed.

Section ScenarioFacts.

Lemma scenario_root_wf : wf_tree scenario_root.
Proof.
  simpl. repeat split; try done; rewrite list_elem_of_In; simpl; intuition discriminate.
Qed.

Lemma scenario_root_readable : readable scenario_root.
Proof. simpl. repeat split. Qed.

Lemma scenario_settings_retained :
  retained_file scenario_root ["settings.json"] 420%N (replicate 10 Byte.x7b).
Proof.
  split; [by eexists |]. intros [|[|k]] Hk; [reflexivity | reflexivity | simpl in Hk; lia].
Qed.

Lemma empty_world_destination (dest : string) : empty_destination empty_world dest.
Proof.
  split; intros q _.
  - unfold GoOS.is_file. cbn [fs empty_world]. by rewrite lookup_empty.
  - intros _. cbn [fs empty_world]. apply lookup_empty.
Qed.

End ScenarioFacts.

(** C4 on [main.go] as it stands.  The /sync handler encodes the settings
    directory with the archive prefix [User] and the client decodes into its
    settings directory, which is the directory [User] itself.  The round trip
    succeeds, but a file that passes the filter is not found below the
    destination at its own relative path: [settings.json] is written to
    [User/settings.json] below the settings directory, where VS Code does
    not read it.  The pipeline of the older revision, on the same directory
    and destination, writes it to its own relative path.  The third part is
    a whole run of the program as it stands, from the reply of the handler to
    the end of [runClient]. *)
Theorem roundtrip_nests_files_under_prefix :
  let dest := "/home/u/.config/Code/User" in
  let r := roundtrip flat_disk "/srv/User" "User" dest empty_world in
  (retained_file flat_root ["settings.json"] 420%N [Byte.x7b; Byte.x7d]
   ∧ empty_destination empty_world dest
   ∧ snd r = None
   ∧ fs (fst r) !! (config_dir ++ ["settings.json"]) = None
   ∧ fs (fst r) !! (config_dir ++ ["User"; "settings.json"])
     = Some (NFile 420%N [Byte.x7b; Byte.x7d]))
  ∧ (∃ s, Rev1.zipSource flat_disk "/srv/User" = Returns (Ok s)
          ∧ snd (Rev1.unzipDest s dest empty_world) = None
          ∧ fs (fst (Rev1.unzipDest s dest empty_world)) !! (config_dir ++ ["settings.json"])
            = Some (NFile 420%N [Byte.x7b; Byte.x7d]))
  ∧ (∃ hdr s,
        syncHandler sample_server "GET" = Responded (Response StatusOK hdr (Archive s))
        ∧ let w' := runClient (answering s) "10.0.0.2" "8080" empty_world in
          stdout w' = [MsgConnecting "http://10.0.0.2:8080/sync"; MsgUnpacking; MsgSyncDone]
          ∧ fs w' !! (config_dir ++ ["settings.json"]) = None
          ∧ fs w' !! (config_dir ++ ["User"; "settings.json"])
            = Some (NFile 420%N (replicate 10 Byte.x7b))).
Proof.
  intros dest r. split_and!.
  - split; [by eexists |].
    intros [|[|k]] Hk; [reflexivity | reflexivity | simpl in Hk; lia].
  - apply empty_world_destination.
  - vm_compute. reflexivity.
  - vm_compute. reflexivity.
  - vm_compute. reflexivity.
  - eexists. split; [vm_compute; reflexivity |]. split; vm_compute; reflexivity.
  - eexists _, _. split; [vm_compute; reflexivity |]. split_and!; vm_compute; reflexivity.
Qed.

Lemma roundtrip_reproduces_files_witness :
  snd (roundtrip scenario_disk "/srv/User" "User" "/home/u/cfg" empty_world) = None
  ∧ fs (fst (roundtrip scenario_disk "/srv/User" "User" "/home/u/cfg" empty_world))
      !! ["home"; "u"; "cfg"; "User"; "settings.json"]
    = Some (NFile 420%N (replicate 10 Byte.x7b)).
Proof.
  destruct (roundtrip_reproduces_files scenario_disk "/srv/User" "User" "/home/u/cfg"
              scenario_root empty_world) as (_ & Herr & Hfiles).
  - reflexivity.
  - reflexivity.
  - reflexivity.
  - apply scenario_root_wf.
  - apply scenario_root_readable.
  - repeat constructor; done.
  - reflexivity.
  - done.
  - reflexivity.
  - apply empty_world_destination.
  - split; [exact Herr |].
    exact (Hfiles ["settings.json"] 420%N (replicate 10 Byte.x7b) scenario_settings_retained).
Defined.

Lemma runClient_backup_failure_aborts_witness :
  runClient (answering new_archive) "10.0.0.2" "8080" locked_world
  = print MsgSyncCancelled
      (print (MsgBackupError (PathError OpRename "/home/u/.config/Code/User" EACCES))
         (print (MsgBackupTo "/home/u/.config/Code/User_backup_20240309-070501")
            (print (MsgConnecting "http://10.0.0.2:8080/sync") locked_world)))
  ∧ fs (runClient (answering new_archive) "10.0.0.2" "8080" locked_world) = fs locked_world.
Proof.
  apply (runClient_backup_failure_aborts unzipDest (answering new_archive) "10.0.0.2" "8080"
           "/home/u/.config/Code/User" new_archive locked_world);
    reflexivity.
Defined.

(** Filter exhaustiveness: under the same conditions every entry of the
    archive is the entry of a file whose relative path has no component in
    the exclusion map and does not end in [.sock] or [-journal]. *)
Theorem archive_has_no_excluded_entry
    (dsk : gmap string tree) (folderPath zipPath : string) (t : tree) (f : zfile) :
  Filepath.IsAbs folderPath = true → dsk !! folderPath = Some t →
  wf_tree t → readable t →
  f ∈ Zip.zw_files (fst (addFolderToZip dsk folderPath zipPath Zip.NewWriter)) →
  ∃ here perm data,
    f = entry_of zipPath (here, perm, data)
    ∧ (∀ part, is_component part (rel_of here) → part ∉ skipDirs)
    ∧ (∀ p, rel_of here ≠ p +:+ ".sock") ∧ (∀ p, rel_of here ≠ p +:+ "-journal").
Proof.
  intros Habs Ht Hwf Hread Hin.
  rewrite (addFolderToZip_readable dsk folderPath zipPath t) in Hin by done.
  cbn [fst Zip.zw_files] in Hin.
  apply list_elem_of_fmap in Hin as ([[here perm] data] & -> & Hin).
  apply listed_file_is_retained in Hin as [_ Hok]; [| done].
  specialize (Hok (length here) (le_n _)). rewrite firstn_all in Hok.
  exists here, perm, data. split; [done |].
  pose proof (shouldSkip_true_iff (rel_of here)) as Hiff.
  split_and!.
  - intros part Hc Hset. rewrite (proj2 Hiff) in Hok; [done |]. left. by exists part.
  - intros p Hp. rewrite (proj2 Hiff) in Hok; [done |]. right. left. by exists p.
  - intros p Hp. rewrite (proj2 Hiff) in Hok; [done |]. right. right. by exists p.
Qed.

Lemma archive_has_no_excluded_entry_witness :
  ∃ here perm data,
    ZFile "User/settings.json" 420%N false (Stored (replicate 10 Byte.x7b))
    = entry_of "User" (here, perm, data)
    ∧ (∀ part, is_component part (rel_of here) → part ∉ skipDirs)
    ∧ (∀ p, rel_of here ≠ p +:+ ".sock") ∧ (∀ p, rel_of here ≠ p +:+ "-journal").
Proof.
  apply (archive_has_no_excluded_entry scenario_disk "/srv/User" "User" scenario_root).
  - reflexivity.
  - reflexivity.
  - apply scenario_root_wf.
  - apply scenario_root_readable.
  - vm_compute. apply list_elem_of_here.
Defined.

Lemma addFolderToZip_archives_retained_files_witness :
  snd (addFolderToZip scenario_disk "/srv/User" "User" Zip.NewWriter) = WNil
  ∧ entry_of "User" (["settings.json"], 420%N, replicate 10 Byte.x7b)
    ∈ Zip.zw_files (fst (addFolderToZip scenario_disk "/srv/User" "User" Zip.NewWriter)).
Proof.
  destruct (addFolderToZip_archives_retained_files scenario_disk "/srv/User" "User"
              scenario_root) as [Hnil Hfiles].
  - reflexivity.
  - reflexivity.
  - apply scenario_root_wf.
  - apply scenario_root_readable.
  - split; [exact Hnil |]. apply Hfiles.
    exists ["settings.json"], 420%N, (replicate 10 Byte.x7b).
    split; [apply scenario_settings_retained | reflexivity].
Defined.

(** ** Failures below excluded names *)

Section KeptFacts.

Lemma plan_readable_kept (folderPath zipPath : string) :
  Filepath.IsAbs folderPath = true →
  (∀ d here, Forall plain here → wf_tree d → readable_kept here d →
      plan folderPath zipPath (walk_path folderPath here) d
      = flat_map (entry_steps zipPath) (files_of here d))
  ∧ (∀ ds here, Forall plain here → wf_forest ds → readable_kept_in here ds →
      plans folderPath zipPath (walk_path folderPath here) ds
      = flat_map (entry_steps zipPath) (files_in here ds)).
Proof.
  intros Habs. apply tree_forest_mutind.
  - intros perm data io here Hhere _ Hio. cbn [plan files_of readable_kept] in *.
    rewrite Rel_walk_path by done. cbn [fst].
    destruct (shouldSkip (rel_of here)); [done |]. by subst io.
  - intros rd children IH here Hhere Hwf Hread. cbn [plan files_of readable_kept] in *.
    rewrite Rel_walk_path by done. cbn [fst].
    destruct (shouldSkip (rel_of here)); [done |]. destruct Hread as [-> Hread]. by apply IH.
  - done.
  - intros name d IHd rest IHrest here Hhere (Hname & _ & Hwd & Hwrest) [Hrd Hrrest].
    cbn [plans files_in]. rewrite flat_map_app, <- walk_path_snoc.
    rewrite IHrest by done. rewrite IHd; [done | | done | done].
    apply Forall_app. split; [done | by constructor].
Qed.

Lemma root_entry_kept (t : tree) : readable_kept [] t → root_entry t = t.
Proof.
  destruct t as [perm data io|rd children]; [| done]. cbn [readable_kept].
  change (shouldSkip (rel_of [])) with false. cbn. by intros ->.
Qed.

End KeptFacts.

(** I/O errors at or below an excluded name do not reach the encoder: an
    excluded directory is skipped before it is listed and an excluded file
    before it is opened.  When everything that passes the filter is readable,
    [addFolderToZip] returns [nil] with one entry for each such file, whatever
    the state of the caches, logs and sockets. *)
Theorem addFolderToZip_ignores_excluded_failures
    (dsk : gmap string tree) (folderPath zipPath : string) (t : tree) :
  Filepath.IsAbs folderPath = true → dsk !! folderPath = Some t →
  wf_tree t → readable_kept [] t →
  addFolderToZip dsk folderPath zipPath Zip.NewWriter
  = (Zip.MkWriter (map (entry_of zipPath) (files_of [] t)) false, WNil).
Proof.
  intros Habs Ht Hwf Hread. rewrite addFolderToZip_run. unfold encoder_plan. rewrite Ht.
  rewrite root_entry_kept by done.
  change folderPath with (walk_path folderPath []) at 2.
  rewrite (proj1 (plan_readable_kept folderPath zipPath Habs)) by done.
  by rewrite run_entries.
Qed.

Lemma locked_cache_root_wf : wf_tree locked_cache_root.
Proof.
  simpl. repeat split; try done; rewrite list_elem_of_In; simpl; intuition discriminate.
Qed.

Lemma addFolderToZip_ignores_excluded_failures_witness :
  addFolderToZip locked_cache_disk "/srv/User" "User" Zip.NewWriter
  = (Zip.MkWriter [ZFile "User/settings.json" 420%N false (Stored (replicate 10 Byte.x7b))]
       false, WNil)
  ∧ ∃ e, Rev1.zipSource locked_cache_disk "/srv/User" = Returns (Err e).
Proof.
  split.
  - apply (addFolderToZip_ignores_excluded_failures locked_cache_disk "/srv/User" "User"
             locked_cache_root).
    + reflexivity.
    + reflexivity.
    + apply locked_cache_root_wf.
    + vm_compute. repeat split.
  - eexists. reflexivity.
Defined.

(** ** The local address and the command line *)

Section NetFacts.
Import GoStrings.

Lemma land_bit (x : N) (k : N) : (N.land x (2 ^ k) =? 0)%N = negb (N.testbit x k).
Proof.
  destruct (N.testbit x k) eqn:Hk; simpl.
  - apply N.eqb_neq. intros H0. apply (f_equal (λ y, N.testbit y k)) in H0.
    rewrite N.land_spec, Hk, N.pow2_bits_true, N.bits_0 in H0. discriminate.
  - apply N.eqb_eq, N.bits_inj. intros n.
    rewrite N.land_spec, N.bits_0, N.pow2_bits_eqb.
    destruct (N.eqb_spec k n) as [<-|_]; [by rewrite Hk | apply andb_false_r].
Qed.

Lemma HasPrefix_iff (s p : string) : HasPrefix s p = true ↔ ∃ rest, s = p +:+ rest.
Proof.
  split; [apply prefix_inv |]. intros [rest ->]. apply prefix_app.
Qed.

Lemma no_excluded_prefix (name : string) :
  existsb (HasPrefix name) excludedPrefixes = false
  ↔ ∀ p, p ∈ excludedPrefixes → ∀ rest, name ≠ p +:+ rest.
Proof.
  rewrite <- not_true_iff_false, existsb_exists. split.
  - intros Hex p Hp rest Hname. apply Hex. exists p.
    split; [by apply list_elem_of_In | apply HasPrefix_iff; by exists rest].
  - intros Hno (p & Hp & [rest Hrest]%HasPrefix_iff).
    apply list_elem_of_In in Hp. by apply (Hno p Hp rest).
Qed.

(** The test that [getLocalIP] makes before it reads the addresses. *)
Lemma lan_interface_test (i : Net.Interface) :
  ((N.land (Net.Flags i) Net.FlagUp =? 0)%N
   || negb (N.land (Net.Flags i) Net.FlagLoopback =? 0)%N
   || negb (N.land (Net.Flags i) Net.FlagPointToPoint =? 0)%N) = false
  ∧ existsb (HasPrefix (Net.Name i)) excludedPrefixes = false
  ↔ lan_interface i.
Proof.
  change Net.FlagUp with (2 ^ 0)%N. change Net.FlagLoopback with (2 ^ 2)%N.
  change Net.FlagPointToPoint with (2 ^ 3)%N. rewrite !land_bit, no_excluded_prefix.
  unfold lan_interface.
  destruct (N.testbit (Net.Flags i) 0), (N.testbit (Net.Flags i) 2),
    (N.testbit (Net.Flags i) 3); cbn [negb orb]; intuition discriminate.
Qed.

Lemma To4_length (ip p4 : Net.IP) : Net.To4 ip = Some p4 → length p4 = 4.
Proof.
  unfold Net.To4. destruct (length ip =? 4) eqn:H4.
  { intros [= <-]. by apply Nat.eqb_eq. }
  destruct (length ip =? 16) eqn:H16; [| done]. apply Nat.eqb_eq in H16.
  destruct (_ && _ && _); [| done]. intros [= <-]. rewrite length_drop. lia.
Qed.

Lemma first_ipv4_Some (addrs : list Net.Addr) (s : string) :
  first_ipv4 addrs = Some s ↔
  ∃ before ip after p4,
    addrs = before ++ Net.IPNet ip :: after ∧ Net.To4 ip = Some p4 ∧ s = Net.dotted p4
    ∧ ∀ ip', Net.IPNet ip' ∈ before → Net.To4 ip' = None.
Proof.
  induction addrs as [|a addrs IH]; simpl.
  { split; [done |]. intros ([|? ?] & ? & ? & ? & ? & _); done. }
  split.
  - destruct a as [ip|].
    + destruct (Net.To4 ip) as [p4|] eqn:H4.
      * intros [= <-]. exists [], ip, addrs, p4. split_and!; try done.
        by intros ip' ?%elem_of_nil.
      * intros (before & ip1 & after & p4 & -> & Hp & -> & Hno)%IH.
        exists (Net.IPNet ip :: before), ip1, after, p4. split_and!; try done.
        intros ip' [[= ->]|Hin]%elem_of_cons; [done | by apply Hno].
    + intros (before & ip1 & after & p4 & -> & Hp & -> & Hno)%IH.
      exists (Net.OtherAddr :: before), ip1, after, p4. split_and!; try done.
      intros ip' [?|Hin]%elem_of_cons; [done | by apply Hno].
  - intros (before & ip1 & after & p4 & Heq & Hp & -> & Hno).
    destruct before as [|b before]; simpl in Heq; injection Heq as -> ->.
    + by rewrite Hp.
    + assert (first_ipv4 (before ++ Net.IPNet ip1 :: after) = Some (Net.dotted p4)) as Hrest.
      { apply IH. exists before, ip1, after, p4. split_and!; try done.
        intros ip' Hin. apply Hno. by apply elem_of_cons; right. }
      destruct b as [ip|]; [| done].
      rewrite (Hno ip); [done | apply list_elem_of_here].
Qed.

Lemma first_ipv4_None (addrs : list Net.Addr) :
  first_ipv4 addrs = None ↔ ∀ ip, Net.IPNet ip ∈ addrs → Net.To4 ip = None.
Proof.
  induction addrs as [|a addrs IH]; simpl.
  { split; [by intros _ ip ?%elem_of_nil | done]. }
  destruct a as [ip|].
  - destruct (Net.To4 ip) as [p4|] eqn:H4.
    + split; [done |]. intros H. rewrite (H ip) in H4; [done | apply list_elem_of_here].
    + rewrite IH. split.
      * intros H ip' [[= ->]|Hin]%elem_of_cons; [done | by apply H].
      * intros H ip' Hin. apply H. by apply elem_of_cons; right.
  - rewrite IH. split.
    + intros H ip' [?|Hin]%elem_of_cons; [done | by apply H].
    + intros H ip' Hin. apply H. by apply elem_of_cons; right.
Qed.

Lemma dotted_nonempty (p4 : Net.IP) : length p4 = 4 → Net.dotted p4 ≠ "".
Proof.
  destruct p4 as [|a [|b [|c [|d [|? ?]]]]]; try done. intros _.
  unfold Net.dotted. cbn [map GoStrings.Join].
  destruct (Net.uitoa (Byte.to_N a)); done.
Qed.

(** An interface that [getLocalIP] passes over. *)
Definition no_lan_address (i : Net.Interface) : Prop :=
  lan_interface i → ∀ p4, ¬ ipv4_of i p4.

Lemma getLocalIP_loop_skip (i : Net.Interface) (rest : list Net.Interface) :
  no_lan_address i → getLocalIP_loop (i :: rest) = getLocalIP_loop rest.
Proof.
  intros Hno. cbn [getLocalIP_loop].
  destruct (_ || _ || _) eqn:Hflags; [done |].
  destruct (existsb _ _) eqn:Hname; [done |].
  assert (lan_interface i) as Hlan by (by apply lan_interface_test).
  destruct (Net.Addrs i) as [addrs|e] eqn:Haddrs; [| done].
  destruct (first_ipv4 addrs) as [s|] eqn:Hfirst; [| done].
  apply first_ipv4_Some in Hfirst as (before & ip & after & p4 & -> & Hp & _ & _).
  exfalso. apply (Hno Hlan p4). exists (before ++ Net.IPNet ip :: after), ip.
  split_and!; [done | | done]. apply elem_of_app. right. apply list_elem_of_here.
Qed.

Lemma getLocalIP_loop_spec (ifs : list Net.Interface) :
  (getLocalIP_loop ifs = "" ∧ Forall no_lan_address ifs)
  ∨ ∃ pre i post addrs before ip after p4,
      ifs = pre ++ i :: post ∧ Forall no_lan_address pre ∧ lan_interface i
      ∧ Net.Addrs i = Ok addrs ∧ addrs = before ++ Net.IPNet ip :: after
      ∧ (∀ ip', Net.IPNet ip' ∈ before → Net.To4 ip' = None)
      ∧ Net.To4 ip = Some p4 ∧ getLocalIP_loop ifs = Net.dotted p4.
Proof.
  induction ifs as [|i ifs IH]; [by left |].
  assert (no_lan_address i →
          (getLocalIP_loop (i :: ifs) = "" ∧ Forall no_lan_address (i :: ifs))
          ∨ ∃ pre i0 post addrs before ip after p4,
              i :: ifs = pre ++ i0 :: post ∧ Forall no_lan_address pre ∧ lan_interface i0
              ∧ Net.Addrs i0 = Ok addrs ∧ addrs = before ++ Net.IPNet ip :: after
              ∧ (∀ ip', Net.IPNet ip' ∈ before → Net.To4 ip' = None)
              ∧ Net.To4 ip = Some p4 ∧ getLocalIP_loop (i :: ifs) = Net.dotted p4) as Hskip.
  { intros Hno. rewrite getLocalIP_loop_skip by done.
    destruct IH as [[He Hall]|(pre & i0 & post & addrs & before & ip & after & p4 & -> & H)].
    - left. split; [done | by constructor].
    - right. exists (i :: pre), i0, post, addrs, before, ip, after, p4.
      destruct H as (Hpre & H). split_and!; [done | by constructor | apply H..]. }
  destruct (Net.Addrs i) as [addrs|e] eqn:Haddrs.
  - destruct (first_ipv4 addrs) as [s|] eqn:Hfirst.
    + destruct (((N.land (Net.Flags i) Net.FlagUp =? 0)%N
                 || negb (N.land (Net.Flags i) Net.FlagLoopback =? 0)%N
                 || negb (N.land (Net.Flags i) Net.FlagPointToPoint =? 0)%N)) eqn:Hflags.
      { apply Hskip. intros Hlan. apply lan_interface_test in Hlan as [Hf _]. congruence. }
      destruct (existsb (HasPrefix (Net.Name i)) excludedPrefixes) eqn:Hname.
      { apply Hskip. intros Hlan. apply lan_interface_test in Hlan as [_ Hn]. congruence. }
      right. apply first_ipv4_Some in Hfirst as (before & ip & after & p4 & -> & Hp & -> & Hno).
      exists [], i, ifs, (before ++ Net.IPNet ip :: after), before, ip, after, p4.
      split_and!; try done; [by apply lan_interface_test |].
      cbn [getLocalIP_loop]. rewrite Hflags, Hname, Haddrs.
      assert (first_ipv4 (before ++ Net.IPNet ip :: after) = Some (Net.dotted p4)) as ->; [| done].
      apply first_ipv4_Some. by exists before, ip, after, p4.
    + apply Hskip. intros _ p4 (addrs' & ip & Ha & Hin & Hp).
      rewrite Haddrs in Ha. injection Ha as <-.
      rewrite first_ipv4_None in Hfirst. by rewrite (Hfirst ip Hin) in Hp.
  - apply Hskip. intros _ p4 (addrs' & ip & Ha & _). congruence.
Qed.

End NetFacts.

(** When [getLocalIP] returns an address, it is the dotted decimal form of
    the first IPv4 network address of the first interface that is up, is
    neither a loopback nor a point-to-point link, is not named like a virtual
    interface and has such an address. *)
Theorem getLocalIP_first_lan_address (ifs : list Net.Interface) (s : string) :
  getLocalIP (Ok ifs) = s → s ≠ "" →
  ∃ pre i post addrs before ip after b1 b2 b3 b4,
    ifs = pre ++ i :: post
    ∧ (∀ j, j ∈ pre → lan_interface j → ∀ p4, ¬ ipv4_of j p4)
    ∧ lan_interface i
    ∧ Net.Addrs i = Ok addrs ∧ addrs = before ++ Net.IPNet ip :: after
    ∧ (∀ ip', Net.IPNet ip' ∈ before → Net.To4 ip' = None)
    ∧ Net.To4 ip = Some [b1; b2; b3; b4]
    ∧ s = Net.uitoa (Byte.to_N b1) +:+ "." +:+ Net.uitoa (Byte.to_N b2) +:+ "."
          +:+ Net.uitoa (Byte.to_N b3) +:+ "." +:+ Net.uitoa (Byte.to_N b4).
Proof.
  intros Hs Hne. cbn [getLocalIP] in Hs.
  destruct (getLocalIP_loop_spec ifs)
    as [[He _]|(pre & i & post & addrs & before & ip & after & p4 & H)]; [congruence |].
  destruct H as (-> & Hpre & Hlan & Haddrs & -> & Hbefore & Hp & Hres).
  pose proof (To4_length _ _ Hp) as Hlen.
  destruct p4 as [|b1 [|b2 [|b3 [|b4 [|? ?]]]]]; try done.
  exists pre, i, post, (before ++ Net.IPNet ip :: after), before, ip, after, b1, b2, b3, b4.
  split_and!; try done.
  - intros j Hj. by apply (proj1 (Forall_forall _ _) Hpre).
  - by rewrite <- Hs, Hres.
Qed.

(** [getLocalIP] returns the empty string exactly when the interfaces cannot
    be listed or no eligible interface has an IPv4 network address. *)
Theorem getLocalIP_empty_iff (r : result (list Net.Interface)) :
  getLocalIP r = "" ↔
  match r with
  | Err _ => True
  | Ok ifs => ∀ i, i ∈ ifs → lan_interface i → ∀ p4, ¬ ipv4_of i p4
  end.
Proof.
  destruct r as [ifs|e]; [| done]. cbn [getLocalIP].
  destruct (getLocalIP_loop_spec ifs)
    as [[He Hall]|(pre & i & post & addrs & before & ip & after & p4 & H)].
  - split; [| done]. intros _ i Hi. by apply (proj1 (Forall_forall _ _) Hall).
  - destruct H as (-> & Hpre & Hlan & Haddrs & -> & Hbefore & Hp & Hres).
    split.
    + intros He. rewrite Hres in He. apply dotted_nonempty in He; [done |].
      by apply (To4_length ip).
    + intros Hno. exfalso. apply (Hno i) with (p4 := p4); [| done |].
      * apply elem_of_app. right. apply list_elem_of_here.
      * exists (before ++ Net.IPNet ip :: after), ip. split_and!; [done | | done].
        apply elem_of_app. right. apply list_elem_of_here.
Qed.

Lemma getLocalIP_first_lan_address_witness :
  getLocalIP (Ok sample_interfaces) = "192.168.1.7"
  ∧ ∃ pre i post addrs before ip after b1 b2 b3 b4,
      sample_interfaces = pre ++ i :: post
      ∧ (∀ j, j ∈ pre → lan_interface j → ∀ p4, ¬ ipv4_of j p4)
      ∧ lan_interface i
      ∧ Net.Addrs i = Ok addrs ∧ addrs = before ++ Net.IPNet ip :: after
      ∧ (∀ ip', Net.IPNet ip' ∈ before → Net.To4 ip' = None)
      ∧ Net.To4 ip = Some [b1; b2; b3; b4]
      ∧ "192.168.1.7"
        = Net.uitoa (Byte.to_N b1) +:+ "." +:+ Net.uitoa (Byte.to_N b2) +:+ "."
          +:+ Net.uitoa (Byte.to_N b3) +:+ "." +:+ Net.uitoa (Byte.to_N b4).
Proof.
  split; [reflexivity |].
  apply (getLocalIP_first_lan_address sample_interfaces "192.168.1.7"); [reflexivity | done].
Defined.

(** [main] starts the server exactly when the first argument is [server],
    and the client exactly when it is [client] and another argument
    follows; in both cases the port is the default one: a [-port] flag in
    front of the command is parsed, but then [os.Args[1]] is the flag and
    not a command, and behind the command the flag is never parsed.  The
    invocation that the usage text gives as an example is answered with the
    unknown-command message. *)
Theorem main_port_is_always_default (Args : list string) :
  (∀ port, main Args = Returns (RunServer port)
           ↔ (∃ prog rest, Args = prog :: "server" :: rest) ∧ port = "8080")
  ∧ (∀ ip port, main Args = Returns (RunClient ip port)
                ↔ (∃ prog rest, Args = prog :: "client" :: ip :: rest) ∧ port = "8080")
  ∧ main ["vscode-settings-sync"; "-port"; "9000"; "client"; "192.168.1.50"]
    = Returns UnknownCommand.
Proof.
  split_and!; [| | reflexivity].
  - intros port. split.
    + destruct Args as [|prog [|cmd rest]]; [done | done |].
      unfold main. destruct (Flag.Parse DEFAULT_PORT (cmd :: rest)) as [p r| |] eqn:Hp;
        [| done | done].
      cbn [length Nat.ltb Nat.leb nth].
      destruct (decide (cmd = "server")) as [->|Hs].
      * intros [= <-]. cbn in Hp. injection Hp as <- _. split; [by eexists _, _ | done].
      * destruct (decide (cmd = "client")); [| done]. by destruct rest.
    + intros [(prog & rest & ->) ->]. reflexivity.
  - intros ip port. split.
    + destruct Args as [|prog [|cmd rest]]; [done | done |].
      unfold main. destruct (Flag.Parse DEFAULT_PORT (cmd :: rest)) as [p r| |] eqn:Hp;
        [| done | done].
      cbn [length Nat.ltb Nat.leb nth].
      destruct (decide (cmd = "server")) as [->|Hs]; [done |].
      destruct (decide (cmd = "client")) as [->|Hc]; [| done].
      destruct rest as [|ip' rest']; [done |]. cbn.
      intros [= <- <-]. cbn in Hp. injection Hp as <- _. split; [by eexists _, _ | done].
    + intros [(prog & rest & ->) ->]. reflexivity.
Qed.

(** ** The decoder stays inside its root *)

Section ConfinedFacts.
Import GoStrings Filepath GoOS.

Lemma confined_refl (root : list string) (m : gmap (list string) node) : confined root m m.
Proof. intros q _. destruct (m !! q); [done | by left]. Qed.

Lemma confined_trans (root : list string) (m1 m2 m3 : gmap (list string) node) :
  confined root m1 m2 → confined root m2 m3 → confined root m1 m3.
Proof.
  intros H12 H23 q Hq. specialize (H12 q Hq). specialize (H23 q Hq).
  destruct (m1 !! q) as [x|].
  - by rewrite H12 in H23.
  - destruct H12 as [H12|[Hp [perm H12]]]; rewrite H12 in H23; [done |].
    right. split; [done | by exists perm].
Qed.

Lemma confined_insert_below (root p : list string) (x : node) (m : gmap (list string) node) :
  below root p → confined root m (<[p := x]> m).
Proof.
  intros Hp q Hq. rewrite lookup_insert_ne by (intros ->; done).
  destruct (m !! q); [done | by left].
Qed.

Lemma confined_insert_dir (root p : list string) (perm : N) (m : gmap (list string) node) :
  m !! p = None → p `prefix_of` root → confined root m (<[p := NDir perm]> m).
Proof.
  intros Hfree Hp q Hq. destruct (decide (p = q)) as [<-|Hne].
  - rewrite Hfree, lookup_insert_eq. right. split; [done | by exists perm].
  - rewrite lookup_insert_ne by done. destruct (m !! q); [done | by left].
Qed.

Lemma mkdir_chain_confined (root : list string) (path : string) (perm : N)
    (ps : list (list string)) (w : world) :
  (∀ p, p ∈ ps → p `prefix_of` root ∨ below root p) →
  confined root (fs w) (fs (fst (mkdir_chain path perm ps w))).
Proof.
  revert w. induction ps as [|p ps IH]; intros w Hps; simpl; [apply confined_refl |].
  assert (∀ p', p' ∈ ps → p' `prefix_of` root ∨ below root p') as Hps'.
  { intros p' Hin. apply Hps. by apply elem_of_cons; right. }
  destruct (fs w !! p) as [[m d|m]|] eqn:Hp; simpl; [apply confined_refl | by apply IH |].
  destruct (faulty w OpMkdir p); simpl; [apply confined_refl |].
  eapply confined_trans; [| by apply IH]. cbn [fs with_fs].
  destruct (Hps p ltac:(apply list_elem_of_here)) as [Hpre|Hbelow].
  - by apply confined_insert_dir.
  - by apply confined_insert_below.
Qed.

Lemma prefix_at_or_below (root rest q : list string) :
  q `prefix_of` root ++ rest → q `prefix_of` root ∨ below root q.
Proof.
  intros [Hq|(X' & HX' & ->)]%prefix_of_app_cases; [by left | right; by exists X'].
Qed.

(** [os.MkdirAll] on a path at or below the root. *)
Lemma MkdirAll_confined (root rest : list string) (path : string) (perm : N) (w : world) :
  resolve w path = root ++ rest →
  confined root (fs w) (fs (fst (MkdirAll path perm w))).
Proof.
  intros Hres. unfold MkdirAll. destruct (decide (path = "")); [apply confined_refl |].
  apply mkdir_chain_confined. intros p [_ Hp]%elem_of_prefixes.
  rewrite Hres in Hp. by apply prefix_at_or_below in Hp.
Qed.

Lemma OpenFile_confined (root : list string) (path : string) (perm : N) (w : world) :
  below root (resolve w path) →
  confined root (fs w) (fs (fst (OpenFile_create_trunc path perm w)))
  ∧ ∀ h, snd (OpenFile_create_trunc path perm w) = Ok h → h = resolve w path.
Proof.
  intros Hb. unfold OpenFile_create_trunc.
  repeat case_match; cbn [fst snd fs with_fs];
    (split; [first [apply confined_refl | by apply confined_insert_below] | ]);
    intros h [= <-]; congruence.
Qed.

Lemma Write_confined (root h : list string) (data : bytes) (w : world) :
  below root h → confined root (fs w) (fs (fst (GoOS.Write h data w))).
Proof.
  intros Hb. unfold GoOS.Write.
  repeat case_match; cbn [fst fs with_fs];
    first [apply confined_refl | by apply confined_insert_below].
Qed.

Lemma Copy_confined (root h : list string) (rc : zbody) (w : world) :
  below root h → confined root (fs w) (fs (fst (Copy h rc w))).
Proof.
  intros Hb. unfold Copy. destruct rc as [data| |partial].
  - by apply Write_confined.
  - apply confined_refl.
  - pose proof (Write_confined root h partial w Hb) as H.
    by destruct (GoOS.Write h partial w) as [w' [e|]].
Qed.

(** Where an entry that passes the guard is written. *)
Lemma guard_target (dest name : string) :
  IsAbs dest = true →
  HasPrefix (Filepath.Join [dest; name]) (Clean dest +:+ "/") = true →
  ∃ T t, Filepath.Join [dest; name] = render true (T ++ [t])
         ∧ Forall plain T ∧ plain t
         ∧ below (clean_elems true (elems dest)) (T ++ [t])
         ∧ ∃ rest, T = clean_elems true (elems dest) ++ rest.
Proof.
  intros Habs Hguard. rewrite Join_dest_name by done.
  rewrite Join_dest_name, Clean_dest in Hguard by done.
  set (D := clean_elems true (elems dest)) in *.
  set (F := clean_elems true (elems dest ++ elems name)) in *.
  assert (Forall plain D) as HD by apply clean_elems_rooted_plain, elems_good.
  assert (Forall plain F) as HF.
  { apply clean_elems_rooted_plain, Forall_app. split; apply elems_good. }
  apply HasPrefix_render_inv in Hguard as (rest & Hne & Heq);
    [| by apply Forall_plain_good..].
  destruct (exists_last Hne) as (rest' & t & ->).
  exists (D ++ rest'), t. rewrite <- app_assoc, <- Heq.
  rewrite Heq in HF. rewrite app_assoc in HF. apply Forall_app in HF as [HT Ht].
  inversion Ht; subst. split_and!; try done.
  - by exists (rest' ++ [t]).
  - by exists rest'.
Qed.

Lemma unzip_entry_confined (dest : string) (f : zfile) (w : world) :
  IsAbs dest = true →
  confined (clean_elems true (elems dest)) (fs w) (fs (fst (unzip_entry dest f w))).
Proof.
  intros Habs. unfold unzip_entry.
  destruct (HasPrefix _ _) eqn:Hguard; cbn [negb]; [| apply confined_refl].
  destruct (guard_target dest (zname f) Habs Hguard)
    as (T & t & Hpath & HT & Ht & Hbelow & rest & HTD).
  assert (Forall plain (T ++ [t])) as HTt by (apply Forall_app; split; [done | by constructor]).
  rewrite Hpath. destruct (Zip.IsDir f).
  { cbn [fst]. destruct Hbelow as (r & _ & Hr).
    apply (MkdirAll_confined _ r). by rewrite resolve_render. }
  rewrite Dir_render by done.
  pose proof (MkdirAll_confined (clean_elems true (elems dest)) rest (render true T)
                perm0755 w) as Hmk.
  rewrite resolve_render in Hmk by done. specialize (Hmk HTD).
  destruct (MkdirAll (render true T) perm0755 w) as [w1 [e|]]; [done |]. cbn [fst] in Hmk.
  eapply confined_trans; [exact Hmk |].
  destruct (OpenFile_confined (clean_elems true (elems dest)) (render true (T ++ [t]))
              (Zip.Mode f) w1) as [Hopen Hh].
  { by rewrite resolve_render. }
  destruct (OpenFile_create_trunc _ _ w1) as [w2 [h|e]]; [| done]. cbn [fst snd] in *.
  eapply confined_trans; [exact Hopen |].
  destruct (Zip.Open f) as [rc|e]; [| apply confined_refl].
  apply Copy_confined. rewrite (Hh h eq_refl). by rewrite resolve_render.
Qed.

Lemma old_unzip_entry_confined (dest : string) (f : zfile) (w : world) :
  IsAbs dest = true →
  confined (clean_elems true (elems dest)) (fs w) (fs (fst (Rev1.unzip_entry dest f w))).
Proof.
  intros Habs. unfold Rev1.unzip_entry.
  destruct (HasPrefix _ _) eqn:Hguard; cbn [negb]; [| apply confined_refl].
  destruct (guard_target dest (zname f) Habs Hguard)
    as (T & t & Hpath & HT & Ht & Hbelow & rest & HTD).
  assert (Forall plain (T ++ [t])) as HTt by (apply Forall_app; split; [done | by constructor]).
  rewrite Hpath. destruct (Zip.IsDir f).
  { cbn [fst]. destruct Hbelow as (r & _ & Hr).
    apply (MkdirAll_confined _ r). by rewrite resolve_render. }
  destruct (OpenFile_confined (clean_elems true (elems dest)) (render true (T ++ [t]))
              (Zip.Mode f) w) as [Hopen Hh].
  { by rewrite resolve_render. }
  destruct (OpenFile_create_trunc _ _ w) as [w2 [h|e]]; [| done]. cbn [fst snd] in *.
  eapply confined_trans; [exact Hopen |].
  destruct (Zip.Open f) as [rc|e]; [| apply confined_refl].
  apply Copy_confined. rewrite (Hh h eq_refl). by rewrite resolve_render.
Qed.

Lemma unzip_loop_confined (entry : string → zfile → world → world * option error)
    (root : list string) (dest : string) (files : list zfile) (w : world) :
  (∀ f w, confined root (fs w) (fs (fst (entry dest f w)))) →
  confined root (fs w) (fs (fst (unzip_loop entry dest files w))).
Proof.
  intros Hentry. revert w. induction files as [|f files IH]; intros w; simpl.
  { apply confined_refl. }
  pose proof (Hentry f w) as H1.
  destruct (entry dest f w) as [w' [e|]]; [done |]. cbn [fst] in H1.
  eapply confined_trans; [exact H1 | apply IH].
Qed.

Lemma decoder_confined (entry : string → zfile → world → world * option error)
    (reader : stream) (dest : string) (w : world) :
  IsAbs dest = true →
  (∀ f w, confined (clean_elems true (elems dest)) (fs w) (fs (fst (entry dest f w)))) →
  confined (resolve w dest) (fs w)
    (fs (fst (let w := fst (MkdirAll dest perm0755 w) in
              match Zip.NewReader reader with
              | Err e => (w, Some e)
              | Ok files => unzip_loop entry dest files w
              end))).
Proof.
  intros Habs Hentry. rewrite resolve_abs by done.
  assert (confined (clean_elems true (elems dest)) (fs w)
            (fs (fst (MkdirAll dest perm0755 w)))) as Hroot.
  { apply (MkdirAll_confined _ []). by rewrite app_nil_r, resolve_abs. }
  cbv zeta. destruct (Zip.NewReader reader) as [files|e]; [| done].
  eapply confined_trans; [exact Hroot |]. by apply unzip_loop_confined.
Qed.

End ConfinedFacts.

(** Whatever the archive holds and whatever the host refuses, decoding into
    a root given as a cleaned absolute path (as [getVSCodePath] returns it)
    leaves everything outside the subtree of the root as it was, except that
    missing directories on the way to the root are created.  This holds for
    the decoder of both revisions. *)
Theorem unzipDest_confined_to_root (reader : stream) (dest : string) (w : world) :
  Filepath.IsAbs dest = true → Filepath.Clean dest = dest →
  confined (GoOS.resolve w dest) (fs w) (fs (fst (unzipDest reader dest w)))
  ∧ confined (GoOS.resolve w dest) (fs w) (fs (fst (Rev1.unzipDest reader dest w))).
Proof.
  intros Habs _. split.
  - apply (decoder_confined unzip_entry); [done |]. intros f w'. by apply unzip_entry_confined.
  - apply (decoder_confined Rev1.unzip_entry); [done |].
    intros f w'. by apply old_unzip_entry_confined.
Qed.

(** ** An entry that meets an existing file *)

Section EntryFacts.
Import GoStrings Filepath GoOS.

(** The path of an entry whose name is made of plain elements. *)
Lemma Join_dest_rel (dest : string) (here : list string) :
  IsAbs dest = true → Forall plain here →
  Filepath.Join [dest; GoStrings.Join here "/"]
  = render true (clean_elems true (elems dest) ++ here).
Proof.
  intros Habs Hpl. rewrite Join_dest_name by done.
  rewrite elems_Join by by apply Forall_plain_good.
  by rewrite clean_elems_app_plain.
Qed.

Lemma Join_not_dir (here : list string) :
  here ≠ [] → Forall plain here → HasSuffix (GoStrings.Join here "/") "/" = false.
Proof.
  intros Hne Hpl.
  pose proof (render_no_trailing_sep false here Hne (Forall_plain_good _ Hpl)) as H.
  by destruct here.
Qed.

Lemma under_file_add_dirs (perm : N) (ps : list (list string))
    (m : gmap (list string) node) (T : list string) :
  (∀ q, q ∈ ancestors T → is_file m q = false) →
  under_file (add_dirs perm ps m) T = false.
Proof.
  intros Hanc. unfold under_file. apply not_true_is_false.
  intros (q & Hin & Hfile)%existsb_exists. apply list_elem_of_In in Hin.
  by rewrite (is_file_add_dirs _ _ _ _ (Hanc q Hin)) in Hfile.
Qed.

(** One file entry on a host that refuses nothing: the missing directories
    above the target are created, the target is created or truncated, and
    the bytes that the entry delivers are written. *)
Lemma unzip_entry_quiet (dest : string) (f : zfile) (w : world) (T : list string) :
  faults w = [] →
  Filepath.Join [dest; zname f] = render true T →
  HasPrefix (render true T) (Clean dest +:+ "/") = true →
  Zip.IsDir f = false →
  T ≠ [] → Forall plain T →
  (∀ q, q ∈ ancestors T → is_file (fs w) q = false) →
  (∀ m, fs w !! T ≠ Some (NDir m)) →
  unzip_entry dest f w
  = (with_fs (<[T := NFile (match fs w !! T with
                           | Some (NFile m _) => m
                           | _ => N.ldiff (zperm f) (umask w)
                           end)
                       (body_bytes (zbody_of f))]>
                (add_dirs (N.ldiff perm0755 (umask w)) (ancestors T) (fs w))) w,
     body_error (zbody_of f)).
Proof.
  intros Hq Hpath Hguard Hdir Hne Hplain Hanc Hnodir.
  destruct (exists_last Hne) as (T' & t & ->).
  pose proof Hplain as Hplain'.
  apply Forall_app in Hplain as [HT' Ht]. inversion Ht as [|? ? Hpt _]; subst.
  unfold unzip_entry. rewrite Hpath, Hguard, Hdir. cbn [negb].
  rewrite Dir_render by done. unfold MkdirAll.
  destruct (decide (render true T' = "")) as [He|_];
    [by apply render_rooted_nonempty in He |].
  rewrite resolve_render by done. rewrite ancestors_snoc in *.
  rewrite mkdir_chain_quiet by done.
  set (m1 := add_dirs (N.ldiff perm0755 (umask w)) (prefixes T') (fs w)).
  assert (under_file m1 (T' ++ [t]) = false) as Hunder.
  { apply under_file_add_dirs. by rewrite ancestors_snoc. }
  assert (∃ m, node_at m1 (removelast (T' ++ [t])) = Some (NDir m)) as [mp Hparent].
  { rewrite removelast_snoc.
    destruct T' as [|a T'']; [by eexists |]. unfold node_at, m1.
    rewrite lookup_add_dirs.
    assert (a :: T'' ∈ prefixes (a :: T'')) as Hin by (by apply elem_of_prefixes).
    pose proof (Hanc _ Hin) as Hnf. unfold is_file in Hnf.
    destruct (fs w !! (a :: T'')) as [[]|]; [done | by eexists |].
    rewrite decide_True by done. by eexists. }
  assert (m1 !! (T' ++ [t]) = fs w !! (T' ++ [t])) as Hsame.
  { unfold m1. rewrite lookup_add_dirs. destruct (fs w !! (T' ++ [t])); [done |].
    rewrite decide_False; [done |].
    intros [_ [k Hk]]%elem_of_prefixes. apply (f_equal length) in Hk.
    rewrite !length_app in Hk. simpl in Hk. lia. }
  unfold OpenFile_create_trunc.
  destruct (decide (render true (T' ++ [t]) = "")) as [He|_];
    [by apply render_rooted_nonempty in He |].
  rewrite resolve_render by done. cbn [fs with_fs faults].
  rewrite faulty_quiet by done. cbn [fs with_fs]. rewrite Hunder.
  destruct (T' ++ [t]) as [|a0 T0] eqn:HT0; [done |]. rewrite <- HT0 in *.
  rewrite Hparent, Hsame.
  assert (∀ (m0 : N) (w2 : world),
            faults w2 = [] → fs w2 !! (T' ++ [t]) = Some (NFile m0 []) →
            match Zip.Open f with
            | Err e => (w2, Some e)
            | Ok rc => Copy (T' ++ [t]) rc w2
            end
            = (with_fs (<[T' ++ [t] := NFile m0 (body_bytes (zbody_of f))]> (fs w2)) w2,
               body_error (zbody_of f))) as Hcopy.
  { intros m0 w2 Hq2 Hm2. unfold Zip.Open, Copy.
    destruct (zbody_of f) as [data| |partial]; cbn [body_bytes body_error].
    - by rewrite (Write_quiet _ _ [] m0).
    - rewrite insert_id by done. by destruct w2.
    - by rewrite (Write_quiet _ _ [] m0). }
  destruct (fs w !! (T' ++ [t])) as [[m0 old|m0]|] eqn:Hold.
  - rewrite (Hcopy m0); [| done | apply lookup_insert_eq].
    unfold with_fs. cbn. by rewrite insert_insert_eq.
  - by destruct (Hnodir m0).
  - rewrite (Hcopy (N.ldiff (Zip.Mode f) (umask w))); [| done | apply lookup_insert_eq].
    unfold with_fs. cbn. by rewrite insert_insert_eq.
Qed.

(** The same entry in the older decoder, which opens the file at once. *)
Lemma old_unzip_entry_quiet (dest : string) (f : zfile) (w : world) (T : list string)
    (mp : N) :
  faults w = [] →
  Filepath.Join [dest; zname f] = render true T →
  HasPrefix (render true T) (Clean dest +:+ "/") = true →
  Zip.IsDir f = false →
  T ≠ [] → Forall plain T →
  under_file (fs w) T = false →
  node_at (fs w) (removelast T) = Some (NDir mp) →
  fs w !! T = None →
  Rev1.unzip_entry dest f w
  = (with_fs (<[T := NFile (N.ldiff (zperm f) (umask w)) (body_bytes (zbody_of f))]> (fs w)) w,
     body_error (zbody_of f)).
Proof.
  intros Hq Hpath Hguard Hdir Hne Hplain Hunder Hparent Hfree.
  unfold Rev1.unzip_entry. rewrite Hpath, Hguard, Hdir. cbn [negb].
  rewrite (OpenFile_quiet _ _ _ T mp);
    [| apply render_rooted_nonempty | by apply resolve_render | done..].
  unfold Zip.Open, Copy.
  destruct (zbody_of f) as [data| |partial]; cbn [body_bytes body_error].
  - rewrite (Write_quiet _ _ [] (N.ldiff (zperm f) (umask w)));
      [| done | apply lookup_insert_eq].
    cbn [fs with_fs app]. unfold with_fs. cbn. by rewrite insert_insert_eq.
  - done.
  - rewrite (Write_quiet _ _ [] (N.ldiff (zperm f) (umask w)));
      [| done | apply lookup_insert_eq].
    cbn [fs with_fs app]. unfold with_fs. cbn. by rewrite insert_insert_eq.
Qed.

Lemma old_unzip_entry_no_parent (dest : string) (f : zfile) (w : world) (T : list string) :
  faults w = [] →
  Filepath.Join [dest; zname f] = render true T →
  HasPrefix (render true T) (Clean dest +:+ "/") = true →
  Zip.IsDir f = false →
  T ≠ [] → Forall plain T →
  under_file (fs w) T = false →
  node_at (fs w) (removelast T) = None →
  Rev1.unzip_entry dest f w = (w, Some (PathError OpOpen (render true T) ENOENT)).
Proof.
  intros Hq Hpath Hguard Hdir Hne Hplain Hunder Hparent.
  unfold Rev1.unzip_entry. rewrite Hpath, Hguard, Hdir. cbn [negb].
  unfold OpenFile_create_trunc.
  destruct (decide (render true T = "")) as [He|_];
    [by apply render_rooted_nonempty in He |].
  rewrite resolve_render by done. rewrite faulty_quiet, Hunder by done.
  destruct T as [|a0 T0] eqn:HT0; [done |]. by rewrite Hparent.
Qed.

End EntryFacts.

(** An entry that is decoded onto an existing file replaces its contents
    and keeps the mode the file had, not the one in the archive; the file is
    truncated before the entry is read, so when the entry cannot be
    decompressed the old contents are gone and the file is empty, and when
    the data is corrupt the file holds what was read up to the error. *)
Theorem unzip_entry_truncates_existing_file
    (dest : string) (here : list string) (f : zfile) (w : world) (m : N) (old : bytes) :
  Filepath.IsAbs dest = true → GoOS.resolve w dest ≠ [] →
  here ≠ [] → Forall plain here →
  zname f = GoStrings.Join here "/" → zdirattr f = false →
  faults w = [] →
  (∀ q, q ∈ GoOS.ancestors (GoOS.resolve w dest ++ here) → GoOS.is_file (fs w) q = false) →
  fs w !! (GoOS.resolve w dest ++ here) = Some (NFile m old) →
  snd (unzip_entry dest f w) = body_error (zbody_of f)
  ∧ fs (fst (unzip_entry dest f w)) !! (GoOS.resolve w dest ++ here)
    = Some (NFile m (body_bytes (zbody_of f))).
Proof.
  intros Habs HD Hne Hpl Hname Hattr Hq Hanc Hold.
  rewrite resolve_abs in * by done.
  set (D := Filepath.clean_elems true (Filepath.elems dest)) in *.
  assert (Forall plain D) as HDpl by apply clean_elems_rooted_plain, elems_good.
  rewrite (unzip_entry_quiet dest f w (D ++ here)); try done.
  - cbn [fst snd fs with_fs]. split; [done |]. by rewrite lookup_insert_eq, Hold.
  - rewrite Hname. by apply Join_dest_rel.
  - rewrite Clean_dest by done. by apply HasPrefix_render.
  - unfold Zip.IsDir. rewrite Hattr, Hname. by apply Join_not_dir.
  - by destruct D.
  - apply Forall_app. by split.
  - intros m'. by rewrite Hold.
Qed.

(** ** The older pipeline *)

Section SourceFacts.
Import GoStrings Filepath GoOS.

Lemma clean_absolute (source : string) :
  IsAbs source = true → Clean source = source → source ≠ "/" →
  ∃ S, source = render true S ∧ S ≠ [] ∧ Forall plain S.
Proof.
  intros Habs Hclean Hroot. exists (clean_elems true (elems source)).
  rewrite Clean_dest in Hclean by done. split_and!.
  - done.
  - intros Hnil. rewrite Hnil in Hclean. by subst.
  - apply clean_elems_rooted_plain, elems_good.
Qed.

Lemma substring_none (n : nat) (s : string) : String.substring n 0 s = "".
Proof. revert n. induction s as [|c s IH]; intros [|n]; simpl; auto. Qed.

(** The entry name [path[len(source):]] for the file at [here]. *)
Lemma source_name (S here : list string) :
  S ≠ [] → Forall plain S → Forall plain here →
  let source := render true S in
  let path := walk_path source here in
  (String.length path <? String.length source) = false
  ∧ String.substring (String.length source) (String.length path - String.length source) path
    = match here with [] => "" | _ => "/" +:+ GoStrings.Join here "/" end.
Proof.
  intros HS HSpl Hpl source path.
  destruct here as [|h here'].
  - change path with source. split; [apply Nat.ltb_ge; lia |].
    rewrite Nat.sub_diag. apply substring_none.
  - assert (path = source +:+ ("/" +:+ GoStrings.Join (h :: here') "/")) as ->.
    { unfold path. rewrite walk_path_rooted by (done || apply IsAbs_render_rooted).
      unfold source. rewrite elems_render_rooted by by apply Forall_plain_good.
      rewrite clean_elems_plain by done.
      rewrite render_rooted_app by done. by rewrite string_app_assoc. }
    rewrite string_length_app. split; [apply Nat.ltb_ge; lia |].
    replace (String.length source + String.length ("/" +:+ GoStrings.Join (h :: here') "/")
             - String.length source)
      with (String.length ("/" +:+ GoStrings.Join (h :: here') "/")) by lia.
    apply substring_app_tail.
Qed.

Lemma source_plan_readable (S : list string) :
  S ≠ [] → Forall plain S →
  (∀ d here, Forall plain here → wf_tree d → readable d →
      source_plan (render true S) (walk_path (render true S) here) d
      = flat_map source_steps (all_files here d))
  ∧ (∀ ds here, Forall plain here → wf_forest ds → readable_all ds →
      names_plan (render true S) (walk_path (render true S) here) ds
      = flat_map source_steps (all_files_in here ds)).
Proof.
  intros HS HSpl. apply tree_forest_mutind.
  - intros perm data io here Hhere _ Hio. simpl in Hio. subst io.
    cbn [source_plan all_files flat_map app]. unfold source_file_plan, healthy.
    cbn [open_err read_err].
    destruct (source_name S here HS HSpl Hhere) as [-> ->]. by destruct here.
  - intros rd children IH here Hhere Hwf [-> Hread]. cbn [source_plan all_files].
    by apply IH.
  - done.
  - intros name d IHd rest IHrest here Hhere (Hname & _ & Hwd & Hwrest) [Hrd Hrrest].
    cbn [names_plan all_files_in]. rewrite flat_map_app, <- walk_path_snoc.
    rewrite IHrest by done. f_equal.
    assert (Forall plain (here ++ [name])) as Hhere'.
    { apply Forall_app. split; [done | by constructor]. }
    destruct d as [perm data io|rd children]; [| by apply IHd].
    simpl in Hrd. subst io. by apply IHd.
Qed.

Lemma run_source_entries (items : list (list string * N * bytes)) (a : Zip.Writer) :
  Zip.zw_closed a = false →
  run (flat_map source_steps items) a
  = (Zip.MkWriter (Zip.zw_files a ++ map source_entry items) false, WNil).
Proof.
  revert a. induction items as [|item items IH]; intros [files closed] Ha; simpl in Ha; subst.
  { simpl. by rewrite app_nil_r. }
  cbn [flat_map source_steps app run run_step]. unfold Zip.CreateHeader.
  cbn [Zip.zw_closed Zip.zw_files]. unfold Zip.Write. cbn [Zip.zw_files Zip.zw_closed].
  rewrite reverse_snoc, reverse_involutive. unfold Zip.append_body. cbn.
  rewrite IH by done. cbn [Zip.zw_files map]. by rewrite <- app_assoc.
Qed.

Lemma zipSource_readable (dsk : gmap string tree) (source : string) (t : tree) :
  IsAbs source = true → Clean source = source → source ≠ "/" →
  dsk !! source = Some t → wf_tree t → readable t →
  Rev1.zipSource dsk source = Returns (Ok (ZipStream (map source_entry (all_files [] t)))).
Proof.
  intros Habs Hclean Hroot Ht Hwf Hread.
  destruct (clean_absolute source Habs Hclean Hroot) as (S & -> & HS & HSpl).
  unfold Rev1.zipSource. rewrite zipSource_run. unfold zipSource_plan. rewrite Ht.
  change (source_plan (render true S) (render true S) t)
    with (source_plan (render true S) (walk_path (render true S) []) t).
  rewrite (proj1 (source_plan_readable S HS HSpl)) by done.
  by rewrite run_source_entries.
Qed.

Lemma all_files_listed (perm : N) (data : bytes) (io : file_io) :
  (∀ d base ext,
      tree_at d ext = Some (TFile perm data io) → (base ++ ext, perm, data) ∈ all_files base d)
  ∧ (∀ ds base name ext,
      forest_at ds name ext = Some (TFile perm data io) →
      (base ++ name :: ext, perm, data) ∈ all_files_in base ds).
Proof.
  apply tree_forest_mutind.
  - intros p dt i base ext Hat. destruct ext as [|n ext]; [| done].
    simpl in Hat. inversion Hat; subst. rewrite app_nil_r. apply list_elem_of_here.
  - intros rd children IH base ext Hat. destruct ext as [|n ext]; [done |].
    simpl. by apply IH.
  - done.
  - intros name' d IHd rest IHrest base name ext Hat. simpl in Hat. simpl.
    apply elem_of_app. destruct (decide (name' = name)) as [->|Hne].
    + left. replace (base ++ name :: ext) with ((base ++ [name]) ++ ext)
        by by rewrite <- app_assoc.
      by apply IHd.
    + right. by apply IHrest.
Qed.

Lemma all_files_shape :
  (∀ d here, wf_tree d →
      (∀ item, item ∈ all_files here d →
         ∃ ext, item.1.1 = here ++ ext ∧ Forall plain ext ∧ (tree_IsDir d = true → ext ≠ []))
      ∧ antichain (map (λ item, item.1.1) (all_files here d)))
  ∧ (∀ ds here, wf_forest ds →
      (∀ item, item ∈ all_files_in here ds →
         ∃ name ext, name ∈ names_of ds ∧ item.1.1 = here ++ name :: ext
                     ∧ Forall plain (name :: ext))
      ∧ antichain (map (λ item, item.1.1) (all_files_in here ds))).
Proof.
  apply tree_forest_mutind.
  - intros perm data io here _. simpl. split.
    + intros item ->%list_elem_of_singleton. exists []. simpl.
      rewrite app_nil_r. split_and!; [done | constructor | done].
    + split; [apply NoDup_singleton |].
      by intros t1 t2 ->%list_elem_of_singleton ->%list_elem_of_singleton.
  - intros rd children IH here Hwf. simpl in *.
    destruct (IH here Hwf) as [Hshape Hanti]. split; [| done].
    intros item Hin. destruct (Hshape item Hin) as (name & ext & _ & -> & Hpl).
    by exists (name :: ext).
  - intros here _. simpl. split; [by intros item ?%elem_of_nil |].
    split; [constructor | by intros ? ? ?%elem_of_nil].
  - intros name d IHd rest IHrest here (Hname & Hfresh & Hwd & Hwrest).
    destruct (IHd (here ++ [name]) Hwd) as [Hshape1 Hanti1].
    destruct (IHrest here Hwrest) as [Hshape2 Hanti2]. simpl. split.
    + intros item [Hin|Hin]%elem_of_app.
      * destruct (Hshape1 item Hin) as (ext & -> & Hpl & _).
        exists name, ext. split_and!; [apply list_elem_of_here | by rewrite <- app_assoc |].
        by constructor.
      * destruct (Hshape2 item Hin) as (n & ext & Hn & -> & Hpl).
        exists n, ext. split_and!; [by apply elem_of_cons; right | done | done].
    + rewrite map_app. apply antichain_app; [done | done |].
      intros x y (i1 & -> & Hi1)%list_elem_of_fmap (i2 & -> & Hi2)%list_elem_of_fmap.
      destruct (Hshape1 i1 Hi1) as (ext1 & -> & _).
      destruct (Hshape2 i2 Hi2) as (n & ext2 & Hn & -> & _).
      rewrite <- app_assoc. simpl.
      split; intros Hp%prefix_app_inv; apply prefix_cons_inv_1 in Hp; by subst.
Qed.

Lemma first_such {A : Type} (P : A → Prop) (l : list A) :
  (∀ x, Decision (P x)) → Exists P l →
  ∃ pre x post, l = pre ++ x :: post ∧ Forall (λ y, ¬ P y) pre ∧ P x.
Proof.
  intros Hdec. induction l as [|y l IH]; intros Hex; [by apply Exists_nil in Hex |].
  destruct (Hdec y) as [Hy|Hy].
  - exists [], y, l. by split_and!.
  - apply Exists_cons in Hex as [?|Hex]; [done |].
    destruct (IH Hex) as (pre & x & post & -> & Hpre & Hx).
    exists (y :: pre), x, post. split_and!; [done | by constructor | done].
Qed.

(** The path of the entry of a file, joined to the root of the decoder. *)
Lemma Join_dest_source_entry (dest : string) (item : list string * N * bytes) :
  IsAbs dest = true → item.1.1 ≠ [] → Forall plain item.1.1 →
  Filepath.Join [dest; zname (source_entry item)]
  = render true (clean_elems true (elems dest) ++ item.1.1)
  ∧ Zip.IsDir (source_entry item) = false.
Proof.
  destruct item as [[here perm] data]. cbn [fst snd]. intros Habs Hne Hpl.
  assert (zname (source_entry (here, perm, data)) = render true here) as Hname.
  { unfold source_entry, render. cbn [zname fst]. by destruct here. }
  split.
  - rewrite Hname, Join_dest_name by done.
    rewrite elems_render_rooted by by apply Forall_plain_good.
    by rewrite clean_elems_app_plain.
  - unfold Zip.IsDir. rewrite Hname. cbn [zdirattr source_entry orb].
    apply render_no_trailing_sep; [done | by apply Forall_plain_good].
Qed.

(** The older decoder on the entries of files that lie directly in the
    root. *)
Lemma old_unzip_loop_top (dest : string) (items : list (list string * N * bytes))
    (w : world) (mp : N) :
  IsAbs dest = true →
  let D := clean_elems true (elems dest) in
  D ≠ [] → faults w = [] →
  Forall (λ item, ∃ a, item.1.1 = [a] ∧ plain a) items →
  NoDup (map (λ item, item.1.1) items) →
  fs w !! D = Some (NDir mp) →
  (∀ q, q ∈ prefixes D → is_file (fs w) q = false) →
  (∀ item, item ∈ items → fs w !! (D ++ item.1.1) = None) →
  ∃ w', unzip_loop Rev1.unzip_entry dest (map source_entry items) w = (w', None)
        ∧ faults w' = []
        ∧ (∀ item, item ∈ items →
             fs w' !! (D ++ item.1.1) = Some (NFile (N.ldiff 438 (umask w)) item.2))
        ∧ (∀ q, (∀ item, item ∈ items → q ≠ D ++ item.1.1) → fs w' !! q = fs w !! q).
Proof.
  intros Habs D HD. revert w.
  assert (Forall plain D) as HDpl by apply clean_elems_rooted_plain, elems_good.
  induction items as [|item items IH]; intros w Hq Htop Hnd HDdir Hup Hfree.
  { exists w. split_and!; try done. by intros item ?%elem_of_nil. }
  inversion Htop as [|? ? (a & Ha & Hpa) Htop']; subst.
  cbn [map] in Hnd. apply NoDup_cons in Hnd as [Hnotin Hnd].
  destruct (Join_dest_source_entry dest item Habs) as [Hpath Hdir];
    [by rewrite Ha | rewrite Ha; by constructor |].
  fold D in Hpath. rewrite Ha in Hpath.
  cbn [map unzip_loop].
  rewrite (old_unzip_entry_quiet dest (source_entry item) w (D ++ [a]) mp); try done.
  - cbn [zperm zbody_of source_entry body_bytes body_error].
    set (w1 := with_fs _ w).
    assert (∀ q, q ≠ D ++ [a] → fs w1 !! q = fs w !! q) as Hother.
    { intros q Hne. unfold w1. cbn [fs with_fs]. by rewrite lookup_insert_ne. }
    assert (∀ q, q `prefix_of` D → q ≠ D ++ [a]) as Hshort.
    { intros q Hp%prefix_length ->. rewrite length_app in Hp. simpl in Hp. lia. }
    destruct (IH w1) as (w' & Hloop & Hq' & Hall & Hrest); try done.
    + rewrite Hother; [done | by apply Hshort].
    + intros q Hin. unfold is_file. rewrite Hother.
      * by apply Hup.
      * apply elem_of_prefixes in Hin as [_ Hin]. by apply Hshort.
    + intros item' Hin'. rewrite Hother.
      * apply Hfree. by apply elem_of_cons; right.
      * intros Heq%app_inv_head. apply Hnotin. rewrite Ha, <- Heq.
        apply list_elem_of_fmap. by exists item'.
    + exists w'. split_and!; try done.
      * intros item' [->|Hin']%elem_of_cons; [| by apply Hall].
        rewrite Hrest.
        -- unfold w1. cbn [fs with_fs]. rewrite Ha. apply lookup_insert_eq.
        -- intros item' Hin' Heq%app_inv_head. apply Hnotin. rewrite Heq.
           apply list_elem_of_fmap. by exists item'.
      * intros q Hq0. rewrite Hrest.
        -- apply Hother. rewrite <- Ha. apply Hq0. apply list_elem_of_here.
        -- intros item' Hin'. apply Hq0. by apply elem_of_cons; right.
  - rewrite Clean_dest by done. by apply HasPrefix_render.
  - by destruct D.
  - apply Forall_app. split; [done | by constructor].
  - unfold under_file. rewrite ancestors_snoc. apply not_true_is_false.
    intros (q & Hin & Hfile)%existsb_exists. apply list_elem_of_In in Hin.
    by rewrite Hup in Hfile.
  - rewrite removelast_snoc. by destruct D.
  - rewrite <- Ha. apply Hfree. apply list_elem_of_here.
Qed.

End SourceFacts.

Section OldRoundTripFacts.
Import GoStrings Filepath GoOS.


(** The state in which the older decoder starts its loop, and what the
    entries of the files directly in the root make of it. *)
Lemma old_decoder_top_level (dest : string) (items : list (list string * N * bytes))
    (w : world) :
  IsAbs dest = true →
  let D := clean_elems true (elems dest) in
  D ≠ [] → faults w = [] → empty_destination w dest →
  Forall (λ item, ∃ a, item.1.1 = [a] ∧ plain a) items →
  NoDup (map (λ item, item.1.1) items) →
  ∃ w', unzip_loop Rev1.unzip_entry dest (map source_entry items)
          (fst (MkdirAll dest perm0755 w)) = (w', None)
        ∧ faults w' = []
        ∧ (∀ item, item ∈ items →
             fs w' !! (D ++ item.1.1) = Some (NFile (N.ldiff 438 (umask w)) item.2))
        ∧ (∀ q, q `prefix_of` D → is_file (fs w') q = false)
        ∧ (∀ q, below D q → (∀ item, item ∈ items → q ≠ D ++ item.1.1) → fs w' !! q = None).
Proof.
  intros Habs D HD Hq Hempty Htop Hnd.
  rewrite MkdirAll_root_quiet by done. cbn [fst].
  unfold empty_destination in Hempty. rewrite !(resolve_abs w dest Habs) in *.
  fold D in Hempty |- *. destruct Hempty as [Hup Hbelow].
  set (w1 := with_fs _ w).
  assert (∀ q, below D q → fs w1 !! q = None) as Hbelow1.
  { intros q (rest & Hne & ->). unfold w1. cbn [fs with_fs]. rewrite lookup_add_dirs.
    rewrite Hbelow.
    - rewrite decide_False; [done |]. intros [_ Hp%prefix_length]%elem_of_prefixes.
      rewrite length_app in Hp. destruct rest; [done |]. simpl in Hp. lia.
    - by apply prefix_app_r.
    - intros Heq. apply (f_equal length) in Heq. rewrite length_app in Heq.
      destruct rest; [done |]. simpl in Heq. lia. }
  assert (∀ q, q `prefix_of` D → is_file (fs w1) q = false) as Hup1.
  { intros q Hp. unfold w1. cbn [fs with_fs]. by apply is_file_add_dirs, Hup. }
  assert (∃ mp, fs w1 !! D = Some (NDir mp)) as [mp HDdir].
  { unfold w1. cbn [fs with_fs]. rewrite lookup_add_dirs.
    pose proof (Hup D ltac:(reflexivity)) as HDfile. unfold is_file in HDfile.
    destruct (fs w !! D) as [[]|]; [done | by eexists |].
    rewrite decide_True; [by eexists |]. apply elem_of_prefixes. by split. }
  destruct (old_unzip_loop_top dest items w1 mp Habs HD) as (w' & Hloop & Hq' & Hall & Hrest);
    try done.
  - intros q [_ Hp]%elem_of_prefixes. by apply Hup1.
  - intros item Hin. apply Hbelow1.
    apply (proj1 (Forall_forall _ _) Htop) in Hin as (a & -> & _). by exists [a].
  - fold D in Hall, Hrest. exists w'. split_and!; try done.
    + intros q Hp. unfold is_file. rewrite Hrest; [by apply Hup1 |].
      intros item Hin ->. apply prefix_length in Hp. rewrite length_app in Hp.
      apply (proj1 (Forall_forall _ _) Htop) in Hin as (a & Ha & _).
      rewrite Ha in Hp. simpl in Hp. lia.
    + intros q Hb Hno. rewrite Hrest by done. by apply Hbelow1.
Qed.

End OldRoundTripFacts.

(** [zipSource] of the older revision, on a readable directory under a
    cleaned absolute path: it returns an archive with one entry for every
    regular file of the tree, whatever its name (nothing is filtered), named
    by a separator and the relative path, with the mode [0666] of [Create]
    in place of the mode of the file. *)
Theorem zipSource_archives_every_file
    (dsk : gmap string tree) (source : string) (t : tree) :
  Filepath.IsAbs source = true → Filepath.Clean source = source → source ≠ "/" →
  dsk !! source = Some t → wf_tree t → readable t →
  Rev1.zipSource dsk source = Returns (Ok (ZipStream (map source_entry (all_files [] t))))
  ∧ ∀ here perm data io,
      tree_at t here = Some (TFile perm data io) → here ≠ [] →
      ZFile ("/" +:+ GoStrings.Join here "/") 438%N false (Stored data)
        ∈ map source_entry (all_files [] t).
Proof.
  intros Habs Hclean Hroot Ht Hwf Hread. split; [by apply zipSource_readable |].
  intros here perm data io Hat Hne.
  apply list_elem_of_In, in_map_iff. exists (here, perm, data). split.
  - unfold source_entry. cbn [fst snd]. by destruct here.
  - apply list_elem_of_In. by apply (proj1 (all_files_listed perm data io) t [] here).
Qed.

Section OldHandlerFacts.
Import GoStrings Filepath.

(** A walk of [zipSource] all of whose steps are writes met nothing that
    could not be read. *)
Lemma source_plan_writes_readable (source : string) :
  (∀ d path, Forall is_write (source_plan source path d) →
      match d with
      | TFile _ _ io => open_err io = None ∧ read_err io = None
      | TDir _ _ => readable d
      end)
  ∧ (∀ ds path, Forall is_write (names_plan source path ds) → readable_all ds).
Proof.
  apply tree_forest_mutind.
  - intros perm data [l o r] path. cbn [source_plan open_err read_err].
    unfold source_file_plan. cbn [open_err read_err].
    destruct o as [e|]; [by intros [[] _]%Forall_cons |].
    destruct (_ <? _); [by intros [[] _]%Forall_cons |].
    destruct r as [e|]; [| done].
    by intros [_ [[] _]%Forall_cons]%Forall_cons.
  - intros rd children IH path. cbn [source_plan readable].
    destruct rd as [e|]; [by intros [[] _]%Forall_cons |].
    intros H. split; [done | by apply (IH path)].
  - done.
  - intros name d IHd rest IHrest path. cbn [names_plan readable_all].
    intros [Hd Hrest]%Forall_app. split; [| by apply (IHrest path)].
    destruct d as [perm data [l o r]|rd children].
    + destruct l as [e|]; [by apply Forall_cons in Hd as [[] _] |].
      apply IHd in Hd as [Ho Hr]. cbn [open_err read_err] in Ho, Hr. by subst.
    + by apply IHd in Hd.
Qed.

(** Below a cleaned absolute root no path of the walk is shorter than the
    root, so [zipSource] takes no slice out of range. *)
Lemma source_plan_no_crash (S : list string) :
  S ≠ [] → Forall plain S →
  (∀ d here, Forall plain here → wf_tree d →
      SCrash ∉ source_plan (render true S) (walk_path (render true S) here) d)
  ∧ (∀ ds here, Forall plain here → wf_forest ds →
      SCrash ∉ names_plan (render true S) (walk_path (render true S) here) ds).
Proof.
  intros HS HSpl. apply tree_forest_mutind.
  - intros perm data io here Hhere _. cbn [source_plan]. unfold source_file_plan.
    destruct (source_name S here HS HSpl Hhere) as [-> _].
    destruct (open_err io); [by intros [?|?%elem_of_nil]%elem_of_cons |].
    destruct (read_err io);
      by intros [?|[?|?%elem_of_nil]%elem_of_cons]%elem_of_cons.
  - intros rd children IH here Hhere Hwf. cbn [source_plan].
    destruct rd; [by intros [?|?%elem_of_nil]%elem_of_cons | by apply IH].
  - intros here _ _. cbn [names_plan]. apply not_elem_of_nil.
  - intros name d IHd rest IHrest here Hhere (Hname & _ & Hwd & Hwrest).
    cbn [names_plan]. rewrite <- walk_path_snoc.
    assert (Forall plain (here ++ [name])) as Hhere'.
    { apply Forall_app. split; [done | by constructor]. }
    intros [Hin|Hin]%elem_of_app; [| by apply (IHrest here)].
    destruct d as [perm data [[e|] o r]|rd children].
    + by apply elem_of_cons in Hin as [?|?%elem_of_nil].
    + by apply (IHd (here ++ [name])).
    + by apply (IHd (here ++ [name])).
Qed.

End OldHandlerFacts.

(** The older /sync handler never sends an archive that lacks a file.  For
    a settings directory under a cleaned absolute path: when everything in it
    can be read the reply is 200 with the archive of all its files; when
    something in it cannot be read (a directory that cannot be listed, a
    file that vanished, cannot be opened or cannot be read) the reply is
    500 with the text of the error of the first step of the walk that
    failed, however many files were archived before it. *)
Theorem old_syncHandler_reports_failure (srv : server) (vscodePath : string) (t : tree) :
  Filepath.IsAbs vscodePath = true → Filepath.Clean vscodePath = vscodePath →
  vscodePath ≠ "/" →
  disk srv !! vscodePath = Some t → tree_IsDir t = true → wf_tree t →
  (readable t →
     Rev1.syncHandler srv vscodePath "GET"
     = Responded
         (Response StatusOK zip_headers
            (Archive (ZipStream (map source_entry (all_files [] t))))))
  ∧ (¬ readable t →
     ∃ pre e post,
       zipSource_plan (disk srv) vscodePath = pre ++ SFail e :: post
       ∧ Forall is_write pre
       ∧ Rev1.syncHandler srv vscodePath "GET"
         = Responded (http_Error (ErrorText e) StatusInternalServerError)).
Proof.
  intros Habs Hclean Hroot Ht Hdir Hwf. split.
  - intros Hread. unfold Rev1.syncHandler. cbn [bool_decide negb].
    rewrite bool_decide_eq_true_2 by done. cbn [negb].
    by rewrite (zipSource_readable (disk srv) vscodePath t).
  - intros Hunread.
    destruct (clean_absolute vscodePath Habs Hclean Hroot) as (S & -> & HS & HSpl).
    set (steps := zipSource_plan (disk srv) (Filepath.render true S)).
    assert (steps = source_plan (Filepath.render true S)
                      (walk_path (Filepath.render true S) []) t) as Hsteps.
    { unfold steps, zipSource_plan. by rewrite Ht. }
    assert (∀ st, Decision (is_write st)) as Hdec by (intros []; apply _).
    assert (¬ Forall is_write steps) as Hsome.
    { intros Hall. rewrite Hsteps in Hall.
      apply (proj1 (source_plan_writes_readable _)) in Hall.
      by destruct t. }
    apply not_Forall_Exists in Hsome; [| done].
    apply first_such in Hsome as (pre & st & post & Hsplit & Hpre & Hst);
      [| intros; apply _].
    assert (Forall is_write pre) as Hpre'.
    { eapply Forall_impl; [exact Hpre |]. intros x Hx. by apply dec_stable. }
    assert (st ≠ SCrash) as Hnocrash.
    { intros ->.
      apply (proj1 (source_plan_no_crash S HS HSpl) t []); [done | done |].
      rewrite <- Hsteps, Hsplit. apply elem_of_app. right. apply list_elem_of_here. }
    destruct st as [name perm|data|e|]; [by destruct Hst | by destruct Hst | | done].
    exists pre, e, post. split; [done |]. split; [done |].
    unfold Rev1.syncHandler. rewrite bool_decide_eq_true_2 by done. cbn [negb].
    unfold Rev1.zipSource. rewrite zipSource_run. fold steps. rewrite Hsplit.
    by rewrite run_first_failure.
Qed.

(** The older revision cannot transfer a directory that has a file in a
    subdirectory: [zipSource] writes no entry for a directory and its
    [unzipDest] does not create the directory of a file, so on an empty
    destination the decoder stops at the first such file with the error of
    [os.OpenFile]. *)
Theorem old_roundtrip_fails_below_top_level
    (dsk : gmap string tree) (source dest : string) (t : tree) (w : world)
    (here : list string) (perm : N) (data : bytes) (io : file_io) :
  Filepath.IsAbs source = true → Filepath.Clean source = source → source ≠ "/" →
  dsk !! source = Some t → tree_IsDir t = true → wf_tree t → readable t →
  Filepath.IsAbs dest = true → GoOS.resolve w dest ≠ [] →
  faults w = [] → empty_destination w dest →
  tree_at t here = Some (TFile perm data io) → 2 ≤ length here →
  ∃ s p, Rev1.zipSource dsk source = Returns (Ok s)
         ∧ snd (Rev1.unzipDest s dest w) = Some (PathError OpOpen p ENOENT).
Proof.
  intros Habs Hclean Hroot Ht Hdir Hwf Hread Hdabs HD Hq Hempty Hat Hdeep.
  exists (ZipStream (map source_entry (all_files [] t))).
  rewrite (zipSource_readable dsk source t) by done.
  rewrite resolve_abs in HD by done.
  set (D := Filepath.clean_elems true (Filepath.elems dest)) in *.
  assert (Forall plain D) as HDpl by apply clean_elems_rooted_plain, elems_good.
  destruct all_files_shape as [Hshape _]. destruct (Hshape t [] Hwf) as [Hitems [Hnd Hanti]].
  assert (Exists (λ item : list string * N * bytes, 2 ≤ length item.1.1) (all_files [] t))
    as Hex.
  { apply Exists_exists. exists (here, perm, data). split; [| done].
    by apply (proj1 (all_files_listed perm data io) t [] here). }
  apply first_such in Hex as (pre & x & post & Hsplit & Hpre & Hx); [| intros; apply _].
  rewrite Hsplit in *. clear Hsplit.
  assert (Forall (λ item : list string * N * bytes, ∃ a, item.1.1 = [a] ∧ plain a) pre) as Htop.
  { apply Forall_forall. intros item Hin.
    destruct (Hitems item) as (ext & Hext & Hpl & Hne); [apply elem_of_app; by left |].
    simpl in Hext. specialize (Hne Hdir).
    apply (proj1 (Forall_forall _ _) Hpre) in Hin. rewrite Hext in *.
    destruct ext as [|a [|b ext]]; [done | | simpl in Hin; lia].
    inversion Hpl; subst. by exists a. }
  rewrite map_app in Hnd. apply NoDup_app in Hnd as (Hndpre & _ & _).
  destruct (old_decoder_top_level dest pre w Hdabs HD Hq Hempty Htop Hndpre)
    as (w' & Hloop & Hq' & _ & Hup' & Hbelow').
  destruct (Hitems x) as (ext & Hext & Hpl & _).
  { apply elem_of_app. right. apply list_elem_of_here. }
  simpl in Hext.
  assert (ext ≠ []) as Hne by (destruct ext; [rewrite Hext in Hx; simpl in Hx; lia | done]).
  destruct (Join_dest_source_entry dest x Hdabs) as [Hpath Hnodir]; [by rewrite Hext..|].
  fold D in Hpath. rewrite Hext in Hpath.
  assert (∀ q, q ∈ GoOS.ancestors (D ++ ext) → below D q → fs w' !! q = None) as Hanc.
  { intros q (Hqne & Hqp & Hqneq)%elem_of_ancestors Hb. apply Hbelow'; [done |].
    intros item Hin ->. apply prefix_app_inv in Hqp.
    assert (item.1.1 = ext) as Heq.
    { apply Hanti; [| | done].
      - apply list_elem_of_fmap. exists item. split; [done |]. apply elem_of_app. by left.
      - rewrite <- Hext. apply list_elem_of_fmap. exists x. split; [done |].
        apply elem_of_app. right. apply list_elem_of_here. }
    by rewrite Heq in Hqneq. }
  exists (Filepath.render true (D ++ ext)).
  unfold Rev1.unzipDest. cbn [Zip.NewReader]. rewrite map_app, unzip_loop_app, Hloop.
  cbn [map unzip_loop].
  rewrite (old_unzip_entry_no_parent dest (source_entry x) w' (D ++ ext)); try done.
  - rewrite Clean_dest by done. by apply HasPrefix_render.
  - by destruct D.
  - apply Forall_app. by split.
  - unfold GoOS.under_file. apply not_true_is_false.
    intros (q & Hin & Hfile)%existsb_exists. apply list_elem_of_In in Hin.
    pose proof Hin as (_ & Hqp & _)%elem_of_ancestors.
    apply prefix_at_or_below in Hqp as [Hqp|Hb].
    + by rewrite Hup' in Hfile.
    + unfold GoOS.is_file in Hfile. by rewrite Hanc in Hfile.
  - assert (removelast (D ++ ext) = D ++ removelast ext) as -> by by apply removelast_app.
    assert (removelast ext ≠ []) as Hne'.
    { rewrite Hext in Hx. destruct ext as [|a [|b ext]]; simpl in *; [lia | lia | done]. }
    assert (GoOS.node_at (fs w') (D ++ removelast ext) = fs w' !! (D ++ removelast ext)) as ->.
    { unfold GoOS.node_at. by destruct (D ++ removelast ext) eqn:H0; [destruct D |]. }
    apply Hanc; [| by exists (removelast ext)].
    apply elem_of_ancestors. split_and!.
    + by destruct D.
    + destruct (exists_last Hne) as (e' & l & ->).
      rewrite removelast_last. exists [l]. by rewrite <- app_assoc.
    + intros Heq%app_inv_head. apply (f_equal length) in Heq.
      destruct (exists_last Hne) as (e' & l & ->).
      rewrite removelast_last, length_app in Heq. simpl in Heq. lia.
Qed.


(** ** What a backup moves *)

Section RenameFacts.
Import GoStrings Filepath GoOS.

Lemma move_tree_moved (o n : list string) (m : gmap (list string) node) :
  move_tree o n m = list_to_map (omap (moved o n) (map_to_list m)).
Proof. reflexivity. Qed.

Lemma moved_Some (o n k q : list string) (v v' : node) :
  moved o n (k, v) = Some (q, v') ↔
  v' = v ∧ ((∃ rest, k = o ++ rest ∧ q = n ++ rest)
            ∨ (¬ o `prefix_of` k ∧ ¬ n `prefix_of` k ∧ q = k)).
Proof.
  unfold moved. destruct (decide (o `prefix_of` k)) as [[rest ->]|Ho].
  - rewrite drop_app_length. split.
    + intros [= <- <-]. split; [done |]. left. by exists rest.
    + intros [-> [(rest' & ->%app_inv_head & ->)|[Hno _]]]; [done |].
      destruct Hno. by exists rest.
  - destruct (decide (n `prefix_of` k)) as [Hn|Hn].
    + split; [done |]. intros [_ [(rest & -> & _)|(_ & Hnn & _)]]; [| done].
      destruct Ho. by exists rest.
    + split.
      * intros [= <- <-]. split; [done |]. by right.
      * intros [-> [(rest & -> & _)|(_ & _ & ->)]]; [| done]. destruct Ho. by exists rest.
Qed.

Lemma moved_inj (o n k1 k2 q : list string) (v1 v2 v1' v2' : node) :
  moved o n (k1, v1) = Some (q, v1') → moved o n (k2, v2) = Some (q, v2') → k1 = k2.
Proof.
  intros [_ H1]%moved_Some [_ H2]%moved_Some.
  destruct H1 as [(r1 & -> & ->)|(Ho1 & Hn1 & ->)], H2 as [(r2 & -> & Hq)|(Ho2 & Hn2 & Hq)].
  - apply app_inv_head in Hq. by subst.
  - subst. destruct Hn2. by exists r1.
  - subst. destruct Hn1. by exists r2.
  - done.
Qed.

(** What is found where after the move. *)
Lemma move_tree_lookup (o n q : list string) (m : gmap (list string) node) (v : node) :
  move_tree o n m !! q = Some v ↔
  (∃ rest, q = n ++ rest ∧ m !! (o ++ rest) = Some v)
  ∨ (¬ o `prefix_of` q ∧ ¬ n `prefix_of` q ∧ m !! q = Some v).
Proof.
  rewrite move_tree_moved.
  assert (∀ v', (q, v') ∈ omap (moved o n) (map_to_list m) ↔
                (∃ rest, q = n ++ rest ∧ m !! (o ++ rest) = Some v')
                ∨ (¬ o `prefix_of` q ∧ ¬ n `prefix_of` q ∧ m !! q = Some v')) as Hin.
  { intros v'. rewrite list_elem_of_omap. split.
    - intros ([k v0] & Hk%elem_of_map_to_list & [-> Hcase]%moved_Some).
      destruct Hcase as [(rest & -> & ->)|(Ho & Hn & ->)]; [left; by exists rest | by right].
    - intros [(rest & -> & Hm)|(Ho & Hn & Hm)].
      + exists (o ++ rest, v'). split; [by apply elem_of_map_to_list |].
        apply moved_Some. split; [done |]. left. by exists rest.
      + exists (q, v'). split; [by apply elem_of_map_to_list |].
        apply moved_Some. split; [done |]. by right. }
  rewrite <- Hin. split; [apply elem_of_list_to_map_2 |].
  intros Hv. destruct (list_to_map (omap (moved o n) (map_to_list m)) !! q) as [v'|] eqn:Hl.
  - apply elem_of_list_to_map_2 in Hl.
    apply list_elem_of_omap in Hv as ([k1 v1] & Hk1%elem_of_map_to_list & Hm1).
    apply list_elem_of_omap in Hl as ([k2 v2] & Hk2%elem_of_map_to_list & Hm2).
    pose proof (moved_inj _ _ _ _ _ _ _ _ _ Hm1 Hm2) as ->.
    apply moved_Some in Hm1 as [-> _]. apply moved_Some in Hm2 as [-> _]. congruence.
  - apply not_elem_of_list_to_map in Hl. destruct Hl.
    apply list_elem_of_fmap. by exists (q, v).
Qed.

Lemma move_tree_elsewhere (o n q : list string) (m : gmap (list string) node) :
  ¬ o `prefix_of` q → ¬ n `prefix_of` q → move_tree o n m !! q = m !! q.
Proof.
  intros Ho Hn. apply option_eq. intros v. rewrite move_tree_lookup. split.
  - intros [(rest & -> & _)|(_ & _ & H)]; [| done]. destruct Hn. by exists rest.
  - intros H. by right.
Qed.

Lemma move_tree_target (o n rest : list string) (m : gmap (list string) node) :
  move_tree o n m !! (n ++ rest) = m !! (o ++ rest).
Proof.
  apply option_eq. intros v. rewrite move_tree_lookup. split.
  - intros [(rest' & ->%app_inv_head & H)|(_ & Hn & _)]; [done |].
    destruct Hn. by exists rest.
  - intros H. left. by exists rest.
Qed.

Lemma move_tree_source (o n rest : list string) (m : gmap (list string) node) :
  ¬ o `prefix_of` n → ¬ n `prefix_of` o →
  move_tree o n m !! (o ++ rest) = None.
Proof.
  intros Hon Hno. apply eq_None_not_Some. intros [v Hv].
  apply move_tree_lookup in Hv as [(rest' & Heq & _)|(Ho & _)].
  - assert (o `prefix_of` o ++ rest) as H1 by (by exists rest).
    assert (n `prefix_of` o ++ rest) as H2 by (rewrite Heq; by exists rest').
    destruct (prefix_weak_total _ _ _ H1 H2); done.
  - destruct Ho. by exists rest.
Qed.

Lemma sys_rename_moves (oldpath newpath : string) (w w' : world) :
  sys_rename oldpath newpath w = (w', None) →
  resolve w oldpath ≠ resolve w newpath →
  w' = with_fs (move_tree (resolve w oldpath) (resolve w newpath) (fs w)) w.
Proof.
  unfold sys_rename. intros H Hne.
  repeat (case_match; try (inversion H; subst; done)); simplify_eq; try done.
Qed.

(** A rename that succeeds between two different places moves the tree. *)
Lemma Rename_moves (oldpath newpath : string) (w w' : world) :
  Rename oldpath newpath w = (w', None) →
  resolve w oldpath ≠ resolve w newpath →
  w' = with_fs (move_tree (resolve w oldpath) (resolve w newpath) (fs w)) w.
Proof.
  unfold Rename. intros H Hne.
  repeat case_match; simplify_eq; try done; by apply sys_rename_moves.
Qed.

Lemma sys_rename_elsewhere (oldpath newpath : string) (w : world) (q : list string) :
  ¬ resolve w oldpath `prefix_of` q → ¬ resolve w newpath `prefix_of` q →
  fs (fst (sys_rename oldpath newpath w)) !! q = fs w !! q.
Proof.
  intros Ho Hn. unfold sys_rename.
  repeat case_match; cbn [fst fs with_fs]; try done; by apply move_tree_elsewhere.
Qed.

(** A rename changes nothing outside the two trees it names. *)
Lemma Rename_elsewhere (oldpath newpath : string) (w : world) (q : list string) :
  ¬ resolve w oldpath `prefix_of` q → ¬ resolve w newpath `prefix_of` q →
  fs (fst (Rename oldpath newpath w)) !! q = fs w !! q.
Proof.
  intros Ho Hn. unfold Rename.
  repeat case_match; cbn [fst fs with_fs]; try done; by apply sys_rename_elsewhere.
Qed.

End RenameFacts.

Section BackupPathFacts.
Import GoStrings Filepath GoOS.

Lemma contains_sep_app (a b : string) :
  contains_sep (a +:+ b) = contains_sep a || contains_sep b.
Proof.
  induction a as [|c a IH]; [done |]. cbn [String.append contains_sep].
  by destruct (decide (c = Separator)).
Qed.

Lemma digit_no_sep (n : N) : GoTime.digit (n mod 10) ≠ Separator.
Proof.
  assert (n mod 10 < 10)%N as Hlt by (apply N.mod_lt; lia).
  assert (In (n mod 10)%N (map N.of_nat (seq 0 10))) as Hin by (apply below_in_range; lia).
  simpl in Hin. unfold GoTime.digit.
  repeat (destruct Hin as [<-|Hin]; [done |]). done.
Qed.

Lemma utod_no_sep (fuel : nat) (n : N) (acc : string) :
  contains_sep acc = false → contains_sep (GoTime.utod fuel n acc) = false.
Proof.
  revert n acc. induction fuel as [|fuel IH]; intros n acc Hacc; cbn [GoTime.utod].
  - cbn [contains_sep]. by rewrite decide_False by apply digit_no_sep.
  - destruct (n / 10 =? 0)%N.
    + cbn [contains_sep]. by rewrite decide_False by apply digit_no_sep.
    + apply IH. cbn [contains_sep]. by rewrite decide_False by apply digit_no_sep.
Qed.

Lemma zeros_no_sep (k : nat) : contains_sep (GoTime.zeros k) = false.
Proof. induction k as [|k IH]; [done |]. cbn [GoTime.zeros contains_sep]. by rewrite decide_False. Qed.

Lemma appendInt_no_sep (x : N) (width : nat) : contains_sep (GoTime.appendInt x width) = false.
Proof.
  unfold GoTime.appendInt. rewrite contains_sep_app, zeros_no_sep. by apply utod_no_sep.
Qed.

Lemma Format_no_sep (t : gotime) : contains_sep (GoTime.Format t) = false.
Proof.
  unfold GoTime.Format. rewrite !contains_sep_app, !appendInt_no_sep. reflexivity.
Qed.

Lemma Join_snoc_append (es : list string) (e sfx : string) :
  GoStrings.Join (es ++ [e]) "/" +:+ sfx = GoStrings.Join (es ++ [e +:+ sfx]) "/".
Proof.
  induction es as [|x [|y es] IH]; [done | |].
  - cbn [app GoStrings.Join]. by rewrite !string_app_assoc.
  - change ((x :: y :: es) ++ [e]) with (x :: (y :: es) ++ [e]).
    change ((x :: y :: es) ++ [e +:+ sfx]) with (x :: (y :: es) ++ [e +:+ sfx]).
    change ((y :: es) ++ [e]) with (y :: es ++ [e]) in *.
    change ((y :: es) ++ [e +:+ sfx]) with (y :: es ++ [e +:+ sfx]) in *.
    rewrite !Join_cons2. rewrite string_app_assoc.
    change (String Separator (GoStrings.Join (y :: es ++ [e]) "/") +:+ sfx)
      with (String Separator (GoStrings.Join (y :: es ++ [e]) "/" +:+ sfx)).
    by rewrite IH.
Qed.

Lemma plain_backup_name (e : string) (t : gotime) :
  plain e → plain (e +:+ "_backup_" +:+ GoTime.Format t).
Proof.
  intros (Hne & Hdot & Hdd & Hsep).
  assert (8 ≤ String.length (e +:+ "_backup_" +:+ GoTime.Format t)) as Hlen.
  { rewrite !string_length_app. simpl. lia. }
  split_and!; try (intros Heq; rewrite Heq in Hlen; simpl in Hlen; lia).
  rewrite !contains_sep_app, Hsep, Format_no_sep. reflexivity.
Qed.

(** The backup of a cleaned absolute path is the sibling whose name has the
    suffix. *)
Lemma backup_path_render (es : list string) (e : string) (t : gotime) :
  backup_path (render true (es ++ [e])) t
  = render true (es ++ [e +:+ "_backup_" +:+ GoTime.Format t]).
Proof.
  unfold backup_path, render. rewrite string_app_assoc.
  change ("/" +:+ GoStrings.Join (es ++ [e]) "/" +:+ "_backup_" +:+ GoTime.Format t)
    with ("/" +:+ (GoStrings.Join (es ++ [e]) "/" +:+ ("_backup_" +:+ GoTime.Format t))).
  by rewrite Join_snoc_append.
Qed.

Lemma siblings_apart (es : list string) (e e' : string) :
  e ≠ e' → ¬ (es ++ [e]) `prefix_of` (es ++ [e']) ∧ ¬ (es ++ [e']) `prefix_of` (es ++ [e]).
Proof.
  intros Hne. split; intros Hp%prefix_app_inv; apply prefix_cons_inv_1 in Hp; congruence.
Qed.

Lemma backup_name_differs (e : string) (t : gotime) : e ≠ e +:+ "_backup_" +:+ GoTime.Format t.
Proof.
  intros Heq. apply (f_equal String.length) in Heq.
  rewrite !string_length_app in Heq. simpl in Heq. lia.
Qed.


End BackupPathFacts.


(** A backup that is made moves the whole directory: after [backupDir]
    returned [nil] for an existing cleaned absolute path, everything that was
    at or below the path is found, unchanged, at the same place below the
    backup path, nothing is left at or below the path, and the rest of the
    file system is as it was. *)
Theorem backupDir_moves_directory
    (path : string) (es : list string) (e : string) (w w' : world) :
  path = Filepath.render true (es ++ [e]) → Forall plain (es ++ [e]) →
  ¬ absent w path →
  backupDir path w = (w', None) →
  let o := es ++ [e] in
  let n := es ++ [e +:+ "_backup_" +:+ GoTime.Format (now w)] in
  GoOS.resolve w path = o
  ∧ GoOS.resolve w (backup_path path (now w)) = n
  ∧ (∀ rest, fs w' !! (n ++ rest) = fs w !! (o ++ rest))
  ∧ (∀ rest, fs w' !! (o ++ rest) = None)
  ∧ (∀ q, ¬ o `prefix_of` q → ¬ n `prefix_of` q → fs w' !! q = fs w !! q).
Proof.
  intros -> Hpl Habsent Hb. cbv zeta.
  set (o := es ++ [e]). set (n := es ++ [e +:+ "_backup_" +:+ GoTime.Format (now w)]).
  assert (Forall plain n) as Hn.
  { apply Forall_app in Hpl as [Hes He]. apply Forall_app. split; [done |].
    inversion He; subst. constructor; [by apply plain_backup_name | done]. }
  assert (∀ w0, GoOS.resolve w0 (Filepath.render true o) = o) as Hro.
  { intros w0. by apply resolve_render. }
  assert (∀ w0, GoOS.resolve w0 (backup_path (Filepath.render true o) (now w)) = n) as Hrn.
  { intros w0. unfold o. rewrite backup_path_render. by apply resolve_render. }
  split; [apply Hro |]. split; [apply Hrn |].
  unfold backupDir in Hb.
  destruct (GoOS.IsNotExist (GoOS.Stat w (Filepath.render true (es ++ [e])))) eqn:Hst.
  { by apply IsNotExist_Stat in Hst. }
  fold (backup_path (Filepath.render true (es ++ [e])) (now w)) in Hb.
  apply Rename_moves in Hb.
  - rewrite Hro, Hrn in Hb. subst w'. cbn [fs with_fs print].
    destruct (siblings_apart es e (e +:+ "_backup_" +:+ GoTime.Format (now w))
                (backup_name_differs e (now w))) as [Hon Hno].
    split_and!.
    + intros rest. apply move_tree_target.
    + intros rest. by apply move_tree_source.
    + intros q Ho Hq. by apply move_tree_elsewhere.
  - rewrite Hro, Hrn. intros Heq%app_inv_head. injection Heq as Heq.
    by apply backup_name_differs in Heq.
Qed.

(** ** The client and the rest of the file system *)

Section ClientFacts.
Import GoStrings Filepath GoOS.

Lemma Join_abs (p : string) (n : string) (ns : list string) :
  IsAbs p = true → Forall plain (n :: ns) →
  Filepath.Join (p :: n :: ns) = render true (clean_elems true (elems p) ++ n :: ns).
Proof.
  intros Habs Hpl. assert (p ≠ "") as Hp by (by destruct p).
  cbn [Filepath.Join]. destruct (decide (p = "")); [done |].
  rewrite Join_cons2. change (String Separator ?s) with ("/" +:+ s).
  rewrite Clean_extend by done. by rewrite Habs.
Qed.

(** On Linux and macOS with an absolute home directory [getVSCodePath]
    returns the cleaned absolute path of [User] below it. *)
Lemma getVSCodePath_home (h : host) :
  goos h = "linux" ∨ goos h = "darwin" → IsAbs (Getenv h "HOME") = true →
  getVSCodePath h = Ok (render true (settings_parent h ++ ["User"]))
  ∧ Forall plain (settings_parent h ++ ["User"]).
Proof.
  intros Hos Habs. assert (Getenv h "HOME" ≠ "") as Hne by (by destruct (Getenv h "HOME")).
  pose proof (clean_elems_rooted_plain _ (elems_good (Getenv h "HOME"))) as Hhome.
  assert (∀ n ns, Forall plain (n :: ns) →
            Forall plain (clean_elems true (elems (Getenv h "HOME")) ++ n :: ns)) as Hall.
  { intros n ns Hn. apply Forall_app. by split. }
  unfold getVSCodePath, UserHomeDir, settings_parent, config_dirs.
  destruct Hos as [Hos|Hos]; rewrite Hos.
  - rewrite (decide_False (P := "linux" = "windows")) by done.
    rewrite !(decide_False (P := "linux" = "darwin")) by done.
    rewrite (decide_True (P := "linux" = "linux")) by done.
    rewrite (decide_False (P := Getenv h "HOME" = "")) by done.
    rewrite Join_abs by (done || (repeat constructor; done)).
    rewrite <- app_assoc. split; [done |]. apply Hall. repeat constructor; done.
  - rewrite (decide_False (P := "darwin" = "windows")) by done.
    rewrite !(decide_True (P := "darwin" = "darwin")) by done.
    rewrite (decide_False (P := Getenv h "HOME" = "")) by done.
    rewrite Join_abs by (done || (repeat constructor; done)).
    rewrite <- app_assoc. split; [done |]. apply Hall. repeat constructor; done.
Qed.

Lemma confined_outside (root q : list string) (m m' : gmap (list string) node) :
  confined root m m' → ¬ root `prefix_of` q → ¬ q `prefix_of` root → m' !! q = m !! q.
Proof.
  intros Hc Hr Hq. specialize (Hc q).
  assert (¬ below root q) as Hnb by (intros (rest & _ & ->); destruct Hr; by exists rest).
  specialize (Hc Hnb). destruct (m !! q); [done |]. by destruct Hc as [?|[? _]].
Qed.

Lemma backupDir_elsewhere (es : list string) (e : string) (w : world) (q : list string) :
  Forall plain (es ++ [e]) →
  ¬ (es ++ [e]) `prefix_of` q →
  ¬ (es ++ [e +:+ "_backup_" +:+ GoTime.Format (now w)]) `prefix_of` q →
  fs (fst (backupDir (render true (es ++ [e])) w)) !! q = fs w !! q.
Proof.
  intros Hpl Ho Hn. unfold backupDir. destruct (IsNotExist _); [done |].
  fold (backup_path (render true (es ++ [e])) (now w)).
  rewrite Rename_elsewhere; [done | by rewrite resolve_render |].
  rewrite backup_path_render, resolve_render; [done |].
  apply Forall_app in Hpl as [Hes He]. apply Forall_app. split; [done |].
  inversion He; subst. constructor; [by apply plain_backup_name | done].
Qed.

Lemma backupDir_now (path : string) (w : world) : now (fst (backupDir path w)) = now w.
Proof.
  unfold backupDir. destruct (IsNotExist _); [done |]. unfold Rename, sys_rename.
  repeat case_match; done.
Qed.

End ClientFacts.

(** Whatever the server answers and whatever the archive holds, a client run
    on Linux or macOS with an absolute home directory changes nothing outside
    the settings directory, its backup and the directories that lead to them:
    every other path holds after the run what it held before.  This is so in
    both revisions of [runClient]. *)
Theorem runClient_touches_only_settings
    (get : string → http_reply) (serverIP port : string) (w : world) (q : list string) :
  goos (whost w) = "linux" ∨ goos (whost w) = "darwin" →
  Filepath.IsAbs (Getenv (whost w) "HOME") = true →
  let settings := settings_parent (whost w) ++ ["User"] in
  let backup := settings_parent (whost w) ++ ["User_backup_" +:+ GoTime.Format (now w)] in
  ¬ q `prefix_of` settings → ¬ settings `prefix_of` q → ¬ backup `prefix_of` q →
  fs (runClient get serverIP port w) !! q = fs w !! q
  ∧ fs (Rev1.runClient get serverIP port w) !! q = fs w !! q.
Proof.
  intros Hos Habs settings backup Hq Hs Hb.
  destruct (getVSCodePath_home (whost w) Hos Habs) as [Hpath Hpl]. fold settings in Hpath, Hpl.
  assert (Filepath.IsAbs (Filepath.render true settings) = true) as Hvabs
    by apply IsAbs_render_rooted.
  assert (∀ w0 body, fs w0 !! q = fs w !! q →
            fs (fst (unzipDest body (Filepath.render true settings) w0)) !! q = fs w !! q
            ∧ fs (fst (Rev1.unzipDest body (Filepath.render true settings) w0)) !! q
              = fs w !! q) as Hunzip.
  { intros w0 body <-.
    pose proof (decoder_confined unzip_entry body _ w0 Hvabs
                  (λ f w', unzip_entry_confined _ f w' Hvabs)) as H2.
    pose proof (decoder_confined Rev1.unzip_entry body _ w0 Hvabs
                  (λ f w', old_unzip_entry_confined _ f w' Hvabs)) as H1.
    rewrite resolve_render in H1, H2 by done.
    split; by apply (confined_outside settings). }
  assert (∀ w0, now w0 = now w → fs w0 !! q = fs w !! q →
            fs (fst (backupDir (Filepath.render true settings) w0)) !! q = fs w !! q)
    as Hbackup.
  { intros w0 Hnow <-. apply backupDir_elsewhere; [done | done |].
    rewrite Hnow. exact Hb. }
  unfold runClient, runClient_with, Rev1.runClient. rewrite Hpath.
  set (url := "http://" +:+ serverIP +:+ ":" +:+ port +:+ "/sync").
  destruct (get url) as [e|status body]; [done |].
  destruct (negb (status =? StatusOK)); [done |].
  set (w1 := print (MsgConnecting url) w).
  pose proof (Hbackup w1 eq_refl eq_refl) as Hb1.
  destruct (backupDir (Filepath.render true settings) w1) as [w2 [e|]]; cbn [fst] in Hb1.
  - split; [done |].
    destruct (Hunzip (print MsgUnpacking (print (MsgBackupWarning e) w2)) body Hb1) as [_ H1].
    by destruct (Rev1.unzipDest body _ _) as [w3 [e'|]].
  - destruct (Hunzip (print MsgUnpacking w2) body Hb1) as [H2 H1]. split.
    + by destruct (unzipDest body _ _) as [w3 [e'|]].
    + by destruct (Rev1.unzipDest body _ _) as [w3 [e'|]].
Qed.

(** ** The handler, and a whole run *)

Section HandlerFacts.
Import GoStrings Filepath GoOS.

Lemma addFolderToZip_readable_onto (dsk : gmap string tree) (folderPath zipPath : string)
    (t : tree) (a : Zip.Writer) :
  IsAbs folderPath = true → dsk !! folderPath = Some t →
  wf_tree t → readable t → Zip.zw_closed a = false →
  addFolderToZip dsk folderPath zipPath a
  = (Zip.MkWriter (Zip.zw_files a ++ map (entry_of zipPath) (files_of [] t)) false, WNil).
Proof.
  intros Habs Ht Hwf Hread Ha. rewrite addFolderToZip_run. unfold encoder_plan. rewrite Ht.
  rewrite root_entry_readable by done.
  change folderPath with (walk_path folderPath []) at 2.
  rewrite (proj1 (plan_readable folderPath zipPath Habs)) by done.
  by rewrite run_entries.
Qed.

Lemma syncHandler_readable (srv : server) (tu te : tree) :
  IsAbs (Getenv (shost srv) "APPDATA") = true →
  IsAbs (Getenv (shost srv) "USERPROFILE") = true →
  disk srv !! userDir srv = Some tu → disk srv !! extDir srv = Some te →
  wf_tree tu → readable tu → wf_tree te → readable te →
  syncHandler srv "GET"
  = Responded
      (Response StatusOK
         (zip_headers ++ [("Cache-Control", "no-cache, no-store, must-revalidate")])
         (Archive (ZipStream (sync_entries tu te)))).
Proof.
  intros Hau Hae Hu He Hwu Hru Hwe Hre. unfold syncHandler.
  cbn [bool_decide decide_rel negb]. rewrite bool_decide_eq_true_2 by done. cbn [negb].
  fold (userDir srv). fold (extDir srv).
  assert (IsAbs (userDir srv) = true) as Hua.
  { unfold userDir. rewrite Join_abs by (done || (repeat constructor; done)).
    apply IsAbs_render_rooted. }
  assert (IsAbs (extDir srv) = true) as Hea.
  { unfold extDir. rewrite Join_abs by (done || (repeat constructor; done)).
    apply IsAbs_render_rooted. }
  rewrite (addFolderToZip_readable_onto _ _ _ tu) by done.
  rewrite (addFolderToZip_readable_onto _ _ _ te) by done.
  reflexivity.
Qed.

(** The decoder on entries with free, pairwise unrelated targets below an
    empty root. *)
Lemma unzipDest_lands (dest : string) (items : list landing) (w : world) :
  IsAbs dest = true → faults w = [] → empty_destination w dest →
  Forall (lands_ok dest) items →
  antichain (map l_target items) →
  (∀ l, l ∈ items → below (resolve w dest) (l_target l)) →
  ∃ w', unzipDest (ZipStream (map l_file items)) dest w = (w', None)
        ∧ ∀ l, l ∈ items →
            fs w' !! l_target l
            = Some (NFile (N.ldiff (zperm (l_file l)) (umask w)) (l_data l)).
Proof.
  intros Habs Hq Hempty Hok Hanti Hbelow.
  unfold unzipDest. cbn [Zip.NewReader].
  rewrite MkdirAll_root_quiet by done. cbn [fst].
  unfold empty_destination in Hempty. rewrite !(resolve_abs w dest Habs) in *.
  set (D := clean_elems true (elems dest)) in *.
  set (w1 := with_fs _ w). destruct Hempty as [Hup Hfree].
  destruct (unzip_loop_writes dest items w1) as (w' & Hloop & Hall & _); try done.
  - intros l Hin. destruct (Hbelow l Hin) as (rest & Hne & Ht). split.
    + unfold w1. cbn [fs with_fs]. rewrite lookup_add_dirs, Ht. rewrite Hfree.
      * rewrite decide_False; [done |]. intros [_ Hp%prefix_length]%elem_of_prefixes.
        rewrite length_app in Hp. destruct rest; [done |]. simpl in Hp. lia.
      * by apply prefix_app_r.
      * intros Heq. apply (f_equal length) in Heq. rewrite length_app in Heq.
        destruct rest; [done |]. simpl in Heq. lia.
    + intros q (Hqne & Hqp & Hqneq)%elem_of_ancestors.
      unfold w1. cbn [fs with_fs]. apply is_file_add_dirs. rewrite Ht in Hqp.
      apply prefix_of_app_cases in Hqp as [Hqp|(X' & HX' & ->)]; [by apply Hup |].
      unfold is_file. rewrite Hfree; [done | by apply prefix_app_r |].
      intros Heq. apply (f_equal length) in Heq. rewrite length_app in Heq.
      destruct X'; [done |]. simpl in Heq. lia.
  - exists w'. split; [done |]. exact Hall.
Qed.

Lemma mkdir_chain_frame (path : string) (perm : N) (ps : list (list string)) (w : world) :
  frame (fst (mkdir_chain path perm ps w)) = frame w.
Proof.
  revert w. induction ps as [|p ps IH]; intros w; simpl; [done |].
  repeat case_match; try done; by rewrite IH.
Qed.

Lemma MkdirAll_frame (path : string) (perm : N) (w : world) :
  frame (fst (MkdirAll path perm w)) = frame w.
Proof. unfold MkdirAll. case_match; [done | apply mkdir_chain_frame]. Qed.

Lemma OpenFile_frame (path : string) (perm : N) (w : world) :
  frame (fst (OpenFile_create_trunc path perm w)) = frame w.
Proof. unfold OpenFile_create_trunc. repeat case_match; done. Qed.

Lemma Copy_frame (h : list string) (rc : zbody) (w : world) : frame (fst (Copy h rc w)) = frame w.
Proof. unfold Copy, GoOS.Write. repeat case_match; simplify_eq; done. Qed.

Lemma unzip_entry_frame (dest : string) (f : zfile) (w : world) :
  frame (fst (unzip_entry dest f w)) = frame w.
Proof.
  unfold unzip_entry. destruct (negb _); [done |]. destruct (Zip.IsDir f).
  { apply MkdirAll_frame. }
  pose proof (MkdirAll_frame (Dir (Filepath.Join [dest; zname f])) perm0755 w) as H1.
  destruct (MkdirAll _ perm0755 w) as [w1 [e|]]; [done |]. cbn [fst] in H1.
  pose proof (OpenFile_frame (Filepath.Join [dest; zname f]) (Zip.Mode f) w1) as H2.
  destruct (OpenFile_create_trunc _ _ w1) as [w2 [h|e]]; cbn [fst] in *; [| congruence].
  destruct (Zip.Open f) as [rc|e]; [| cbn [fst]; congruence].
  rewrite Copy_frame. congruence.
Qed.

Lemma unzipDest_frame (reader : stream) (dest : string) (w : world) :
  frame (fst (unzipDest reader dest w)) = frame w.
Proof.
  unfold unzipDest. pose proof (MkdirAll_frame dest perm0755 w) as H0.
  destruct (Zip.NewReader reader) as [files|e]; [| done].
  revert H0. generalize (fst (MkdirAll dest perm0755 w)). intros w0 <-.
  revert w0. induction files as [|f files IH]; intros w0; [done |]. simpl.
  pose proof (unzip_entry_frame dest f w0) as H1.
  destruct (unzip_entry dest f w0) as [w1 [e|]]; [done |]. cbn [fst] in H1.
  by rewrite IH.
Qed.

End HandlerFacts.

Section SyncFacts.
Import GoStrings Filepath GoOS.

Lemma landings_ok (dest zipPath : string) (t : tree) :
  IsAbs dest = true → clean_elems true (elems dest) ≠ [] →
  Forall plain (elems zipPath) → elems zipPath ≠ [] →
  tree_IsDir t = true → wf_tree t →
  let D := clean_elems true (elems dest) in
  Forall (lands_ok dest) (map (landing_of D zipPath) (files_of [] t))
  ∧ antichain (map l_target (map (landing_of D zipPath) (files_of [] t)))
  ∧ (∀ l, l ∈ map (landing_of D zipPath) (files_of [] t) →
       ∃ rest, l_target l = D ++ elems zipPath ++ rest)
  ∧ map l_file (map (landing_of D zipPath) (files_of [] t))
    = map (entry_of zipPath) (files_of [] t).
Proof.
  intros Habs HD Hzip Hzne Hdir Hwf D.
  destruct (files_of_shape) as [Hshape _]. destruct (Hshape t [] Hwf) as [Hitems Hanti].
  split_and!.
  - apply Forall_forall. intros l (item & -> & Hin)%list_elem_of_fmap.
    destruct (Hitems item Hin) as (ext & Hext & Hpl & Hne). simpl in Hext.
    apply landing_ok; try done; rewrite Hext; [by apply Hne | done].
  - rewrite map_map. cbn [landing_of l_target].
    rewrite (map_ext _ (λ item, (D ++ elems zipPath) ++ item.1.1))
      by (intros; by rewrite app_assoc).
    rewrite <- (map_map (λ item, item.1.1) (app (D ++ elems zipPath))).
    by apply antichain_below.
  - intros l (item & -> & Hin)%list_elem_of_fmap. by exists item.1.1.
  - by rewrite map_map.
Qed.

End SyncFacts.

(** When both directories of the server are readable, the handler answers
    a GET with status 200 and a closed archive that holds the files of the
    settings directory that pass the filter under the prefix [User], followed
    by those of the extensions directory under the prefix [extensions]. *)
Theorem syncHandler_sends_both_directories (srv : server) (tu te : tree) :
  Filepath.IsAbs (Getenv (shost srv) "APPDATA") = true →
  Filepath.IsAbs (Getenv (shost srv) "USERPROFILE") = true →
  disk srv !! userDir srv = Some tu → disk srv !! extDir srv = Some te →
  wf_tree tu → readable tu → wf_tree te → readable te →
  syncHandler srv "GET"
  = Responded
      (Response StatusOK
         (zip_headers ++ [("Cache-Control", "no-cache, no-store, must-revalidate")])
         (Archive (ZipStream (sync_entries tu te))))
  ∧ ∀ f, f ∈ sync_entries tu te ↔
         (∃ here perm data,
             retained_file tu here perm data ∧ f = entry_of "User" (here, perm, data))
         ∨ (∃ here perm data,
             retained_file te here perm data ∧ f = entry_of "extensions" (here, perm, data)).
Proof.
  intros Hau Hae Hu He Hwu Hru Hwe Hre. split; [by apply syncHandler_readable |].
  assert (∀ zipPath t f, wf_tree t →
            f ∈ map (entry_of zipPath) (files_of [] t) ↔
            ∃ here perm data,
              retained_file t here perm data ∧ f = entry_of zipPath (here, perm, data))
    as Hside.
  { intros zipPath t f Hwf. split.
    - intros ([[here perm] data] & -> & Hin)%list_elem_of_fmap.
      exists here, perm, data. split; [by apply listed_file_is_retained | done].
    - intros (here & perm & data & Hret & ->).
      apply list_elem_of_fmap. exists (here, perm, data).
      split; [done | by apply retained_file_in]. }
  intros f. unfold sync_entries. rewrite elem_of_app, !Hside by done. done.
Qed.

(** A whole run: the handler serves two readable directories, the reply
    reaches the client as it was sent, and the client, on Linux or macOS with
    an absolute home directory, has no settings directory yet and refuses no
    call.  Then the run ends with the message of success, and every file that
    passes the filter is found below the client's settings directory, at
    [User] or [extensions] followed by its relative path, with its bytes and
    with the mode it had on the server less the client's mask (the files are
    new on the client, and [os.OpenFile] creates them). *)
Theorem sync_delivers_both_directories
    (srv : server) (tu te : tree) (get : string → http_reply) (serverIP port : string)
    (w : world) :
  Filepath.IsAbs (Getenv (shost srv) "APPDATA") = true →
  Filepath.IsAbs (Getenv (shost srv) "USERPROFILE") = true →
  disk srv !! userDir srv = Some tu → disk srv !! extDir srv = Some te →
  tree_IsDir tu = true → wf_tree tu → readable tu →
  tree_IsDir te = true → wf_tree te → readable te →
  goos (whost w) = "linux" ∨ goos (whost w) = "darwin" →
  Filepath.IsAbs (Getenv (whost w) "HOME") = true →
  faults w = [] →
  let settings := settings_parent (whost w) ++ ["User"] in
  let url := "http://" +:+ serverIP +:+ ":" +:+ port +:+ "/sync" in
  (∀ q, q `prefix_of` settings → GoOS.is_file (fs w) q = false) →
  (∀ q, settings `prefix_of` q → fs w !! q = None) →
  (∀ st hdr s, syncHandler srv "GET" = Responded (Response st hdr (Archive s)) →
               get url = Reply st s) →
  stdout (runClient get serverIP port w)
  = stdout w ++ [MsgConnecting url; MsgUnpacking; MsgSyncDone]
  ∧ (∀ here perm data,
       retained_file tu here perm data →
       fs (runClient get serverIP port w) !! (settings ++ "User" :: here)
       = Some (NFile (N.ldiff perm (umask w)) data))
  ∧ (∀ here perm data,
       retained_file te here perm data →
       fs (runClient get serverIP port w) !! (settings ++ "extensions" :: here)
       = Some (NFile (N.ldiff perm (umask w)) data)).
Proof.
  intros Hau Hae Hu He Hdu Hwu Hru Hde Hwe Hre Hos Habs Hq settings url Hup Hfree Hget.
  destruct (getVSCodePath_home (whost w) Hos Habs) as [Hpath Hpl]. fold settings in Hpath, Hpl.
  assert (settings ≠ []) as Hne by (unfold settings; by destruct (settings_parent _)).
  clearbody settings.
  set (vs := Filepath.render true settings) in *.
  assert (Filepath.IsAbs vs = true) as Hvabs by apply IsAbs_render_rooted.
  assert (∀ w0, GoOS.resolve w0 vs = settings) as Hres by (intros; by apply resolve_render).
  assert (Filepath.clean_elems true (Filepath.elems vs) = settings) as HD.
  { by rewrite <- (resolve_abs w vs Hvabs). }
  specialize (Hget _ _ _ (syncHandler_readable srv tu te Hau Hae Hu He Hwu Hru Hwe Hre)).
  unfold runClient, runClient_with. rewrite Hpath. fold url. rewrite Hget.
  cbn [Nat.eqb StatusOK negb].
  set (w1 := print (MsgConnecting url) w).
  assert (backupDir vs w1 = (w1, None)) as ->.
  { unfold backupDir. rewrite (proj2 (IsNotExist_Stat w1 vs)); [done |]. right.
    rewrite Hres. split_and!.
    - by apply faulty_quiet.
    - unfold GoOS.under_file. apply not_true_is_false.
      intros (q & Hin & Hfile)%existsb_exists. apply list_elem_of_In in Hin.
      apply elem_of_ancestors in Hin as (_ & Hp & _). cbn [fs w1 print] in Hfile.
      by rewrite Hup in Hfile.
    - assert (GoOS.node_at (fs w1) settings = fs w1 !! settings) as ->
        by (unfold GoOS.node_at; by destruct settings).
      cbn [fs w1 print]. by apply Hfree. }
  set (w2 := print MsgUnpacking w1).
  destruct (landings_ok vs "User" tu) as (Hok1 & Hanti1 & Hat1 & Hfiles1);
    try done; [by rewrite HD | repeat constructor; done |].
  destruct (landings_ok vs "extensions" te) as (Hok2 & Hanti2 & Hat2 & Hfiles2);
    try done; [by rewrite HD | repeat constructor; done |].
  rewrite HD in *.
  destruct (unzipDest_lands vs
              (map (landing_of settings "User") (files_of [] tu)
               ++ map (landing_of settings "extensions") (files_of [] te)) w2)
    as (w3 & Hunzip & Hall); try done.
  - split; intros q; rewrite Hres; cbn [fs w2 w1 print]; [apply Hup |].
    intros Hp _. by apply Hfree.
  - apply Forall_app. by split.
  - rewrite map_app. apply antichain_app; [done | done |].
    intros x y (l1 & -> & Hl1)%list_elem_of_fmap (l2 & -> & Hl2)%list_elem_of_fmap.
    destruct (Hat1 l1 Hl1) as (r1 & ->). destruct (Hat2 l2 Hl2) as (r2 & ->).
    split; intros Hp%prefix_app_inv; apply prefix_cons_inv_1 in Hp; discriminate Hp.
  - intros l [Hin|Hin]%elem_of_app; rewrite Hres.
    + destruct (Hat1 l Hin) as (r1 & ->). exists ("User" :: r1). split; [done | reflexivity].
    + destruct (Hat2 l Hin) as (r2 & ->). exists ("extensions" :: r2).
      split; [done | reflexivity].
  - rewrite map_app, Hfiles1, Hfiles2 in Hunzip. fold (sync_entries tu te) in Hunzip.
    rewrite Hunzip. cbn [stdout fs print].
    pose proof (unzipDest_frame (ZipStream (sync_entries tu te)) vs w2) as Henv.
    rewrite Hunzip in Henv. cbn [fst] in Henv. injection Henv as _ _ _ _ _ Hout.
    split_and!.
    + rewrite Hout. cbn [stdout w2 w1 print]. by rewrite <- !app_assoc.
    + intros here perm data Hret%retained_file_in.
      apply (Hall (landing_of settings "User" (here, perm, data))).
      apply elem_of_app. left. apply list_elem_of_fmap. by exists (here, perm, data).
    + intros here perm data Hret%retained_file_in.
      apply (Hall (landing_of settings "extensions" (here, perm, data))).
      apply elem_of_app. right. apply list_elem_of_fmap. by exists (here, perm, data).
Qed.

(** ** The backup after a run, the root as a destination, the announced command *)

Section MoreClientFacts.
Import GoStrings Filepath GoOS.

Lemma backupDir_made (es : list string) (e : string) (w w' : world) :
  Forall plain (es ++ [e]) →
  ¬ absent w (render true (es ++ [e])) →
  backupDir (render true (es ++ [e])) w = (w', None) →
  fs w' = move_tree (es ++ [e]) (es ++ [e +:+ "_backup_" +:+ GoTime.Format (now w)]) (fs w).
Proof.
  intros Hpl Habsent Hb. unfold backupDir in Hb.
  destruct (IsNotExist (Stat w (render true (es ++ [e])))) eqn:Hst.
  { by apply IsNotExist_Stat in Hst. }
  fold (backup_path (render true (es ++ [e])) (now w)) in Hb.
  assert (Forall plain (es ++ [e +:+ "_backup_" +:+ GoTime.Format (now w)])) as Hn.
  { apply Forall_app in Hpl as [Hes He]. apply Forall_app. split; [done |].
    inversion He; subst. constructor; [by apply plain_backup_name | done]. }
  apply Rename_moves in Hb.
  - rewrite backup_path_render, !resolve_render in Hb by done. by subst w'.
  - rewrite backup_path_render, !resolve_render by done.
    intros Heq%app_inv_head. injection Heq as Heq. by apply backup_name_differs in Heq.
Qed.

Lemma second_slash (T : list string) :
  Forall good T → HasPrefix (render true T) "//" = false.
Proof.
  intros HT. unfold HasPrefix, render.
  change ("/" +:+ GoStrings.Join T "/") with (String "/" (GoStrings.Join T "/")).
  cbn [String.prefix]. destruct (ascii_dec "/" "/"); [| done].
  destruct T as [|t T']; [done |].
  pose proof (IsAbs_render_unrooted (t :: T') ltac:(done) HT) as Habs.
  unfold IsAbs, HasPrefix in Habs. exact Habs.
Qed.

Lemma Rename_stdout (oldpath newpath : string) (w : world) :
  stdout (fst (Rename oldpath newpath w)) = stdout w.
Proof. unfold Rename, sys_rename. repeat case_match; done. Qed.

End MoreClientFacts.

(** On Linux and macOS with an absolute home directory [getVSCodePath]
    returns an absolute path that is already clean and that names the
    directory [User] below the configuration directories of the home
    directory. *)
Theorem getVSCodePath_under_home (h : host) (w : world) :
  goos h = "linux" ∨ goos h = "darwin" →
  Filepath.IsAbs (Getenv h "HOME") = true →
  ∃ p, getVSCodePath h = Ok p
       ∧ Filepath.IsAbs p = true ∧ Filepath.Clean p = p
       ∧ GoOS.resolve w p = GoOS.resolve w (Getenv h "HOME") ++ config_dirs h ++ ["User"].
Proof.
  intros Hos Habs. destruct (getVSCodePath_home h Hos Habs) as [Hpath Hpl].
  exists (Filepath.render true (settings_parent h ++ ["User"])). split_and!.
  - done.
  - apply IsAbs_render_rooted.
  - by apply Clean_rooted.
  - rewrite resolve_render by done. rewrite resolve_abs by done.
    unfold settings_parent. by rewrite <- app_assoc.
Qed.

(** After a run in which the backup was made, the backup holds exactly what
    the settings directory held before the run, whatever the archive did to
    the settings directory and whether or not the decoder failed. *)
Theorem runClient_keeps_backup
    (get : string → http_reply) (serverIP port : string) (body : stream) (w : world)
    (rest : list string) :
  goos (whost w) = "linux" ∨ goos (whost w) = "darwin" →
  Filepath.IsAbs (Getenv (whost w) "HOME") = true →
  let settings := settings_parent (whost w) ++ ["User"] in
  let backup := settings_parent (whost w) ++ ["User_backup_" +:+ GoTime.Format (now w)] in
  let url := "http://" +:+ serverIP +:+ ":" +:+ port +:+ "/sync" in
  get url = Reply StatusOK body →
  ¬ absent w (Filepath.render true settings) →
  snd (backupDir (Filepath.render true settings) (print (MsgConnecting url) w)) = None →
  fs (runClient get serverIP port w) !! (backup ++ rest) = fs w !! (settings ++ rest).
Proof.
  intros Hos Habs settings backup url Hget Hexists Hmade.
  destruct (getVSCodePath_home (whost w) Hos Habs) as [Hpath Hpl]. fold settings in Hpath, Hpl.
  assert (Filepath.IsAbs (Filepath.render true settings) = true) as Hvabs
    by apply IsAbs_render_rooted.
  unfold runClient, runClient_with. rewrite Hpath. fold url. rewrite Hget.
  cbn [Nat.eqb StatusOK negb].
  set (w1 := print (MsgConnecting url) w) in *.
  destruct (backupDir (Filepath.render true settings) w1) as [w2 [e|]] eqn:Hb; [done |].
  apply backupDir_made in Hb; [| done | done]. cbn [now fs w1 print] in Hb. fold backup in Hb.
  destruct (siblings_apart (settings_parent (whost w)) "User"
              ("User_backup_" +:+ GoTime.Format (now w))) as [Hsb Hbs].
  { apply (backup_name_differs "User"). }
  fold settings backup in Hsb, Hbs.
  assert (fs (fst (unzipDest body (Filepath.render true settings) (print MsgUnpacking w2)))
            !! (backup ++ rest) = fs w !! (settings ++ rest)) as Hkeep.
  { pose proof (decoder_confined unzip_entry body _ (print MsgUnpacking w2) Hvabs
                  (λ f w', unzip_entry_confined _ f w' Hvabs)) as Hc.
    rewrite resolve_render in Hc by done.
    assert (backup `prefix_of` backup ++ rest) as Hbr by (by exists rest).
    assert (¬ below settings (backup ++ rest)) as Hnb.
    { intros (r & _ & Heq).
      assert (settings `prefix_of` backup ++ rest) as Hsr by (rewrite Heq; by exists r).
      destruct (prefix_weak_total _ _ _ Hsr Hbr); done. }
    specialize (Hc (backup ++ rest) Hnb). cbn [fs print] in Hc.
    rewrite Hb, move_tree_target in Hc. fold settings in Hc.
    destruct (fs w !! (settings ++ rest)) as [x|]; [done |].
    destruct Hc as [Hc|[Hp _]]; [done |].
    destruct Hbs. by transitivity (backup ++ rest). }
  by destruct (unzipDest body _ _) as [w3 [e|]].
Qed.

(** Decoding into the root directory, given by its cleaned path, writes
    nothing: the guard compares with the cleaned root followed by a
    separator, and no cleaned path starts with two separators, so the first
    entry is rejected, in both revisions. *)
Theorem unzipDest_into_root_rejects (dest : string) (f : zfile) (files : list zfile)
    (w : world) :
  Filepath.IsAbs dest = true → Filepath.Clean dest = dest → GoOS.resolve w dest = [] →
  unzipDest (ZipStream (f :: files)) dest w
    = (w, Some (ErrInvalidPath (Filepath.Join [dest; zname f])))
  ∧ Rev1.unzipDest (ZipStream (f :: files)) dest w
    = (w, Some (ErrInvalidPath (Filepath.Join [dest; zname f]))).
Proof.
  intros Habs _ Hroot.
  assert (fst (GoOS.MkdirAll dest perm0755 w) = w) as Hmk.
  { unfold GoOS.MkdirAll. destruct (decide (dest = "")); [done |]. by rewrite Hroot. }
  assert (GoStrings.HasPrefix (Filepath.Join [dest; zname f]) (Filepath.Clean dest +:+ "/")
          = false) as Hguard.
  { rewrite Join_dest_name, Clean_dest by done. rewrite resolve_abs in Hroot by done.
    rewrite Hroot. apply second_slash, Forall_plain_good, clean_elems_rooted_plain.
    apply Forall_app. split; apply elems_good. }
  unfold unzipDest, Rev1.unzipDest. rewrite Hmk. cbn [Zip.NewReader unzip_loop].
  unfold unzip_entry, Rev1.unzip_entry. by rewrite Hguard.
Qed.

(** The command that the server announces does not work with the client
    as it is: the address it prints already ends in the port, [main] hands
    it to [runClient] as the server address together with the default port,
    and [runClient] asks for a URL whose host part carries two ports. *)
Theorem announced_command_doubles_port
    (interfaces : result (list Net.Interface)) (port displayAddr Addr vscodePath : string)
    (get : string → http_reply) (w : world) :
  runServer_startup interfaces port = Announced displayAddr Addr →
  getVSCodePath (whost w) = Ok vscodePath →
  displayAddr = getLocalIP interfaces +:+ ":" +:+ port
  ∧ main (announced_command displayAddr) = Returns (RunClient displayAddr DEFAULT_PORT)
  ∧ ∃ rest,
      stdout (runClient get displayAddr DEFAULT_PORT w)
      = stdout w
        ++ MsgConnecting ("http://" +:+ getLocalIP interfaces +:+ ":" +:+ port
                          +:+ ":" +:+ DEFAULT_PORT +:+ "/sync") :: rest.
Proof.
  intros Hstart Hpath. unfold runServer_startup in Hstart.
  destruct (decide (getLocalIP interfaces = "")); [done |]. injection Hstart as <- <-.
  split; [done |]. split; [reflexivity |].
  unfold runClient, runClient_with. rewrite Hpath.
  rewrite !string_app_assoc.
  set (url := "http://" +:+ _).
  assert (∀ w0 body, stdout (fst (unzipDest body vscodePath w0)) = stdout w0) as Hun.
  { intros w0 body. pose proof (unzipDest_frame body vscodePath w0) as Henv.
    by injection Henv. }
  assert (∀ w0, ∃ r, stdout (fst (backupDir vscodePath w0)) = stdout w0 ++ r) as Hbk.
  { intros w0. unfold backupDir. destruct (GoOS.IsNotExist _).
    - exists []. by rewrite app_nil_r.
    - eexists. rewrite Rename_stdout. reflexivity. }
  assert (∀ (w0 : world) (ms : list msg),
            stdout w0 = (stdout w ++ [MsgConnecting url]) ++ ms →
            ∃ rest, stdout w0 = stdout w ++ MsgConnecting url :: rest) as Hend.
  { intros w0 ms ->. exists ms. by rewrite <- app_assoc. }
  destruct (get url) as [e|status body]; [by apply (Hend _ [MsgConnError e]) |].
  destruct (negb (status =? StatusOK)); [by apply (Hend _ [MsgServerStatus status]) |].
  destruct (Hbk (print (MsgConnecting url) w)) as [r Hr].
  destruct (backupDir vscodePath (print (MsgConnecting url) w)) as [w2 [e|]];
    cbn [fst stdout print] in Hr.
  - apply (Hend _ (r ++ [MsgBackupError e; MsgSyncCancelled])). cbn [stdout print].
    rewrite Hr. by rewrite <- !app_assoc.
  - pose proof (Hun (print MsgUnpacking w2) body) as H3.
    destruct (unzipDest body vscodePath (print MsgUnpacking w2)) as [w3 [e|]];
      cbn [fst stdout print] in H3.
    + apply (Hend _ (r ++ [MsgUnpacking; MsgUnzipError e])). cbn [stdout print].
      rewrite H3, Hr. by rewrite <- !app_assoc.
    + apply (Hend _ (r ++ [MsgUnpacking; MsgSyncDone])). cbn [stdout print].
      rewrite H3, Hr. by rewrite <- !app_assoc.
Qed.

(** ** Instances *)

Lemma unzipDest_confined_to_root_witness :
  confined (GoOS.resolve locked_world "/home/u/.config/Code/User") (fs locked_world)
    (fs (fst (unzipDest hostile_archive "/home/u/.config/Code/User" locked_world)))
  ∧ confined (GoOS.resolve locked_world "/home/u/.config/Code/User") (fs locked_world)
      (fs (fst (Rev1.unzipDest hostile_archive "/home/u/.config/Code/User" locked_world))).
Proof.
  apply (unzipDest_confined_to_root hostile_archive "/home/u/.config/Code/User" locked_world).
  - reflexivity.
  - reflexivity.
Defined.

Lemma unzip_entry_truncates_existing_file_witness :
  let f := ZFile "settings.json" 493%N false BadMethod in
  snd (unzip_entry "/home/u/.config/Code/User" f settled_world) = Some ErrZipAlgorithm
  ∧ fs (fst (unzip_entry "/home/u/.config/Code/User" f settled_world))
      !! (config_dir ++ ["settings.json"]) = Some (NFile 420%N []).
Proof.
  intros f.
  apply (unzip_entry_truncates_existing_file "/home/u/.config/Code/User" ["settings.json"]
           f settled_world 420%N old_settings).
  - reflexivity.
  - done.
  - done.
  - repeat constructor; done.
  - reflexivity.
  - reflexivity.
  - reflexivity.
  - intros q Hq. apply list_elem_of_In in Hq. vm_compute in Hq.
    repeat (destruct Hq as [<-|Hq]; [reflexivity |]). destruct Hq.
  - reflexivity.
Defined.

Lemma zipSource_archives_every_file_witness :
  Rev1.zipSource scenario_disk "/srv/User"
  = Returns (Ok (ZipStream (map source_entry (all_files [] scenario_root))))
  ∧ ZFile "/Cache/tmp.bin" 438%N false (Stored (replicate 1000 Byte.x00))
    ∈ map source_entry (all_files [] scenario_root).
Proof.
  destruct (zipSource_archives_every_file scenario_disk "/srv/User" scenario_root)
    as [Hzip Hall].
  - reflexivity.
  - reflexivity.
  - done.
  - reflexivity.
  - apply scenario_root_wf.
  - apply scenario_root_readable.
  - split; [exact Hzip |].
    apply (Hall ["Cache"; "tmp.bin"] 420%N (replicate 1000 Byte.x00) healthy); [reflexivity | done].
Defined.

Lemma old_roundtrip_fails_below_top_level_witness :
  ∃ s p, Rev1.zipSource scenario_disk "/srv/User" = Returns (Ok s)
         ∧ snd (Rev1.unzipDest s "/home/u/cfg" empty_world) = Some (PathError OpOpen p ENOENT).
Proof.
  apply (old_roundtrip_fails_below_top_level scenario_disk "/srv/User" "/home/u/cfg"
           scenario_root empty_world ["Cache"; "tmp.bin"] 420%N (replicate 1000 Byte.x00)
           healthy).
  - reflexivity.
  - reflexivity.
  - done.
  - reflexivity.
  - reflexivity.
  - apply scenario_root_wf.
  - apply scenario_root_readable.
  - reflexivity.
  - done.
  - reflexivity.
  - apply empty_world_destination.
  - reflexivity.
  - simpl. lia.
Defined.

Lemma old_syncHandler_reports_failure_witness :
  ∃ pre e post,
    zipSource_plan shrinking_disk "/srv/User" = pre ++ SFail e :: post
    ∧ Forall is_write pre
    ∧ Rev1.syncHandler (Server sample_host shrinking_disk) "/srv/User" "GET"
      = Responded (http_Error (ErrorText e) StatusInternalServerError).
Proof.
  apply (old_syncHandler_reports_failure (Server sample_host shrinking_disk) "/srv/User"
           shrinking_root).
  - reflexivity.
  - reflexivity.
  - done.
  - reflexivity.
  - reflexivity.
  - simpl. repeat split; try done; rewrite list_elem_of_In; simpl; intuition discriminate.
  - simpl. intros (_ & _ & H & _). discriminate H.
Defined.



Lemma settled_world_exists : ¬ absent settled_world "/home/u/.config/Code/User".
Proof. intros [H|(_ & _ & H)]; [discriminate H | vm_compute in H; discriminate H]. Qed.


Lemma backupDir_moves_directory_witness :
  let w' := fst (backupDir "/home/u/.config/Code/User" settled_world) in
  fs w' !! ["home"; "u"; ".config"; "Code"; "User_backup_20240309-070501"; "settings.json"]
  = Some (NFile 420%N old_settings)
  ∧ fs w' !! (config_dir ++ ["settings.json"]) = None.
Proof.
  intros w'.
  destruct (backupDir_moves_directory "/home/u/.config/Code/User"
              ["home"; "u"; ".config"; "Code"] "User" settled_world w')
    as (_ & _ & Hmoved & Hgone & _).
  - reflexivity.
  - repeat constructor; done.
  - apply settled_world_exists.
  - vm_compute. reflexivity.
  - split.
    + exact (Hmoved ["settings.json"]).
    + exact (Hgone ["settings.json"]).
Defined.

Lemma runClient_touches_only_settings_witness :
  fs (runClient (answering hostile_archive) "10.0.0.2" "8080" settled_world) !! ["etc"; "passwd"]
  = fs settled_world !! ["etc"; "passwd"]
  ∧ fs (Rev1.runClient (answering hostile_archive) "10.0.0.2" "8080" settled_world)
      !! ["etc"; "passwd"]
    = fs settled_world !! ["etc"; "passwd"].
Proof.
  apply (runClient_touches_only_settings (answering hostile_archive) "10.0.0.2" "8080"
           settled_world ["etc"; "passwd"]).
  - left. reflexivity.
  - reflexivity.
  - intros [k Hk]. vm_compute in Hk. discriminate Hk.
  - intros [k Hk]. vm_compute in Hk. discriminate Hk.
  - intros [k Hk]. vm_compute in Hk. discriminate Hk.
Defined.

Lemma scenario_extensions_wf : wf_tree scenario_extensions.
Proof.
  simpl. repeat split; try done; rewrite list_elem_of_In; simpl; intuition discriminate.
Qed.

Lemma syncHandler_sends_both_directories_witness :
  syncHandler sample_server "GET"
  = Responded
      (Response StatusOK
         (zip_headers ++ [("Cache-Control", "no-cache, no-store, must-revalidate")])
         (Archive (ZipStream (sync_entries scenario_root scenario_extensions))))
  ∧ map zname (sync_entries scenario_root scenario_extensions)
    = ["User/settings.json"; "extensions/ms-python.python/package.json"].
Proof.
  destruct (syncHandler_sends_both_directories sample_server scenario_root
              scenario_extensions) as [Hreply _].
  - reflexivity.
  - reflexivity.
  - reflexivity.
  - reflexivity.
  - apply scenario_root_wf.
  - apply scenario_root_readable.
  - apply scenario_extensions_wf.
  - simpl. repeat split.
  - split; [exact Hreply | reflexivity].
Defined.

Lemma sync_delivers_both_directories_witness :
  let get := answering (ZipStream (sync_entries scenario_root scenario_extensions)) in
  let w' := runClient get "10.0.0.2" "8080" empty_world in
  stdout w' = [MsgConnecting "http://10.0.0.2:8080/sync"; MsgUnpacking; MsgSyncDone]
  ∧ fs w' !! (config_dir ++ ["User"; "settings.json"])
    = Some (NFile 420%N (replicate 10 Byte.x7b))
  ∧ fs w' !! (config_dir ++ ["extensions"; "ms-python.python"; "package.json"])
    = Some (NFile 420%N [Byte.x7b; Byte.x7d]).
Proof.
  intros get w'.
  destruct (sync_delivers_both_directories sample_server scenario_root scenario_extensions
              get "10.0.0.2" "8080" empty_world) as (Hout & Huser & Hext).
  - reflexivity.
  - reflexivity.
  - reflexivity.
  - reflexivity.
  - reflexivity.
  - apply scenario_root_wf.
  - apply scenario_root_readable.
  - reflexivity.
  - apply scenario_extensions_wf.
  - simpl. repeat split.
  - left. reflexivity.
  - reflexivity.
  - reflexivity.
  - intros q _. reflexivity.
  - intros q _. reflexivity.
  - intros st hdr s H.
    rewrite (syncHandler_readable sample_server scenario_root scenario_extensions) in H.
    + injection H as <- _ <-. reflexivity.
    + reflexivity.
    + reflexivity.
    + reflexivity.
    + reflexivity.
    + apply scenario_root_wf.
    + apply scenario_root_readable.
    + apply scenario_extensions_wf.
    + simpl. repeat split.
  - split; [exact Hout |]. split.
    + exact (Huser ["settings.json"] 420%N (replicate 10 Byte.x7b) scenario_settings_retained).
    + apply (Hext ["ms-python.python"; "package.json"] 420%N [Byte.x7b; Byte.x7d]).
      split; [by eexists |].
      intros [|[|[|k]]] Hk; [reflexivity | reflexivity | reflexivity | simpl in Hk; lia].
Defined.

Lemma getVSCodePath_under_home_witness :
  ∃ p, getVSCodePath sample_host = Ok p
       ∧ Filepath.IsAbs p = true ∧ Filepath.Clean p = p
       ∧ GoOS.resolve empty_world p = ["home"; "u"; ".config"; "Code"; "User"].
Proof.
  apply (getVSCodePath_under_home sample_host empty_world); [by left | reflexivity].
Defined.

Lemma runClient_keeps_backup_witness :
  fs (runClient (answering hostile_archive) "10.0.0.2" "8080" settled_world)
    !! ["home"; "u"; ".config"; "Code"; "User_backup_20240309-070501"; "settings.json"]
  = Some (NFile 420%N old_settings).
Proof.
  apply (runClient_keeps_backup (answering hostile_archive) "10.0.0.2" "8080" hostile_archive
           settled_world ["settings.json"]).
  - left. reflexivity.
  - reflexivity.
  - reflexivity.
  - apply settled_world_exists.
  - vm_compute. reflexivity.
Defined.

Lemma unzipDest_into_root_rejects_witness :
  unzipDest new_archive "/" empty_world
    = (empty_world, Some (ErrInvalidPath "/settings.json"))
  ∧ Rev1.unzipDest new_archive "/" empty_world
    = (empty_world, Some (ErrInvalidPath "/settings.json")).
Proof.
  apply (unzipDest_into_root_rejects "/"
           (ZFile "settings.json" 420%N false (Stored new_settings)) [] empty_world);
    reflexivity.
Defined.

Lemma announced_command_doubles_port_witness :
  main (announced_command "192.168.1.7:8080") = Returns (RunClient "192.168.1.7:8080" "8080")
  ∧ ∃ rest,
      stdout (runClient (answering new_archive) "192.168.1.7:8080" "8080" empty_world)
      = MsgConnecting "http://192.168.1.7:8080:8080/sync" :: rest.
Proof.
  destruct (announced_command_doubles_port (Ok sample_interfaces) "8080" "192.168.1.7:8080"
              ":8080" "/home/u/.config/Code/User" (answering new_archive) empty_world)
    as (_ & Hmain & Hurl).
  - reflexivity.
  - reflexivity.
  - split; [exact Hmain | exact Hurl].
Defined.
